(** * monitor-scrapper: the block-range scanning engine

    A shallow embedding of the scanning core of the scraper:
      - [utils.py]: [decrease_range_of_blocks], [distribute_events_by_blocks],
        [calculate_apr];
      - [contract_event_filter.py]: the [ContractEventFilter] class;
      - [contracts_reader.py]: [find_log], [distribute_events],
        [get_nimbus_events];
      - [aggregated_metrics_exporter.py]: the fold of the classified events
        and the scan cycle [_run].

    Python integers are [Z]; a dict is an association list in insertion
    order, which is the order Python iterates it in; a call that may raise
    returns a [result]; the object state a method mutates is passed
    explicitly, and what was mutated before an exception stays mutated.
    The chain client is a record of answers ([Web3]); installing and
    uninstalling a provider-side filter and re-connecting to a node are taken
    to succeed.  The datastore refuses a row that does not fit its columns,
    which the source logs and ignores; its other failures (a lost
    connection) are left out, and so are logging and the Prometheus gauges.
    A rate is a [decimal.Decimal] in the source, computed under the default
    context: [Q] holds its value, rounded after every operation as the
    context rounds it. *)

From Stdlib Require Import ZArith List Bool String Lia QArith Lqa Qpower Qabs.
From Stdlib Require Import Permutation Sorted.
Import ListNotations.

Open Scope string_scope.
Open Scope list_scope.
Open Scope Z_scope.

(** ** Exceptions and fallible calls *)

(** The exceptions the scanning code distinguishes.  A [ValueError] comes
    in three shapes, after its first argument [exc.args[0]]:
    [ValueError message] has no argument, or a dict as argument, and carries
    [exc.args[0]['message']] when the dict has that key (web3 raises
    [ValueError] with the provider's error object); [ValueErrorStr text] has
    the string [text] as argument; [ValueErrorObj] has an argument that is
    no container, an integer or [None] say.
    [AsyncioTimeoutError] is [asyncio.exceptions.TimeoutError], a class of its
    own (as it is before Python 3.11), not listed in
    [EXPECTED_NETWORK_EXCEPTIONS]. [NetworkError] stands for the members of
    that tuple. *)
Inductive exn : Type :=
| AsyncioTimeoutError
| ValueError (message : option string)
| ValueErrorStr (text : string)
| ValueErrorObj
| NetworkError
| AssertionError (message : string)
| IndexError
| KeyError
| TypeError
| SystemExit
| OtherError.

Inductive result (A : Type) : Type :=
| Ok (a : A)
| Raise (e : exn).
Arguments Ok {A} a.
Arguments Raise {A} e.

(** A method: it reads and mutates the object state [S] and returns or
    raises.  The mutations made before an exception is raised stay. *)
Definition M (S A : Type) : Type := S -> S * result A.

Definition ret {S A : Type} (a : A) : M S A := fun s => (s, Ok a).

Definition raise {S A : Type} (e : exn) : M S A := fun s => (s, Raise e).

Definition bind {S A B : Type} (m : M S A) (k : A -> M S B) : M S B :=
  fun s =>
    match m s with
    | (s', Ok a) => k a s'
    | (s', Raise e) => (s', Raise e)
    end.

Definition get {S : Type} : M S S := fun s => (s, Ok s).

Definition modify {S : Type} (f : S -> S) : M S unit := fun s => (f s, Ok tt).

(** Run a method of a sub-object held in a field of [S]. *)
Definition zoom {S T A : Type} (proj : S -> T) (upd : T -> S -> S) (m : M T A)
  : M S A :=
  fun s => let (t', r) := m (proj s) in (upd t' s, r).

(** [try: m  except Exception as exc: handler exc].  [SystemExit] derives
    from [BaseException] only and passes through. *)
Definition try_except {S A : Type} (m : M S A) (handler : exn -> M S A) : M S A :=
  fun s =>
    match m s with
    | (s', Ok a) => (s', Ok a)
    | (s', Raise SystemExit) => (s', Raise SystemExit)
    | (s', Raise e) => handler e s'
    end.

Notation "x <- m ;; k" := (bind m (fun x => k))
  (at level 61, m at next level, right associativity).
Notation "m ;;; k" := (bind m (fun _ => k))
  (at level 61, right associativity).

(** [for x in l: body x], stopping at the first exception. *)
Fixpoint for_each {S A : Type} (body : A -> M S unit) (l : list A) : M S unit :=
  match l with
  | [] => ret tt
  | x :: l' => body x ;;; for_each body l'
  end.

(** The test both [get_all_entries] and [_run] make on a caught exception:
    [isinstance(exc, asyncio.exceptions.TimeoutError) or isinstance(exc,
    ValueError) and exc.args and 'message' in exc.args[0] and
    exc.args[0]['message'] == 'query returned more than 10000 results']. *)
Definition too_many_results : string := "query returned more than 10000 results".

Definition is_range_too_large (e : exn) : bool :=
  match e with
  | AsyncioTimeoutError => true
  | ValueError (Some m) => String.eqb m too_many_results
  | _ => false
  end.

(** ['message' in text], on a string: the word occurs in it. *)
Definition contains_message (text : string) : bool :=
  match index 0%nat "message" text with
  | Some _ => true
  | None => false
  end.

(** The test itself fails on a [ValueError] whose argument is a string with
    the word [message] in it ([exc.args[0]['message']] indexes a string by a
    string) or is no container (['message' in exc.args[0]] has nothing to
    look into): both raise [TypeError]. *)
Definition range_too_large_test_fails (e : exn) : bool :=
  match e with
  | ValueErrorStr text => contains_message text
  | ValueErrorObj => true
  | _ => false
  end.

(** The test as a statement of a handler: it raises, or gives its value. *)
Definition range_too_large_test {S : Type} (e : exn) : M S bool :=
  if range_too_large_test_fails e then raise TypeError
  else ret (is_range_too_large e).

(** [type(exc) in utils.EXPECTED_NETWORK_EXCEPTIONS]. *)
Definition is_expected_network_exception (e : exn) : bool :=
  match e with
  | NetworkError => true
  | _ => false
  end.

(** ** Rounded arithmetic *)

(** Python computes on a [decimal.Decimal] and on a [float] by rounding the
    exact result of every operation to the nearest number of the format:
    28 significant decimal digits for a [Decimal] under the default context,
    53 significant bits for a [float], ties to the even neighbour in both.
    The exponent range of the two formats is left out: a [Decimal] reaches
    it from [1e999999] on, a [float] from about [1.8e308] on. *)

(** The nearest integer, ties to the even one. *)
Definition round_half_even (q : Q) : Z :=
  let d := Z.pos (Qden q) in
  let f := Qnum q / d in
  let r2 := 2 * (Qnum q mod d) in
  if r2 <? d then f
  else if d <? r2 then f + 1
  else if Z.even f then f else f + 1.

(** The number of digits of [n > 0] in base [radix]. *)
Fixpoint digits_from (fuel : nat) (radix n : Z) : Z :=
  match fuel with
  | O => 1
  | S fuel' => if n <? radix then 1 else 1 + digits_from fuel' radix (n / radix)
  end.

Definition digits (radix n : Z) : Z :=
  digits_from (Z.to_nat (Z.log2 n)) radix n.

(** [radix ^ k] for any integer [k]. *)
Definition power (radix k : Z) : Q := (inject_Z radix ^ k)%Q.

(** The exponent [l] with [radix ^ l <= |q| < radix ^ (l + 1)], for [q] not
    zero. *)
Definition magnitude (radix : Z) (q : Q) : Z :=
  let n := Z.abs (Qnum q) in
  let d := Z.pos (Qden q) in
  let l := digits radix n - digits radix d in
  if Qle_bool (power radix l) (n # Qden q) then l else l - 1.

(** [q] rounded to [precision] significant digits in base [radix], ties to
    even, the exponent unbounded. *)
Definition round_to (radix precision : Z) (q : Q) : Q :=
  if Qnum q =? 0 then 0%Q
  else
    let e := magnitude radix q - precision + 1 in
    Qred (inject_Z (round_half_even (q * power radix (- e))) * power radix e).

(** The result of an operation on a [decimal.Decimal]. *)
Definition decimal (q : Q) : Q := round_to 10 28 q.

(** The result of an operation on a [float]. *)
Definition binary64 (q : Q) : Q := round_to 2 53 q.

(** ** utils.decrease_range_of_blocks *)

(** [int(range_current * coefficient)] with [coefficient = 0.1]: the binary64
    product truncated towards zero.  For every width below [10^15] in
    absolute value the truncated product is the integer quotient by ten
    ([0.1] is rounded up by less than [6e-18], too little to reach the next
    integer), which is [Z.quot]. *)
Definition int_mul_coefficient (range_current : Z) : Z := Z.quot range_current 10.

(** The body of the function with the truncated product [deducted] given. *)
Definition decrease_by (deducted range_current : Z) : Z :=
  let range_new := Z.max (range_current - deducted) 1 in
  if (range_new =? range_current) && (1 <? range_new)
  then range_new - 1
  else range_new.

Definition decrease_range_of_blocks (range_current : Z) : Z :=
  decrease_by (int_mul_coefficient range_current) range_current.

(** The window after [n] consecutive shrinks. *)
Fixpoint shrink_n (n : nat) (range_current : Z) : Z :=
  match n with
  | O => range_current
  | S n' => shrink_n n' (decrease_range_of_blocks range_current)
  end.

(** ** contracts_reader.find_log *)

(** An argument of a decoded log: an integer amount or an address. *)
Inductive arg_value : Type :=
| AInt (n : Z)
| AAddr (a : string).

(** A log as web3 returns it.  A raw log carries [topics], [logIndex],
    [blockNumber] and [transactionHash]; a decoded ("rich") log also carries
    the event name and its arguments. *)
Record event : Type := mkEvent {
  event_name : string;                      (* 'event' *)
  args : list (string * arg_value);         (* 'args' *)
  blockNumber : Z;
  logIndex : Z;
  topics : list string;
  transactionHash : string
}.

(** [for index, log in enumerate(logs): if log_index == log.get('logIndex'):
    return index], with [index] the running position. *)
Fixpoint find_log_from (index : nat) (logs : list event) (log_index : Z)
  : option nat :=
  match logs with
  | [] => None
  | log :: logs' =>
      if log_index =? logIndex log then Some index
      else find_log_from (S index) logs' log_index
  end.

Definition find_log (logs : list event) (log_index : Z) : nat :=
  match find_log_from 0 logs log_index with
  | Some index => index
  | None => 0%nat
  end.

(** ** The builtin [sorted] *)

(** [sorted(l, key=key)] is a stable sort: elements with equal keys keep
    their relative order.  An element is inserted before the first element of
    the already sorted rest whose key is not smaller. *)
Section SortedBy.
Context {A : Type} (key : A -> Z).

Fixpoint insert_by (x : A) (l : list A) : list A :=
  match l with
  | [] => [x]
  | y :: l' => if key x <=? key y then x :: y :: l' else y :: insert_by x l'
  end.

Fixpoint sorted (l : list A) : list A :=
  match l with
  | [] => []
  | x :: l' => insert_by x (sorted l')
  end.

(** The order the result is sorted by. *)
Definition key_le (a b : A) : Prop := key a <= key b.
End SortedBy.

(** ** contract_event_filter.ContractEventFilter *)

(** The provider behind [w3]: the answers the chain client gives.
    [filter_get_all_entries (from, to) attempt] is the answer to the
    [attempt]-th [get_all_entries] call on a provider-side filter installed
    over the block range [from; to] during one fetch.  A receipt is the list
    of the transaction's logs as the contract ABI decodes them.
    [get_chain_finalised_head] is the number of the finalised head block
    ([get_chain_finalised_head] followed by [get_block_number]). *)
Record Web3 : Type := mkWeb3 {
  keccak : string -> string;
  filter_get_all_entries : Z * Z -> nat -> result (list event);
  get_transaction_receipt : string -> result (list event);
  getLedgerAddresses : result (list string);
  get_chain_finalised_head : result Z
}.

Record ContractEventFilter : Type := mkFilter {
  topics_of_filter : list string;     (* self.topics *)
  contract_address : string;
  from_block : Z;
  to_block : Z;
  uninstalled : bool;
  filter : Z * Z                      (* self.filter: the installed handle *)
}.

Definition set_range (from to : Z) (self : ContractEventFilter) : ContractEventFilter :=
  mkFilter (topics_of_filter self) (contract_address self) from to
           (uninstalled self) (filter self).

(** [_init_filter]: install a provider-side filter over the current range. *)
Definition _init_filter (self : ContractEventFilter) : ContractEventFilter :=
  mkFilter (topics_of_filter self) (contract_address self)
           (from_block self) (to_block self)
           false (from_block self, to_block self).

(** [uninstall]: a failure to uninstall is logged, never raised. *)
Definition uninstall (self : ContractEventFilter) : ContractEventFilter :=
  mkFilter (topics_of_filter self) (contract_address self)
           (from_block self) (to_block self)
           true (filter self).

Definition nimbus_topics (w3 : Web3) : list string :=
  [ keccak w3 "Transfer(address,address,uint256)";
    keccak w3 "Rewards(address,uint256,uint256)";
    keccak w3 "Losses(address,uint256,uint256)";
    keccak w3 "Deposited(address,uint256)";
    keccak w3 "Redeemed(address,uint256)" ].

(** [ContractEventFilter.__init__]; [events_to_find] is the set given, as
    the list of its elements. *)
Definition ContractEventFilter_init (w3 : Web3) (contract_address : string)
    (from_block to_block : Z) (events_to_find : list string)
  : result ContractEventFilter :=
  if negb (from_block <=? to_block)
  then Raise (AssertionError "the 'from_block' is greater than the 'to_block'")
  else
    let topics :=
      if existsb (String.eqb "nimbus") events_to_find then nimbus_topics w3 else [] in
    Ok (_init_filter (mkFilter topics contract_address from_block to_block
                               false (from_block, to_block))).

(** [except (asyncio.exceptions.TimeoutError, ValueError)]. *)
Definition caught_by_get_all_entries (e : exn) : bool :=
  match e with
  | AsyncioTimeoutError | ValueError _ | ValueErrorStr _ | ValueErrorObj => true
  | _ => false
  end.

(** The loop [for _ in range(2)] of [get_all_entries], [n] rounds left.
    Leaving the loop without a successful call leaves [entries = []]. *)
Fixpoint fetch_entries (w3 : Web3) (n attempt : nat) : M ContractEventFilter (list event) :=
  match n with
  | O => ret []
  | S n' =>
      self <- get ;;
      match filter_get_all_entries w3 (filter self) attempt with
      | Ok entries => ret entries
      | Raise exc =>
          if caught_by_get_all_entries exc then
            too_large <- range_too_large_test exc ;;
            if too_large : bool
            then modify uninstall ;;; raise exc
            else modify _init_filter ;;; fetch_entries w3 n' (S attempt)
          else raise exc
      end
  end.

(** The update made with a non-empty result. *)
Definition advance_past (last_event : event) (self : ContractEventFilter)
  : ContractEventFilter :=
  let from_block' := blockNumber last_event + 1 in
  let self' := set_range from_block' (to_block self) self in
  if to_block self' <? from_block'
  then set_range from_block' from_block' self'
  else self'.

Definition get_all_entries (w3 : Web3) : M ContractEventFilter (list event) :=
  self <- get ;;
  (if uninstalled self then modify _init_filter else ret tt) ;;;
  entries <- fetch_entries w3 2 0 ;;
  let sorted_events := sorted blockNumber entries in
  modify uninstall ;;;
  match rev sorted_events with
  | [] => ret sorted_events
  | last_event :: _ => modify (advance_past last_event) ;;; ret sorted_events
  end.

(** What the provider handed over in a fetch on [self]: the answer to the
    first call, or to the second one, made on a filter installed anew over
    the range of [self], after a first call refused with an exception that
    is caught and is not the range-too-large signal. *)
Definition provider_returned (w3 : Web3) (self : ContractEventFilter)
    (entries : list event) : Prop :=
  let handle := if uninstalled self then (from_block self, to_block self)
                else filter self in
  filter_get_all_entries w3 handle 0 = Ok entries
  \/ exists exc,
       filter_get_all_entries w3 handle 0 = Raise exc
       /\ caught_by_get_all_entries exc = true
       /\ is_range_too_large exc = false
       /\ filter_get_all_entries w3 (from_block self, to_block self) 1 = Ok entries.

(** [update_filter_range]: no test is made on the range given. *)
Definition update_filter_range (from_block to_block : Z) : M ContractEventFilter unit :=
  self <- get ;;
  (if negb (uninstalled self) then modify uninstall else ret tt) ;;;
  modify (set_range from_block to_block) ;;;
  modify _init_filter.

(** ** Dicts in insertion order *)

Section Dict.
Context {K V : Type} (eqb : K -> K -> bool).

Fixpoint dict_get (k : K) (d : list (K * V)) : option V :=
  match d with
  | [] => None
  | (k', v) :: d' => if eqb k k' then Some v else dict_get k d'
  end.

(** [k in d]. *)
Definition dict_mem (k : K) (d : list (K * V)) : bool :=
  match dict_get k d with
  | Some _ => true
  | None => false
  end.

(** [d[k] = f(d[k])] for a key that is present: the key keeps its place. *)
Fixpoint dict_update (k : K) (f : V -> V) (d : list (K * V)) : list (K * V) :=
  match d with
  | [] => []
  | (k', v) :: d' =>
      if eqb k k' then (k', f v) :: d' else (k', v) :: dict_update k f d'
  end.

(** [d[k] = v] for a key that is absent: it becomes the last key. *)
Definition dict_add (k : K) (v : V) (d : list (K * V)) : list (K * V) :=
  d ++ [(k, v)].
End Dict.

(** [{kind: [events]}], the keys being the event names. *)
Definition events_dict : Type := list (string * list event).

(** [events[kind].append(log)]. *)
Definition append_event (kind : string) (log : event) (events : events_dict)
  : events_dict :=
  dict_update String.eqb kind (fun l => l ++ [log]) events.

(** ** contracts_reader.ContractsReader *)

Record ContractsReader : Type := mkReader {
  nimbus_event_filter : option ContractEventFilter;
  deposited_event_hash : string;
  losses_event_hash : string;
  redeemed_event_hash : string;
  rewards_event_hash : string;
  transfer_event_hash : string
}.

(** [__post_init__]: no filter yet, the five topic hashes computed. *)
Definition ContractsReader_init (w3 : Web3) : ContractsReader :=
  mkReader None
           (keccak w3 "Deposited(address,uint256)")
           (keccak w3 "Losses(address,uint256,uint256)")
           (keccak w3 "Redeemed(address,uint256)")
           (keccak w3 "Rewards(address,uint256,uint256)")
           (keccak w3 "Transfer(address,address,uint256)").

Definition set_nimbus_event_filter (f : option ContractEventFilter)
    (self : ContractsReader) : ContractsReader :=
  mkReader f (deposited_event_hash self) (losses_event_hash self)
           (redeemed_event_hash self) (rewards_event_hash self)
           (transfer_event_hash self).

(** web3's [processReceipt(tx_receipt, errors=DISCARD)] of the event [kind]:
    the logs of the receipt that decode as that event, in receipt order. *)
Definition processReceipt (kind : string) (tx_receipt : list event) : list event :=
  List.filter (fun log => String.eqb (event_name log) kind) tx_receipt.

(** [events[kind].append(rich_logs[self.find_log(rich_logs, log_index)])]. *)
Definition append_rich_log (kind : string) (tx_receipt : list event)
    (log_index : Z) : M events_dict unit :=
  let rich_logs := processReceipt kind tx_receipt in
  match nth_error rich_logs (find_log rich_logs log_index) with
  | Some log => modify (append_event kind log)
  | None => raise IndexError
  end.

(** [for topic in topics: ...] of [distribute_events]: the first topic that
    is one of the five hashes decides, and ends the loop. *)
Fixpoint distribute_by_topics (self : ContractsReader) (tx_receipt : list event)
    (event : event) (topics : list string) : M events_dict unit :=
  match topics with
  | [] => ret tt
  | topic :: topics' =>
      if String.eqb topic (deposited_event_hash self) then
        append_rich_log "Deposited" tx_receipt (logIndex event)
      else if String.eqb topic (losses_event_hash self) then
        append_rich_log "Losses" tx_receipt (logIndex event)
      else if String.eqb topic (redeemed_event_hash self) then
        append_rich_log "Redeemed" tx_receipt (logIndex event)
      else if String.eqb topic (rewards_event_hash self) then
        append_rich_log "Rewards" tx_receipt (logIndex event)
      else if String.eqb topic (transfer_event_hash self) then
        modify (append_event "Transfer" event)
      else distribute_by_topics self tx_receipt event topics'
  end.

Definition empty_events : events_dict :=
  [ ("Deposited", []); ("Losses", []); ("Redeemed", []); ("Rewards", []);
    ("Transfer", []) ].

(** [distribute_events]: the dict [events] is the state of the loop. *)
Definition distribute_events (w3 : Web3) (self : ContractsReader)
    (events_mixed : list event) : result events_dict :=
  match events_mixed with
  | [] => Ok []
  | _ =>
      let loop :=
        for_each (fun event =>
          match get_transaction_receipt w3 (transactionHash event) with
          | Raise exc => raise exc
          | Ok tx_receipt =>
              distribute_by_topics self tx_receipt event (topics event)
          end) events_mixed in
      match loop empty_events with
      | (events, Ok _) => Ok events
      | (_, Raise exc) => Raise exc
      end
  end.

(** [set('nimbus',)]: the set of the letters of the word. *)
Definition events_to_find_nimbus : list string := ["n"; "i"; "m"; "b"; "u"; "s"].

(** [get_nimbus_events]; [nimbus_address] is [service_params.nimbus_address]. *)
Definition get_nimbus_events (w3 : Web3) (nimbus_address : string)
    (from_block to_block : Z) : M ContractsReader events_dict :=
  fun self =>
    let installed : result ContractEventFilter :=
      match nimbus_event_filter self with
      | Some f => Ok (fst (update_filter_range from_block to_block f))
      | None => ContractEventFilter_init w3 nimbus_address from_block to_block
                                         events_to_find_nimbus
      end in
    match installed with
    | Raise exc => (self, Raise exc)
    | Ok f =>
        let (f', fetched) := get_all_entries w3 f in
        let self' := set_nimbus_event_filter (Some f') self in
        match fetched with
        | Raise exc => (self', Raise exc)
        | Ok events_mixed => (self', distribute_events w3 self' events_mixed)
        end
    end.

(** ** utils.distribute_events_by_blocks *)

(** [{block_number: {kind: [events]}}]. *)
Definition blocks_dict : Type := list (Z * events_dict).

(** The body of the inner loop for one [event] of [events[key]]. *)
Definition add_event_to_block (keys : list string) (key : string)
    (distributed_events : blocks_dict) (event : event) : blocks_dict :=
  let block_number := blockNumber event in
  let with_block :=
    if dict_mem Z.eqb block_number distributed_events
    then distributed_events
    else dict_add block_number (map (fun k => (k, [])) keys) distributed_events in
  dict_update Z.eqb block_number (append_event key event) with_block.

Definition distribute_events_by_blocks (events : events_dict) : blocks_dict :=
  fold_left
    (fun distributed_events (entry : string * list event) =>
       fold_left (add_event_to_block (map fst events) (fst entry))
                 (snd entry) distributed_events)
    events [].

(** ** utils.calculate_apr *)

(** A row of the [reward] table: [(ledger, reward, balance, block)]; the
    function reads [reward[1]] and [reward[2]].  The driver hands over the
    [BIGINT] column [reward] as an [int] and the [uint_256] column [balance],
    a [NUMERIC] domain without fractional digits, as a [decimal.Decimal]. *)
Record reward_row : Type := mkRow {
  row_ledger : option string;
  row_reward : Z;
  row_balance : Z;
  row_block : Z
}.

Definition DAYS_IN_YEAR : Z := 365.

Definition Qlt_bool (x y : Q) : bool := negb (Qle_bool y x).

(** The numbers the function computes with: the [int] [0] of an entry
    without a rate, the [Decimal] of a rate, and the [float] that the
    quotient of two [int]s is. *)
Inductive number : Type :=
| PyInt (n : Z)
| PyFloat (x : Q)
| PyDecimal (d : Q).

Definition number_value (v : number) : Q :=
  match v with
  | PyInt n => inject_Z n
  | PyFloat x => x
  | PyDecimal d => d
  end.

(** [a + b]: an [int] is taken into the format of the other operand, and a
    [float] and a [Decimal] do not add. *)
Definition add (a b : number) : result number :=
  match a, b with
  | PyInt m, PyInt n => Ok (PyInt (m + n))
  | PyInt m, PyFloat y => Ok (PyFloat (binary64 (binary64 (inject_Z m) + y)))
  | PyFloat x, PyInt n => Ok (PyFloat (binary64 (x + binary64 (inject_Z n))))
  | PyFloat x, PyFloat y => Ok (PyFloat (binary64 (x + y)))
  | PyInt m, PyDecimal d => Ok (PyDecimal (decimal (inject_Z m + d)))
  | PyDecimal c, PyInt n => Ok (PyDecimal (decimal (c + inject_Z n)))
  | PyDecimal c, PyDecimal d => Ok (PyDecimal (decimal (c + d)))
  | PyFloat _, PyDecimal _ | PyDecimal _, PyFloat _ => Raise TypeError
  end.

(** [sum(value)]: the additions from the [int] [0] on, left to right. *)
Definition sum (value : list number) : result number :=
  fold_left (fun total v =>
               match total with
               | Ok t => add t v
               | Raise exc => Raise exc
               end)
            value (Ok (PyInt 0)).

(** [a / n] for the length [n] of a list that is not empty. *)
Definition truediv_len (a : number) (n : Z) : number :=
  match a with
  | PyInt m => PyFloat (binary64 (inject_Z m / inject_Z n))
  | PyFloat x => PyFloat (binary64 (x / binary64 (inject_Z n)))
  | PyDecimal d => PyDecimal (decimal (d / inject_Z n))
  end.

(** [sum(value) / len(value)]. *)
Definition average (value : list number) : result number :=
  match sum value with
  | Ok total => Ok (truediv_len total (Z.of_nat (List.length value)))
  | Raise exc => Raise exc
  end.

(** [float(a)]. *)
Definition float (a : number) : Q :=
  match a with
  | PyInt m => binary64 (inject_Z m)
  | PyFloat x => x
  | PyDecimal d => binary64 d
  end.

(** [denominator = reward[2] - reward[1]], a [Decimal]. *)
Definition denominator (reward : reward_row) : Q :=
  decimal (inject_Z (row_balance reward) - inject_Z (row_reward reward)).

(** [_apr] of one entry: [reward[1] / denominator * eras_per_day *
    DAYS_IN_YEAR], a [Decimal], each of the three operations rounded; the
    [int] [0] when [denominator] is zero. *)
Definition _apr (eras_per_day : Z) (reward : reward_row) : number :=
  if Qeq_bool (denominator reward) 0 then PyInt 0
  else PyDecimal
         (decimal (decimal (decimal (inject_Z (row_reward reward) / denominator reward)
                            * inject_Z eras_per_day)
                   * inject_Z DAYS_IN_YEAR)).

(** The value of [_apr]. *)
Definition entry_apr (eras_per_day : Z) (reward : reward_row) : Q :=
  number_value (_apr eras_per_day reward).

(** [apr[ledger]] after the inner loop over [rewards[ledger]]. *)
Fixpoint ledger_apr (eras_per_day : Z) (apr_min apr_max : Q)
    (rewards : list reward_row) : list number :=
  match rewards with
  | [] => []
  | reward :: rewards' =>
      let apr := _apr eras_per_day reward in
      if Qlt_bool (number_value apr) apr_min || Qlt_bool apr_max (number_value apr)
      then ledger_apr eras_per_day apr_min apr_max rewards'
      else apr :: ledger_apr eras_per_day apr_min apr_max rewards'
  end.

(** The dict [apr] after the first loop. *)
Definition apr_by_ledger (eras_per_day : Z) (apr_min apr_max : Q)
    (rewards : list (string * list reward_row)) : list (string * list number) :=
  map (fun entry => (fst entry, ledger_apr eras_per_day apr_min apr_max (snd entry)))
      rewards.

(** The dict [averaged_apr] after the second loop. *)
Fixpoint averaged_apr (apr : list (string * list number))
  : result (list (string * number)) :=
  match apr with
  | [] => Ok []
  | (ledger, []) :: apr' => averaged_apr apr'
  | (ledger, value) :: apr' =>
      match average value with
      | Ok a =>
          match averaged_apr apr' with
          | Ok averaged => Ok ((ledger, a) :: averaged)
          | Raise exc => Raise exc
          end
      | Raise exc => Raise exc
      end
  end.

(** [total_apr] is a [float] when the function is called, and [float] of
    a [float] is that [float]. *)
Definition calculate_apr (total_apr : Q) (rewards : list (string * list reward_row))
    (eras_per_day : Z) (apr_min apr_max : Q) : result Q :=
  match averaged_apr (apr_by_ledger eras_per_day apr_min apr_max rewards) with
  | Raise exc => Raise exc
  | Ok [] => Ok total_apr
  | Ok averaged =>
      match average (map snd averaged) with
      | Ok total => Ok (float total)
      | Raise exc => Raise exc
      end
  end.

(** ** database_manager.DatabaseManager *)

(** The tables the aggregator uses.  [aggregated_data] holds at most one
    row; [holder] has a primary key. *)
Record DatabaseManager : Type := mkDb {
  aggregated_data : option (Z * Z * Z * Z * Z);
  reward : list reward_row;
  holder : list string;
  api : Q * Z * Z            (* apr, total_rewards, total_losses *)
}.

(** The column types: [uint_256] is a domain of the integers from 0 to
    [2^256 - 1], [INT] has 32 bits and [BIGINT] 64. *)
Definition is_uint_256 (v : Z) : bool := (0 <=? v) && (v <? 2 ^ 256).
Definition is_INT (v : Z) : bool := (- 2 ^ 31 <=? v) && (v <? 2 ^ 31).
Definition is_BIGINT (v : Z) : bool := (- 2 ^ 63 <=? v) && (v <? 2 ^ 63).

(** The columns of [aggregated_data]. *)
Definition fits_aggregated_data (entry : Z * Z * Z * Z * Z) : bool :=
  let '(deposited, deposited_events_num, redeemed, redeemed_events_num,
        last_block_number_with_events) := entry in
  is_uint_256 deposited && is_INT deposited_events_num
  && is_uint_256 redeemed && is_INT redeemed_events_num
  && is_INT last_block_number_with_events.

(** [update_aggregated_data]: delete, then insert the row, in one
    transaction; a row that does not fit the columns fails it, the failure
    is logged and the table is as before. *)
Definition update_aggregated_data (entry : Z * Z * Z * Z * Z)
    (db : DatabaseManager) : DatabaseManager :=
  if fits_aggregated_data entry
  then mkDb (Some entry) (reward db) (holder db) (api db)
  else db.

(** [add_reward]; the [balance] column is not nullable, and an insert that
    fails is logged and dropped. *)
Definition add_reward (ledger : option string) (amount : Z) (balance : option Z)
    (block_number : Z) (db : DatabaseManager) : DatabaseManager :=
  match balance with
  | Some b =>
      if is_BIGINT amount && is_uint_256 b && is_INT block_number
      then mkDb (aggregated_data db) (reward db ++ [mkRow ledger amount b block_number])
                (holder db) (api db)
      else db
  | None => db
  end.

Definition same_ledger (ledger : string) (row : reward_row) : bool :=
  match row_ledger row with
  | Some l => String.eqb l ledger
  | None => false
  end.

(** [get_rewards]: [WHERE ledger = .. ORDER BY block DESC LIMIT ..]; rows
    of one block are left in insertion order. *)
Definition get_rewards (ledger : string) (limit : Z) (db : DatabaseManager)
  : list reward_row :=
  firstn (Z.to_nat limit)
         (sorted (fun row => - row_block row)
                 (List.filter (same_ledger ledger) (reward db))).

(** [add_holder]: a duplicate key is refused, which is logged only. *)
Definition add_holder (h : string) (db : DatabaseManager) : DatabaseManager :=
  if existsb (String.eqb h) (holder db) then db
  else mkDb (aggregated_data db) (reward db) (holder db ++ [h]) (api db).

(** [get_holders_number()[0]]. *)
Definition get_holders_number (db : DatabaseManager) : Z :=
  Z.of_nat (List.length (holder db)).

(** [update_api_table]: one [UPDATE] for each of [apr], [total_rewards] and
    [total_losses]; the last two columns are [uint_256], and an [UPDATE]
    that fails is logged and leaves the column as it was. *)
Definition update_api_table (apr : Q) (total_rewards total_losses : Z)
    (db : DatabaseManager) : DatabaseManager :=
  mkDb (aggregated_data db) (reward db) (holder db)
       (apr,
        if is_uint_256 total_rewards then total_rewards else snd (fst (api db)),
        if is_uint_256 total_losses then total_losses else snd (api db)).

(** ** aggregated_metrics_exporter.AggregatedMetricsExporter *)

Record ServiceParameters : Type := mkParams {
  nimbus_address : string;
  max_range_of_blocks : Z;
  eras_per_day : Z;
  apr_min : Q;
  apr_max : Q;
  database_query_limit : Z
}.

Record AggregatedMetricsExporter : Type := mkExporter {
  database_manager : DatabaseManager;
  service_params : ServiceParameters;
  apr : Q;
  contracts_reader : ContractsReader;
  deposited : Z;
  deposited_events_num : Z;
  holders_number : Z;
  last_block_number_with_events : Z;
  losses : Z;
  redeemed : Z;
  redeemed_events_num : Z;
  rewards : Z;
  stop : bool
}.

(** [__init__]. *)
Definition AggregatedMetricsExporter_init (w3 : Web3) (db : DatabaseManager)
    (params : ServiceParameters) : AggregatedMetricsExporter :=
  mkExporter db params (0 : Q) (ContractsReader_init w3) 0 0 0 (-1) 0 0 0 0 false.

Definition set_database_manager (v : DatabaseManager) (s : AggregatedMetricsExporter) :=
  mkExporter v (service_params s) (apr s) (contracts_reader s) (deposited s)
    (deposited_events_num s) (holders_number s) (last_block_number_with_events s)
    (losses s) (redeemed s) (redeemed_events_num s) (rewards s) (stop s).

Definition set_apr (v : Q) (s : AggregatedMetricsExporter) :=
  mkExporter (database_manager s) (service_params s) v (contracts_reader s)
    (deposited s) (deposited_events_num s) (holders_number s)
    (last_block_number_with_events s) (losses s) (redeemed s)
    (redeemed_events_num s) (rewards s) (stop s).

Definition set_contracts_reader (v : ContractsReader) (s : AggregatedMetricsExporter) :=
  mkExporter (database_manager s) (service_params s) (apr s) v (deposited s)
    (deposited_events_num s) (holders_number s) (last_block_number_with_events s)
    (losses s) (redeemed s) (redeemed_events_num s) (rewards s) (stop s).

Definition set_deposited (v : Z) (s : AggregatedMetricsExporter) :=
  mkExporter (database_manager s) (service_params s) (apr s) (contracts_reader s)
    v (deposited_events_num s) (holders_number s) (last_block_number_with_events s)
    (losses s) (redeemed s) (redeemed_events_num s) (rewards s) (stop s).

Definition set_deposited_events_num (v : Z) (s : AggregatedMetricsExporter) :=
  mkExporter (database_manager s) (service_params s) (apr s) (contracts_reader s)
    (deposited s) v (holders_number s) (last_block_number_with_events s)
    (losses s) (redeemed s) (redeemed_events_num s) (rewards s) (stop s).

Definition set_holders_number (v : Z) (s : AggregatedMetricsExporter) :=
  mkExporter (database_manager s) (service_params s) (apr s) (contracts_reader s)
    (deposited s) (deposited_events_num s) v (last_block_number_with_events s)
    (losses s) (redeemed s) (redeemed_events_num s) (rewards s) (stop s).

Definition set_last_block_number_with_events (v : Z) (s : AggregatedMetricsExporter) :=
  mkExporter (database_manager s) (service_params s) (apr s) (contracts_reader s)
    (deposited s) (deposited_events_num s) (holders_number s) v
    (losses s) (redeemed s) (redeemed_events_num s) (rewards s) (stop s).

Definition set_losses (v : Z) (s : AggregatedMetricsExporter) :=
  mkExporter (database_manager s) (service_params s) (apr s) (contracts_reader s)
    (deposited s) (deposited_events_num s) (holders_number s)
    (last_block_number_with_events s) v (redeemed s) (redeemed_events_num s)
    (rewards s) (stop s).

Definition set_redeemed (v : Z) (s : AggregatedMetricsExporter) :=
  mkExporter (database_manager s) (service_params s) (apr s) (contracts_reader s)
    (deposited s) (deposited_events_num s) (holders_number s)
    (last_block_number_with_events s) (losses s) v (redeemed_events_num s)
    (rewards s) (stop s).

Definition set_redeemed_events_num (v : Z) (s : AggregatedMetricsExporter) :=
  mkExporter (database_manager s) (service_params s) (apr s) (contracts_reader s)
    (deposited s) (deposited_events_num s) (holders_number s)
    (last_block_number_with_events s) (losses s) (redeemed s) v
    (rewards s) (stop s).

Definition set_rewards (v : Z) (s : AggregatedMetricsExporter) :=
  mkExporter (database_manager s) (service_params s) (apr s) (contracts_reader s)
    (deposited s) (deposited_events_num s) (holders_number s)
    (last_block_number_with_events s) (losses s) (redeemed s)
    (redeemed_events_num s) v (stop s).

(** A call on [self.database_manager]. *)
Definition with_database (f : DatabaseManager -> DatabaseManager)
  : M AggregatedMetricsExporter unit :=
  modify (fun s => set_database_manager (f (database_manager s)) s).

(** [events[kind]] on a dict of event lists. *)
Definition events_at {S : Type} (kind : string) (events : events_dict)
  : M S (list event) :=
  match dict_get String.eqb kind events with
  | Some l => ret l
  | None => raise KeyError
  end.

(** [event.get('args').get(name)] used as a number: a missing argument is
    [None], which no arithmetic accepts. *)
Definition arg_int {S : Type} (name : string) (event : event) : M S Z :=
  match dict_get String.eqb name (args event) with
  | Some (AInt n) => ret n
  | _ => raise TypeError
  end.

Definition arg_int_opt (name : string) (event : event) : option Z :=
  match dict_get String.eqb name (args event) with
  | Some (AInt n) => Some n
  | _ => None
  end.

Definition arg_addr_opt (name : string) (event : event) : option string :=
  match dict_get String.eqb name (args event) with
  | Some (AAddr a) => Some a
  | _ => None
  end.

Definition _process_deposited_and_redeemed_events (events : events_dict)
  : M AggregatedMetricsExporter unit :=
  deposited_events <- events_at "Deposited" events ;;
  redeemed_events <- events_at "Redeemed" events ;;
  modify (fun s => set_deposited_events_num
                     (deposited_events_num s + Z.of_nat (List.length deposited_events)) s) ;;;
  modify (fun s => set_redeemed_events_num
                     (redeemed_events_num s + Z.of_nat (List.length redeemed_events)) s) ;;;
  for_each (fun event =>
              amount <- arg_int "amount" event ;;
              modify (fun s => set_deposited (deposited s + amount) s))
           deposited_events ;;;
  for_each (fun event =>
              amount <- arg_int "amount" event ;;
              modify (fun s => set_redeemed (redeemed s + amount) s))
           redeemed_events.

(** [s[n:]]. *)
Fixpoint string_drop (n : nat) (s : string) : string :=
  match n, s with
  | O, _ => s
  | S n', String _ s' => string_drop n' s'
  | S _, EmptyString => EmptyString
  end.

Definition _process_transfer_events (events : events_dict)
  : M AggregatedMetricsExporter unit :=
  transfer_events <- events_at "Transfer" events ;;
  for_each (fun transfer_event =>
              match nth_error (topics transfer_event) 2 with
              | Some topic =>
                  let receiver := String.append "0x" (string_drop 26 topic) in
                  with_database (add_holder receiver)
              | None => raise IndexError
              end)
           transfer_events ;;;
  modify (fun s => set_holders_number (get_holders_number (database_manager s)) s).

(** The dict [{'ledger': .., 'reward': .., 'balance': ..}]. *)
Record reward_entry : Type := mkRewardEntry {
  entry_ledger : option string;
  entry_reward : Z;
  entry_balance : option Z
}.

Fixpoint _process_rewards_and_losses_events (events : list event)
  : M AggregatedMetricsExporter (list reward_entry) :=
  match events with
  | [] => ret []
  | event :: events' =>
      let ledger := arg_addr_opt "ledger" event in
      let balance := arg_int_opt "balance" event in
      amount <-
        (if String.eqb (event_name event) "Rewards" then
           r <- arg_int "rewards" event ;;
           modify (fun s => set_rewards (rewards s + r) s) ;;;
           ret r
         else
           l <- arg_int "losses" event ;;
           modify (fun s => set_losses (losses s + l) s) ;;;
           ret (- l)) ;;
      rest <- _process_rewards_and_losses_events events' ;;
      ret (mkRewardEntry ledger amount balance :: rest)
  end.

(** [set(ledger_addresses)], in the order of first occurrence. *)
Fixpoint to_set (l : list string) : list string :=
  match l with
  | [] => []
  | x :: l' => x :: List.filter (fun y => negb (String.eqb x y)) (to_set l')
  end.

(** [contracts_reader.get_ledger_addresses()]: a contract call. *)
Definition get_ledger_addresses {S : Type} (w3 : Web3) : M S (list string) :=
  match getLedgerAddresses w3 with
  | Ok ledger_addresses => ret (to_set ledger_addresses)
  | Raise exc => raise exc
  end.

(** The dict [rewards] built for [calculate_apr]. *)
Fixpoint rewards_by_ledger (db : DatabaseManager) (limit : Z)
    (ledger_addresses : list string) : list (string * list reward_row) :=
  match ledger_addresses with
  | [] => []
  | ledger :: ledgers' =>
      match get_rewards ledger limit db with
      | [] => rewards_by_ledger db limit ledgers'
      | ledger_rewards => (ledger, ledger_rewards) :: rewards_by_ledger db limit ledgers'
      end
  end.

(** The body of the loop over [distributed_events.items()]. *)
Definition process_block (w3 : Web3) (block_number : Z) (events : events_dict)
  : M AggregatedMetricsExporter unit :=
  _process_deposited_and_redeemed_events events ;;;
  rewards_events <- events_at "Rewards" events ;;
  losses_events <- events_at "Losses" events ;;
  block_rewards <- _process_rewards_and_losses_events (rewards_events ++ losses_events) ;;
  _process_transfer_events events ;;;
  self <- get ;;
  with_database (update_aggregated_data
                   (deposited self, deposited_events_num self, redeemed self,
                    redeemed_events_num self, block_number)) ;;;
  for_each (fun r => with_database (add_reward (entry_ledger r) (entry_reward r)
                                               (entry_balance r) block_number))
           block_rewards ;;;
  ledger_addresses <- get_ledger_addresses w3 ;;
  self <- get ;;
  let params := service_params self in
  apr <- (fun s =>
            (s, calculate_apr (apr self)
                  (rewards_by_ledger (database_manager self)
                                     (database_query_limit params) ledger_addresses)
                  (eras_per_day params) (apr_min params) (apr_max params))) ;;
  modify (set_apr apr) ;;;
  modify (set_last_block_number_with_events block_number).

Definition get_and_process_aggregated_data (w3 : Web3) (from_block to_block : Z)
  : M AggregatedMetricsExporter Z :=
  self <- get ;;
  events <- zoom contracts_reader set_contracts_reader
                 (get_nimbus_events w3 (nimbus_address (service_params self))
                                    from_block to_block) ;;
  let distributed_events := distribute_events_by_blocks events in
  for_each (fun item => process_block w3 (fst item) (snd item)) distributed_events ;;;
  modify (fun s => set_database_manager
                     (update_api_table (apr s) (rewards s) (losses s)
                                       (database_manager s)) s) ;;;
  ret (to_block + 1).

(** [utils.restore_connection_to_parachain] followed by
    [initialize_contracts]: new connection and contract handles; it returns
    once a node answers.  Nothing of the state kept here changes. *)
Definition restore_connection : M AggregatedMetricsExporter unit := ret tt.

(** The body of [_run]: one scan cycle. *)
Definition _run (w3 : Web3) (from_block current_range_of_blocks : Z)
  : M AggregatedMetricsExporter (Z * Z) :=
  try_except
    (self <- get ;;
     (if stop self then raise SystemExit else ret tt) ;;;
     block_number <- (fun s => (s, get_chain_finalised_head w3)) ;;
     if block_number <=? from_block then
       ret (from_block, current_range_of_blocks)
     else
       let to_block := from_block + current_range_of_blocks in
       let to_block := if block_number <? to_block then block_number else to_block in
       next_block <- get_and_process_aggregated_data w3 from_block to_block ;;
       let max_range := max_range_of_blocks (service_params self) in
       if negb (current_range_of_blocks =? max_range)
       then ret (next_block, max_range)
       else ret (next_block, current_range_of_blocks))
    (fun exc =>
       if is_expected_network_exception exc then
         restore_connection ;;; ret (from_block, current_range_of_blocks)
       else
         too_large <- range_too_large_test exc ;;
         if too_large : bool then
           ret (from_block, decrease_range_of_blocks current_range_of_blocks)
         else
           restore_connection ;;; ret (from_block, current_range_of_blocks)).

(** The upper end of the range a cycle asks for, the finalised head being
    [block_number]. *)
Definition cycle_to_block (from_block current_range_of_blocks block_number : Z) : Z :=
  let to_block := from_block + current_range_of_blocks in
  if block_number <? to_block then block_number else to_block.

(** The aggregates and their checkpoint are those of [s]. *)
Definition same_aggregates (s s' : AggregatedMetricsExporter) : Prop :=
  deposited s' = deposited s
  /\ deposited_events_num s' = deposited_events_num s
  /\ redeemed s' = redeemed s
  /\ redeemed_events_num s' = redeemed_events_num s
  /\ last_block_number_with_events s' = last_block_number_with_events s
  /\ rewards s' = rewards s
  /\ losses s' = losses s
  /\ holders_number s' = holders_number s
  /\ apr s' = apr s
  /\ aggregated_data (database_manager s') = aggregated_data (database_manager s)
  /\ reward (database_manager s') = reward (database_manager s)
  /\ holder (database_manager s') = holder (database_manager s).

(** [decorators.ReconnectionCounter.reconnection_counter]: the wrapper calls
    the function, drops what it returns, and calls it again with the same
    arguments; what the second call returns is returned. *)
Definition reconnection_counter {S A : Type} (func : M S A) : M S A :=
  func ;;; func.

(** ** Concrete inputs *)

(** A decoded log with no arguments, for examples where only the position
    matters. *)
Definition bare_log (name : string) (block_number log_index : Z) : event :=
  mkEvent name [] block_number log_index [] "0xabc".

Definition three_logs : list event :=
  [ bare_log "Deposited" 7 3; bare_log "Deposited" 7 5; bare_log "Redeemed" 7 5 ].

(** A provider whose filters answer with [answers attempt], whatever the
    range, and which knows no receipt. *)
Definition provider_answering (answers : nat -> result (list event)) : Web3 :=
  mkWeb3 (fun text => text)
         (fun _ attempt => answers attempt)
         (fun _ => Raise NetworkError)
         (Ok [])
         (Raise NetworkError).

(** Three entries out of order, two of them of block 7. *)
Definition unsorted_entries : list event :=
  [ bare_log "" 7 1; bare_log "" 5 0; bare_log "" 7 0 ].

(** A filter as [__init__] leaves it, without topics. *)
Definition fresh_filter (from to : Z) : ContractEventFilter :=
  mkFilter [] "0xnimbus" from to false (from, to).

(** Scenario D: two entries of the ledger [L1]. *)
Definition scenario_D_entry_1 : reward_row := mkRow (Some "L1") 10 110 1.
Definition scenario_D_entry_2 : reward_row := mkRow (Some "L1") (-5) 95 2.
Definition scenario_D_rewards : list (string * list reward_row) :=
  [ ("L1", [scenario_D_entry_1; scenario_D_entry_2]) ].

Definition default_params : ServiceParameters :=
  mkParams "0xnimbus" 2500 4 (3 # 100) (45 # 100) 100.

Definition empty_database : DatabaseManager :=
  mkDb None [] [] (0 : Q, 0, 0).

(** Scenario B: the finalised head is far ahead and the provider refuses the
    query with the too-many-results error. *)
Definition scenario_B_provider : Web3 :=
  mkWeb3 (fun text => text)
         (fun _ _ => Raise (ValueError (Some too_many_results)))
         (fun _ => Raise NetworkError)
         (Ok [])
         (Ok 1000000).

(** The provider twice reports the filter as not found. *)
Definition stale_provider : Web3 :=
  mkWeb3 (fun text => text)
         (fun _ _ => Raise (ValueError (Some "filter not found")))
         (fun _ => Raise NetworkError)
         (Ok [])
         (Ok 1000000).

(** Scenario A: the range [100; 110] holds one log, a [Deposited] event of
    amount 50 in block 105; the finalised head is block 110 and the contract
    lists the ledgers [ledgers]. *)
Definition scenario_A_raw_log : event :=
  mkEvent "" [] 105 0 ["Deposited(address,uint256)"] "0xtx1".

Definition scenario_A_decoded_log : event :=
  mkEvent "Deposited" [("sender", AAddr "0xa11ce"); ("amount", AInt 50)]
          105 0 ["Deposited(address,uint256)"] "0xtx1".

Definition scenario_A_provider (ledgers : list string) : Web3 :=
  mkWeb3 (fun text => text)
         (fun range _ =>
            if (fst range <=? 105) && (105 <=? snd range)
            then Ok [scenario_A_raw_log] else Ok [])
         (fun tx => if String.eqb tx "0xtx1" then Ok [scenario_A_decoded_log]
                    else Raise (ValueError None))
         (Ok ledgers)
         (Ok 110).

(** Two blocks with events in one range: a [Transfer] in block 5 and a
    [Deposited] event of amount 50 in block 10. *)
Definition transfer_log_block_5 : event :=
  mkEvent "" [] 5 2
          [ "Transfer(address,address,uint256)";
            "0x0000000000000000000000001111111111111111111111111111111111111111";
            "0x0000000000000000000000002222222222222222222222222222222222222222" ]
          "0xtx5".

Definition deposited_raw_log_block_10 : event :=
  mkEvent "" [] 10 0 ["Deposited(address,uint256)"] "0xtx10".

Definition deposited_log_block_10 : event :=
  mkEvent "Deposited" [("sender", AAddr "0xa11ce"); ("amount", AInt 50)]
          10 0 ["Deposited(address,uint256)"] "0xtx10".

Definition two_blocks_provider : Web3 :=
  mkWeb3 (fun text => text)
         (fun _ _ => Ok [transfer_log_block_5; deposited_raw_log_block_10])
         (fun tx => if String.eqb tx "0xtx10" then Ok [deposited_log_block_10]
                    else Ok [])
         (Ok [])
         (Ok 20).

(** The event map [distribute_events] makes of these two logs. *)
Definition two_blocks_events : events_dict :=
  [ ("Deposited", [deposited_log_block_10]); ("Losses", []); ("Redeemed", []);
    ("Rewards", []); ("Transfer", [transfer_log_block_5]) ].

(** Scenario A again, with the contract call for the ledger addresses timing
    out once the block has been folded. *)
Definition fold_timeout_provider : Web3 :=
  mkWeb3 (keccak (scenario_A_provider []))
         (filter_get_all_entries (scenario_A_provider []))
         (get_transaction_receipt (scenario_A_provider []))
         (Raise AsyncioTimeoutError)
         (Ok 110).

(** * Further code of the scanning engine *)

(** A filter as built by [__init__] over the range [0; 20], later found
    uninstalled. *)
Definition uninstalled_filter : ContractEventFilter :=
  mkFilter [] "0xnimbus" 0 20 true (0, 20).

(** A provider whose filter calls all fail with [exc]. *)
Definition provider_raising (exc : exn) : Web3 :=
  provider_answering (fun _ => Raise exc).

(** The kind a topic stands for: the loop of [distribute_events] tests the
    five hashes in this order. *)
Definition kind_of_topic (self : ContractsReader) (topic : string) : option string :=
  if String.eqb topic (deposited_event_hash self) then Some "Deposited"
  else if String.eqb topic (losses_event_hash self) then Some "Losses"
  else if String.eqb topic (redeemed_event_hash self) then Some "Redeemed"
  else if String.eqb topic (rewards_event_hash self) then Some "Rewards"
  else if String.eqb topic (transfer_event_hash self) then Some "Transfer"
  else None.

(** The topic that decides on the log [raw]: the first of its topics that
    stands for a kind, at whatever position. *)
Definition decided_by (self : ContractsReader) (raw : event) (kind : string) : Prop :=
  exists before topic after,
    topics raw = before ++ topic :: after
    /\ Forall (fun t => kind_of_topic self t = None) before
    /\ kind_of_topic self topic = Some kind.

(** What it takes for the log [e] to stand under [kind] in the event map
    made of the logs [events_mixed]: it comes from a raw log on which a
    topic of that kind decides.  A [Transfer] entry is that raw log itself;
    any other entry is, among the logs of that name decoded from the receipt
    of the transaction of the raw log, the one at the position that
    [find_log] gives for the log index of the raw log. *)
Definition classified_from (w3 : Web3) (self : ContractsReader)
    (events_mixed : list event) (kind : string) (e : event) : Prop :=
  exists raw,
    In raw events_mixed
    /\ decided_by self raw kind
    /\ ((kind = "Transfer" /\ e = raw)
        \/ (kind <> "Transfer"
            /\ exists tx_receipt,
                 get_transaction_receipt w3 (transactionHash raw) = Ok tx_receipt
                 /\ nth_error (processReceipt kind tx_receipt)
                              (find_log (processReceipt kind tx_receipt)
                                        (logIndex raw))
                    = Some e)).

(** A provider that hands over one [Transfer] log and knows the receipt of
    no transaction. *)
Definition provider_without_receipts : Web3 :=
  mkWeb3 (fun text => text)
         (fun _ _ => Ok [transfer_log_block_5])
         (fun _ => Raise (ValueError None))
         (Ok [])
         (Ok 20).

(** The distinct elements of a list, each at the place of its first
    occurrence. *)
Fixpoint first_occurrences (l : list Z) : list Z :=
  match l with
  | [] => []
  | x :: l' => x :: List.filter (fun y => negb (y =? x)) (first_occurrences l')
  end.

(** The events of an event map in the order the keys are walked. *)
Definition in_kind_order (events : events_dict) : list event :=
  flat_map snd events.

(** An event map with [Deposited] events only, in blocks 3, 3 and 8. *)
Definition deposits_only : events_dict :=
  [ ("Deposited", [bare_log "Deposited" 3 0; bare_log "Deposited" 3 1;
                   bare_log "Deposited" 8 0]);
    ("Losses", []); ("Redeemed", []); ("Rewards", []); ("Transfer", []) ].

(** The amount a [Deposited] or [Redeemed] log carries, and the total of a
    list of such logs. *)
Definition amount_of (name : string) (e : event) : Z :=
  match arg_int_opt name e with
  | Some n => n
  | None => 0
  end.

Definition total_of (name : string) (l : list event) : Z :=
  fold_right Z.add 0 (map (amount_of name) l).

(** The fields of the exporter that the fold of [Deposited] and [Redeemed]
    events does not write. *)
Definition fields_beside_deposits (s : AggregatedMetricsExporter) :=
  (database_manager s, service_params s, apr s, contracts_reader s,
   holders_number s, last_block_number_with_events s, losses s, rewards s, stop s).

(** A block with two [Deposited] events, the second without an amount. *)
Definition deposit_without_amount : events_dict :=
  [ ("Deposited", [deposited_log_block_10; bare_log "Deposited" 10 1]);
    ("Losses", []); ("Redeemed", []); ("Rewards", []); ("Transfer", []) ].

(** A block with one [Deposited] event of amount 50 and one [Redeemed]
    event of amount 20. *)
Definition deposit_and_redeem : events_dict :=
  [ ("Deposited", [deposited_log_block_10]);
    ("Losses", []);
    ("Redeemed", [mkEvent "Redeemed" [("amount", AInt 20)] 10 1 [] "0xtx11"]);
    ("Rewards", []); ("Transfer", []) ].

(** A provider whose finalised head cannot be read. *)
Definition headless_provider : Web3 :=
  mkWeb3 (fun text => text) (fun _ _ => Ok []) (fun _ => Ok []) (Ok [])
         (Raise NetworkError).

(** A provider whose query for the finalised head is answered by [head]. *)
Definition provider_with_head (head : result Z) : Web3 :=
  mkWeb3 (fun text => text) (fun _ _ => Ok []) (fun _ => Ok []) (Ok []) head.

(** ** Recovery from the datastore *)

(** [database_manager.get_ledger_addresses]: [SELECT DISTINCT ledger FROM
    reward], the ledgers in the order of their first row.  A row whose
    ledger is NULL matches no [WHERE ledger = ..] and is left out. *)
Definition stored_ledgers (db : DatabaseManager) : list string :=
  to_set (flat_map (fun row => match row_ledger row with
                               | Some l => [l]
                               | None => []
                               end) (reward db)).

(** [get_all_rewards_and_losses]: the [reward] column of the rows with
    [reward > 0], and of the rows with [reward < 0]. *)
Definition get_all_rewards_and_losses (db : DatabaseManager) : list Z * list Z :=
  (List.filter (fun r => 0 <? r) (map row_reward (reward db)),
   List.filter (fun r => r <? 0) (map row_reward (reward db))).

(** [sum] of a list of integers. *)
Definition Zsum (l : list Z) : Z := fold_right Z.add 0 l.

(** [restore_from_database]; [initial_block] is
    [service_params.initial_block_num_aggregated_metrics]. *)
Definition restore_from_database (initial_block : Z)
  : M AggregatedMetricsExporter Z :=
  modify (fun s => set_holders_number (get_holders_number (database_manager s)) s) ;;;
  self <- get ;;
  let params := service_params self in
  let db := database_manager self in
  apr <- (fun s =>
            (s, calculate_apr (apr self)
                  (rewards_by_ledger db (database_query_limit params)
                                     (stored_ledgers db))
                  (eras_per_day params) (apr_min params) (apr_max params))) ;;
  modify (set_apr apr) ;;;
  self <- get ;;
  from_block <-
    match aggregated_data (database_manager self) with
    | None =>
        modify (fun s => set_redeemed_events_num 0
                           (set_redeemed 0
                              (set_deposited_events_num 0 (set_deposited 0 s)))) ;;;
        ret initial_block
    | Some (dep, dep_num, red, red_num, last) =>
        modify (fun s => set_last_block_number_with_events last
                           (set_redeemed_events_num red_num
                              (set_redeemed red
                                 (set_deposited_events_num dep_num
                                    (set_deposited dep s))))) ;;;
        ret (last + 1)
    end ;;
  let (stored_rewards, stored_losses) :=
    get_all_rewards_and_losses (database_manager self) in
  modify (fun s => match stored_rewards with
                   | [] => set_rewards 0 s
                   | _ => set_rewards (rewards s + Zsum stored_rewards) s
                   end) ;;;
  modify (fun s => match stored_losses with
                   | [] => set_losses 0 s
                   | _ => set_losses (losses s + Zsum stored_losses) s
                   end) ;;;
  ret from_block.

(** The checkpoint row of the datastore is the one the state stands for. *)
Definition checkpointed (s : AggregatedMetricsExporter) : Prop :=
  aggregated_data (database_manager s)
  = Some (deposited s, deposited_events_num s, redeemed s, redeemed_events_num s,
          last_block_number_with_events s).

(** The four aggregates and the block of the last fold. *)
Definition aggregates (s : AggregatedMetricsExporter) : Z * Z * Z * Z * Z :=
  (deposited s, deposited_events_num s, redeemed s, redeemed_events_num s,
   last_block_number_with_events s).

(** The state is in step with the datastore: the checkpoint row, when there
    is one, is the one the state stands for, and with no row the four
    aggregates are zero. *)
Definition in_step (s : AggregatedMetricsExporter) : Prop :=
  match aggregated_data (database_manager s) with
  | Some row => row = aggregates s
  | None => (deposited s, deposited_events_num s, redeemed s, redeemed_events_num s)
            = (0, 0, 0, 0)
  end.

(** The block recovery resumes at, over the datastore [db]. *)
Definition resume_block (initial_block : Z) (db : DatabaseManager) : Z :=
  match aggregated_data db with
  | Some row => snd row + 1
  | None => initial_block
  end.

(** The state and the datastore after the cycle of Scenario A. *)
Definition scenario_A_after : AggregatedMetricsExporter :=
  fst (get_and_process_aggregated_data (scenario_A_provider []) 100 110
         (AggregatedMetricsExporter_init (scenario_A_provider []) empty_database
                                         default_params)).

(** A chain whose only log is a [Deposited] event of amount 50 in block
    [2^31 + 5], a block number that the column of the checkpoint cannot
    hold. *)
Definition late_block_provider : Web3 :=
  mkWeb3 (fun text => text)
         (fun _ _ => Ok [mkEvent "" [] (2 ^ 31 + 5) 0 ["Deposited(address,uint256)"]
                                 "0xtx1"])
         (fun _ => Ok [mkEvent "Deposited" [("amount", AInt 50)] (2 ^ 31 + 5) 0
                               ["Deposited(address,uint256)"] "0xtx1"])
         (Ok [])
         (Ok (2 ^ 31 + 10)).

(** The exporter of a process started anew on the datastore [db]. *)
Definition restarted_on (db : DatabaseManager) : AggregatedMetricsExporter :=
  AggregatedMetricsExporter_init (scenario_A_provider []) db default_params.

(** ** Rewards and losses *)

(** [event.get('event') == 'Rewards']. *)
Definition is_rewards (e : event) : bool := String.eqb (event_name e) "Rewards".

(** The argument the fold reads from a log: [rewards] for a [Rewards] log,
    [losses] for any other. *)
Definition amount_name (e : event) : string :=
  if is_rewards e then "rewards" else "losses".

(** The signed amount stored for a log: the reward, or minus the loss. *)
Definition signed_amount (e : event) : Z :=
  if is_rewards e then amount_of "rewards" e else - amount_of "losses" e.

(** The entry handed to [add_reward] for a log. *)
Definition entry_of (e : event) : reward_entry :=
  mkRewardEntry (arg_addr_opt "ledger" e) (signed_amount e) (arg_int_opt "balance" e).

(** The fields of the exporter that the fold of [Rewards] and [Losses]
    events does not write. *)
Definition fields_beside_rewards (s : AggregatedMetricsExporter) :=
  (database_manager s, service_params s, apr s, contracts_reader s, deposited s,
   deposited_events_num s, holders_number s, last_block_number_with_events s,
   redeemed s, redeemed_events_num s, stop s).

(** A [Rewards] log and a [Losses] log of the ledger [L1]. *)
Definition rewards_log (amount balance : Z) : event :=
  mkEvent "Rewards"
          [("ledger", AAddr "L1"); ("rewards", AInt amount); ("balance", AInt balance)]
          30 0 ["Rewards(address,uint256,uint256)"] "0xtx30".

Definition losses_log (amount balance : Z) : event :=
  mkEvent "Losses"
          [("ledger", AAddr "L1"); ("losses", AInt amount); ("balance", AInt balance)]
          30 1 ["Losses(address,uint256,uint256)"] "0xtx31".

(** A [Rewards] log fit to be stored: named so, with a positive amount
    that a [BIGINT] holds and a balance that a [uint_256] holds; the
    balance is not the amount, so that the entry has a rate.  Likewise a
    [Losses] log, which is stored with minus its amount. *)
Definition reward_log_ok (e : event) : Prop :=
  event_name e = "Rewards"
  /\ exists r b, arg_int_opt "rewards" e = Some r /\ 0 < r < 2 ^ 63
                 /\ arg_int_opt "balance" e = Some b /\ 0 <= b < 2 ^ 256
                 /\ b <> r.

Definition loss_log_ok (e : event) : Prop :=
  event_name e = "Losses"
  /\ exists l b, arg_int_opt "losses" e = Some l /\ 0 < l <= 2 ^ 63
                 /\ arg_int_opt "balance" e = Some b /\ 0 <= b < 2 ^ 256.

(** The row that [add_reward] stores for an entry in block [block_number]. *)
Definition stored_row (block_number : Z) (r : reward_entry) : reward_row :=
  mkRow (entry_ledger r) (entry_reward r)
        (match entry_balance r with Some b => b | None => 0 end) block_number.

(** The entry has what the columns of [reward] take. *)
Definition entry_fits (r : reward_entry) : Prop :=
  exists b, entry_balance r = Some b
            /\ is_BIGINT (entry_reward r) = true /\ is_uint_256 b = true.

Definition is_decimal (v : number) : bool :=
  match v with
  | PyDecimal _ => true
  | _ => false
  end.

(** The group of a block that holds [Rewards] and [Losses] logs only. *)
Definition rewards_and_losses_group (rs ls : list event) : events_dict :=
  [ ("Deposited", []); ("Losses", ls); ("Redeemed", []); ("Rewards", rs);
    ("Transfer", []) ].

(** The state after the fold of a block with a reward of 10 and a loss of
    5, from the initial state over an empty datastore. *)
Definition after_reward_and_loss : AggregatedMetricsExporter :=
  fst (process_block two_blocks_provider 30
         (rewards_and_losses_group [rewards_log 10 110] [losses_log 5 95])
         (AggregatedMetricsExporter_init two_blocks_provider empty_database
                                         default_params)).

(** ** Holders *)

(** The receiver [_process_transfer_events] reads off a [Transfer] log:
    ['0x'] and what follows the first 26 characters of the third topic. *)
Definition receiver_of (e : event) : option string :=
  match nth_error (topics e) 2 with
  | Some topic => Some (String.append "0x" (string_drop 26 topic))
  | None => None
  end.

(** A group with the [Transfer] log of block 5 twice. *)
Definition two_transfers_to_one_holder : events_dict :=
  [ ("Deposited", []); ("Losses", []); ("Redeemed", []); ("Rewards", []);
    ("Transfer", [transfer_log_block_5; transfer_log_block_5]) ].

(** Two ledgers: the entry of the first has a balance equal to the amount,
    and so no rate; the entry of the second has the rate
    [1 / 7300 * 4 * 365 = 0.2]. *)
Definition ledger_without_and_ledger_with_rate : list (string * list reward_row) :=
  [ ("L1", [mkRow (Some "L1") 100 100 1]); ("L2", [mkRow (Some "L2") 1 7301 1]) ].

(** ** scalar_metrics_exporter._get_era_first_block_number *)

(** What the relay chain node answers to a request: a value, a refusal
    ([SubstrateRequestException]), or any other failure. *)
Inductive relay_answer (A : Type) : Type :=
| Answer (a : A)
| Refused
| Failed (exc : exn).
Arguments Answer {A} a.
Arguments Refused {A}.
Arguments Failed {A} exc.

(** The relay chain as the search reads it: the number of the head block
    ([get_chain_head] then [get_block_number]) and the index of the active
    era at a block ([get_block_hash] then [query('Staking', 'ActiveEra')]). *)
Record RelayChain : Type := mkRelay {
  relay_head : relay_answer Z;
  active_era_at : Z -> relay_answer Z
}.

(** How the search ends: with a block number, with [BlockNotFound] (raised
    from a refusal), with the [AttributeError] of reading the era off [None],
    or with a failure passed on. *)
Inductive search_outcome : Type :=
| Found (block_number : Z)
| BlockNotFound
| AttributeError
| Passed (exc : exn).

(** The loop [while start <= end] with the last probe [(mid, era)], cut
    after [fuel] rounds: [None] stands for a loop cut short. *)
Fixpoint era_search (relay : RelayChain) (era_id : Z) (fuel : nat)
    (start end_ : Z) (probe : option (Z * Z))
  : option (relay_answer (option (Z * Z))) :=
  if start <=? end_ then
    match fuel with
    | O => None
    | S fuel' =>
        let mid := (start + end_) / 2 in
        match active_era_at relay mid with
        | Answer era =>
            if era <? era_id
            then era_search relay era_id fuel' (mid + 1) end_ (Some (mid, era))
            else era_search relay era_id fuel' start (mid - 1) (Some (mid, era))
        | Refused => Some Refused
        | Failed exc => Some (Failed exc)
        end
    end
  else Some (Answer probe).

(** The first block of the window the search looks at. *)
Definition search_start (era_duration_in_blocks current_block_number : Z) : Z :=
  if 0 <? current_block_number - era_duration_in_blocks
  then current_block_number - era_duration_in_blocks
  else 0.

Definition _get_era_first_block_number (relay : RelayChain)
    (era_duration_in_blocks era_id : Z) : option search_outcome :=
  match relay_head relay with
  | Refused => Some BlockNotFound
  | Failed exc => Some (Passed exc)
  | Answer current_block_number =>
      let start := search_start era_duration_in_blocks current_block_number in
      let end_ := current_block_number in
      match era_search relay era_id (Z.to_nat (end_ - start + 1)) start end_ None with
      | None => None
      | Some Refused => Some BlockNotFound
      | Some (Failed exc) => Some (Passed exc)
      | Some (Answer None) => Some AttributeError
      | Some (Answer (Some (mid, era))) =>
          let block_number := if era =? era_id then mid - 1 else mid in
          Some (Found (block_number + 1))
      end
  end.

(** A relay chain of 100 blocks where the era changes every 10 blocks: the
    era of block [b] is [b / 10]. *)
Definition ten_block_eras : RelayChain :=
  mkRelay (Answer 99) (fun b => Answer (b / 10)).

(** * Properties *)

(** ** Window shrinking *)

Lemma decrease_by_bounds (deducted w : Z) :
  0 <= deducted -> 2 <= w -> 1 <= decrease_by deducted w < w.
Proof.
  intros Hd Hw. unfold decrease_by.
  destruct (Z.max (w - deducted) 1 =? w) eqn:E; cbn [andb].
  - apply Z.eqb_eq in E. rewrite E.
    destruct (1 <? w) eqn:E1; [lia | apply Z.ltb_ge in E1; lia].
  - apply Z.eqb_neq in E. lia.
Qed.

Lemma decrease_by_positive (deducted w : Z) : 1 <= decrease_by deducted w.
Proof.
  unfold decrease_by.
  destruct (Z.max (w - deducted) 1 =? w) eqn:E; cbn [andb]; [|lia].
  destruct (1 <? Z.max (w - deducted) 1) eqn:E1; [|lia].
  apply Z.ltb_lt in E1. lia.
Qed.

Lemma int_mul_coefficient_nonneg (w : Z) : 0 <= w -> 0 <= int_mul_coefficient w.
Proof. intros Hw. unfold int_mul_coefficient. apply Z.quot_pos; lia. Qed.

Lemma decrease_range_of_blocks_bounds (w : Z) :
  2 <= w -> 1 <= decrease_range_of_blocks w < w.
Proof.
  intros Hw. apply decrease_by_bounds; [apply int_mul_coefficient_nonneg|]; lia.
Qed.

Lemma decrease_range_of_blocks_positive (w : Z) : 1 <= decrease_range_of_blocks w.
Proof. apply decrease_by_positive. Qed.

Lemma shrink_n_one (n : nat) : shrink_n n 1 = 1.
Proof. induction n as [|n IH]; [reflexivity | exact IH]. Qed.

Lemma shrink_n_add (n m : nat) (w : Z) :
  shrink_n (n + m) w = shrink_n m (shrink_n n w).
Proof.
  revert w. induction n as [|n IH]; intros w; [reflexivity | apply IH].
Qed.

Lemma shrink_n_positive (n : nat) (w : Z) : 1 <= w -> 1 <= shrink_n n w.
Proof.
  revert w. induction n as [|n IH]; intros w Hw; [exact Hw|].
  apply IH, decrease_range_of_blocks_positive.
Qed.

(** Shrinking [w] times is enough to bring a window of [w] blocks to 1. *)
Lemma shrink_n_reaches_one (k : nat) :
  forall w, 1 <= w <= Z.of_nat k + 1 -> shrink_n k w = 1.
Proof.
  induction k as [|k IH]; intros w Hw.
  - cbn. lia.
  - cbn [shrink_n].
    destruct (Z.eq_dec w 1) as [->|Hne].
    + change (decrease_range_of_blocks 1) with 1. apply shrink_n_one.
    + apply IH.
      pose proof (decrease_range_of_blocks_bounds w ltac:(lia)). lia.
Qed.

(** C2.  A window of at least two blocks shrinks to a strictly smaller one
    that is still at least 1, and the shrink of 1 is 1; so from every
    starting window of at least one block the iterated shrink never leaves
    the positive widths, reaches 1 after finitely many steps and stays at 1
    from then on. *)
Theorem decrease_range_of_blocks_converges (w : Z) (Hw : 1 <= w) :
  (2 <= w -> 1 <= decrease_range_of_blocks w < w)
  /\ decrease_range_of_blocks 1 = 1
  /\ (forall n, 1 <= shrink_n n w)
  /\ exists n, forall m, (n <= m)%nat -> shrink_n m w = 1.
Proof.
  split; [apply decrease_range_of_blocks_bounds|].
  split; [reflexivity|].
  split; [intros n; apply shrink_n_positive; exact Hw|].
  exists (Z.to_nat w). intros m Hm.
  replace m with (Z.to_nat w + (m - Z.to_nat w))%nat by lia.
  rewrite shrink_n_add, (shrink_n_reaches_one (Z.to_nat w) w) by lia.
  apply shrink_n_one.
Qed.

Lemma decrease_range_of_blocks_converges_witness :
  1 <= decrease_range_of_blocks 1000 < 1000
  /\ decrease_range_of_blocks 1000 = 900
  /\ exists n, forall m, (n <= m)%nat -> shrink_n m 1000 = 1.
Proof.
  destruct (decrease_range_of_blocks_converges 1000 ltac:(lia)) as (H1 & _ & _ & H4).
  split; [apply H1; lia|]. split; [reflexivity | exact H4].
Defined.

(** ** Rounded arithmetic *)

Lemma digits_from_spec (radix : Z) (Hr : 2 <= radix) (fuel : nat) :
  forall n, 0 < n -> Z.log2 n <= Z.of_nat fuel ->
    1 <= digits_from fuel radix n
    /\ radix ^ (digits_from fuel radix n - 1) <= n < radix ^ digits_from fuel radix n.
Proof.
  induction fuel as [|fuel IH]; intros n Hn Hlog.
  - cbn [digits_from]. change (radix ^ (1 - 1)) with 1. rewrite Z.pow_1_r.
    assert (n = 1).
    { destruct (Z.eq_dec n 1) as [|Hne]; [assumption|].
      pose proof (Z.log2_pos n ltac:(lia)). lia. }
    lia.
  - cbn [digits_from]. destruct (n <? radix) eqn:E.
    + apply Z.ltb_lt in E. change (radix ^ (1 - 1)) with 1. rewrite Z.pow_1_r. lia.
    + apply Z.ltb_ge in E.
      assert (Hq : 0 < n / radix) by (apply Z.div_str_pos; lia).
      assert (Hlog' : Z.log2 (n / radix) <= Z.of_nat fuel).
      { assert (n / radix <= n / 2).
        { apply Z.div_le_compat_l; lia. }
        pose proof (Z.log2_le_mono (n / radix) (n / 2) H) as H0.
        assert (H2 : 2 * (n / 2) <= n).
        { pose proof (Z.div_mod n 2 ltac:(lia)).
          pose proof (Z.mod_pos_bound n 2 ltac:(lia)). lia. }
        apply Z.log2_le_mono in H2.
        rewrite Z.log2_double in H2 by lia. lia. }
      destruct (IH (n / radix) Hq Hlog') as (H1 & Hlo & Hhi).
      set (k := digits_from fuel radix (n / radix)) in *.
      split; [lia|].
      replace (1 + k - 1) with (Z.succ (k - 1)) by lia.
      replace (1 + k) with (Z.succ k) by lia.
      rewrite !Z.pow_succ_r by lia.
      pose proof (Z.div_mod n radix ltac:(lia)).
      pose proof (Z.mod_pos_bound n radix ltac:(lia)).
      split; nia.
Qed.

Lemma digits_spec (radix n : Z) :
  2 <= radix -> 0 < n ->
  1 <= digits radix n /\ radix ^ (digits radix n - 1) <= n < radix ^ digits radix n.
Proof.
  intros Hr Hn. apply digits_from_spec; [assumption..|].
  rewrite Z2Nat.id by apply Z.log2_nonneg. lia.
Qed.

Lemma Qdiv_le_cross (A B n d : Z) :
  0 < B -> 0 < d -> A * d <= n * B ->
  (inject_Z A / inject_Z B <= inject_Z n / inject_Z d)%Q.
Proof.
  intros HB Hd H.
  assert (HBq : (0 < inject_Z B)%Q) by (rewrite (Zlt_Qlt 0 B) in HB; exact HB).
  assert (Hdq : (0 < inject_Z d)%Q) by (rewrite (Zlt_Qlt 0 d) in Hd; exact Hd).
  apply Qle_shift_div_r; [exact HBq|].
  setoid_replace (inject_Z n / inject_Z d * inject_Z B)%Q
    with (inject_Z n * inject_Z B / inject_Z d)%Q
    by (field; intros E; rewrite E in Hdq; apply (Qlt_irrefl 0 Hdq)).
  apply Qle_shift_div_l; [exact Hdq|].
  rewrite <- !inject_Z_mult, <- Zle_Qle. exact H.
Qed.

Lemma Qdiv_lt_cross (A B n d : Z) :
  0 < B -> 0 < d -> n * B < A * d ->
  (inject_Z n / inject_Z d < inject_Z A / inject_Z B)%Q.
Proof.
  intros HB Hd H.
  assert (HBq : (0 < inject_Z B)%Q) by (rewrite (Zlt_Qlt 0 B) in HB; exact HB).
  assert (Hdq : (0 < inject_Z d)%Q) by (rewrite (Zlt_Qlt 0 d) in Hd; exact Hd).
  apply Qlt_shift_div_l; [exact HBq|].
  setoid_replace (inject_Z n / inject_Z d * inject_Z B)%Q
    with (inject_Z n * inject_Z B / inject_Z d)%Q
    by (field; intros E; rewrite E in Hdq; apply (Qlt_irrefl 0 Hdq)).
  apply Qlt_shift_div_r; [exact Hdq|].
  rewrite <- !inject_Z_mult, <- Zlt_Qlt. exact H.
Qed.

Lemma power_pos (radix k : Z) : 0 < radix -> (0 < power radix k)%Q.
Proof.
  intros H. apply Qpower_0_lt. rewrite (Zlt_Qlt 0 radix) in H. exact H.
Qed.

Lemma power_nonneg_exponent (radix k : Z) :
  0 <= k -> (power radix k == inject_Z (radix ^ k))%Q.
Proof. intros H. unfold power. symmetry. apply Zpower_Qpower, H. Qed.

Lemma power_add (radix a b : Z) :
  0 < radix -> (power radix (a + b) == power radix a * power radix b)%Q.
Proof.
  intros H. apply Qpower_plus. intros E.
  rewrite (Zlt_Qlt 0 radix), E in H. apply (Qlt_irrefl 0 H).
Qed.

Lemma power_sub (radix a b : Z) :
  0 < radix -> (power radix (a - b) == power radix a / power radix b)%Q.
Proof.
  intros H. apply Qpower_minus. intros E.
  rewrite (Zlt_Qlt 0 radix), E in H. apply (Qlt_irrefl 0 H).
Qed.

Lemma Qabs_make (q : Q) : Qabs q = Z.abs (Qnum q) # Qden q.
Proof. destruct q. reflexivity. Qed.

(** [magnitude] is the exponent of the leading digit. *)
Lemma magnitude_spec (radix : Z) (q : Q) :
  2 <= radix -> ~ (q == 0)%Q ->
  (power radix (magnitude radix q) <= Qabs q < power radix (magnitude radix q + 1))%Q.
Proof.
  intros Hr Hq. rewrite Qabs_make. unfold magnitude.
  set (n := Z.abs (Qnum q)). set (d := Z.pos (Qden q)).
  assert (Hn : 0 < n).
  { unfold n. assert (Qnum q <> 0); [|lia].
    intros E. apply Hq. unfold Qeq. rewrite E. reflexivity. }
  assert (Hd : 0 < d) by (unfold d; lia).
  destruct (digits_spec radix n Hr Hn) as (Ha1 & Hna & Hna').
  destruct (digits_spec radix d Hr Hd) as (Hb1 & Hdb & Hdb').
  set (a := digits radix n) in *. set (b := digits radix d) in *.
  assert (Hnd : (n # Qden q == inject_Z n / inject_Z d)%Q) by apply Qmake_Qdiv.
  assert (HA : 0 < radix ^ (a - 1)) by (apply Z.pow_pos_nonneg; lia).
  assert (HB : 0 < radix ^ (b - 1)) by (apply Z.pow_pos_nonneg; lia).
  assert (HA' : 0 < radix ^ a) by (apply Z.pow_pos_nonneg; lia).
  assert (HB' : 0 < radix ^ b) by (apply Z.pow_pos_nonneg; lia).
  destruct (Qle_bool (power radix (a - b)) (n # Qden q)) eqn:E.
  - apply Qle_bool_iff in E. split; [exact E|].
    rewrite Hnd.
    replace (a - b + 1) with (a - (b - 1)) by lia.
    rewrite power_sub, !power_nonneg_exponent by lia.
    apply Qdiv_lt_cross; [lia..|]. nia.
  - split.
    + rewrite Hnd.
      replace (a - b - 1) with (a - 1 - b) by lia.
      rewrite power_sub, !power_nonneg_exponent by lia.
      apply Qdiv_le_cross; [lia..|]. nia.
    + replace (a - b - 1 + 1) with (a - b) by lia.
      apply Qnot_le_lt. intros H. apply Qle_bool_iff in H. congruence.
Qed.

(** Rounding to the nearest integer moves by a half at most, and leaves an
    integer where it is. *)
Lemma round_half_even_error (x : Q) :
  (Qabs (inject_Z (round_half_even x) - x) <= 1 # 2)%Q.
Proof.
  destruct x as [n d]. unfold round_half_even. cbn [Qnum Qden].
  pose proof (Z.div_mod n (Z.pos d) ltac:(lia)) as Hdm.
  pose proof (Z.mod_pos_bound n (Z.pos d) ltac:(lia)) as Hm.
  set (f := n / Z.pos d) in *. set (r := n mod Z.pos d) in *.
  apply Qabs_Qle_condition.
  assert (Hcase : forall m, - Z.pos d <= 2 * (m * Z.pos d - n) <= Z.pos d ->
                  (- (1 # 2) <= inject_Z m - (n # d) <= 1 # 2)%Q).
  { intros m Hmm. unfold Qle, Qminus, Qplus, Qopp, inject_Z. cbn.
    rewrite ?Z.mul_1_r, ?Pos2Z.inj_mul. split; nia. }
  destruct (2 * r <? Z.pos d) eqn:E1; [apply Z.ltb_lt in E1; apply Hcase; lia|].
  apply Z.ltb_ge in E1.
  destruct (Z.pos d <? 2 * r) eqn:E2; [apply Z.ltb_lt in E2; apply Hcase; lia|].
  apply Z.ltb_ge in E2.
  destruct (Z.even f); apply Hcase; lia.
Qed.

Lemma round_half_even_integer (x : Q) (m : Z) :
  (x == inject_Z m)%Q -> round_half_even x = m.
Proof.
  destruct x as [n d]. unfold Qeq, inject_Z, round_half_even. cbn [Qnum Qden].
  intros H. assert (Hn : n = m * Z.pos d) by lia. subst n.
  rewrite Z.div_mul, Z.mod_mul by lia.
  destruct (2 * 0 <? Z.pos d) eqn:E; [reflexivity|]. apply Z.ltb_ge in E. lia.
Qed.

Lemma round_half_even_nonzero (x : Q) :
  (1 <= Qabs x)%Q -> round_half_even x <> 0.
Proof.
  destruct x as [n d]. rewrite Qabs_make. unfold round_half_even. cbn [Qnum Qden].
  intros H. unfold Qle in H. cbn in H.
  pose proof (Z.div_mod n (Z.pos d) ltac:(lia)) as Hdm.
  pose proof (Z.mod_pos_bound n (Z.pos d) ltac:(lia)) as Hm.
  set (f := n / Z.pos d) in *. set (r := n mod Z.pos d) in *.
  assert (Hf : 1 <= f \/ f <= -2 \/ (f = -1 /\ r = 0)) by nia.
  destruct (2 * r <? Z.pos d) eqn:E1.
  - apply Z.ltb_lt in E1. lia.
  - apply Z.ltb_ge in E1.
    destruct (Z.pos d <? 2 * r), (Z.even f); lia.
Qed.

(** Rounding to significant digits never rounds to zero. *)
Lemma round_to_nonzero (radix precision : Z) (q : Q) :
  2 <= radix -> 1 <= precision -> ~ (q == 0)%Q -> ~ (round_to radix precision q == 0)%Q.
Proof.
  intros Hr Hp Hq. unfold round_to.
  destruct (Qnum q =? 0) eqn:E.
  { apply Z.eqb_eq in E. exfalso. apply Hq. unfold Qeq. rewrite E. reflexivity. }
  set (l := magnitude radix q).
  rewrite Qred_correct. intros H.
  apply Qmult_integral in H. destruct H as [H|H].
  - revert H. change 0%Q with (inject_Z 0). rewrite inject_Z_injective.
    apply round_half_even_nonzero.
    rewrite Qabs_Qmult.
    rewrite (Qabs_pos (power radix _)) by (apply Qlt_le_weak, power_pos; lia).
    destruct (magnitude_spec radix q Hr Hq) as [Hlo _]. fold l in Hlo.
    apply Qle_trans with (power radix l * power radix (- (l - precision + 1)))%Q.
    + rewrite <- power_add by lia.
      replace (l + - (l - precision + 1)) with (precision - 1) by lia.
      rewrite power_nonneg_exponent by lia.
      change 1%Q with (inject_Z 1). rewrite <- Zle_Qle.
      assert (0 < radix ^ (precision - 1)) by (apply Z.pow_pos_nonneg; lia). lia.
    + apply Qmult_le_compat_r; [exact Hlo|].
      apply Qlt_le_weak, power_pos. lia.
  - pose proof (power_pos radix (l - precision + 1) ltac:(lia)) as Hpos.
    rewrite H in Hpos. apply (Qlt_irrefl 0 Hpos).
Qed.

(** ** Locating a decoded log *)

Lemma find_log_from_spec (logs : list event) (log_index : Z) :
  forall index,
    match find_log_from index logs log_index with
    | Some i =>
        (index <= i)%nat
        /\ (exists log, nth_error logs (i - index) = Some log
                        /\ logIndex log = log_index)
        /\ (forall j log, (j < i - index)%nat -> nth_error logs j = Some log ->
                          logIndex log <> log_index)
    | None => forall log, In log logs -> logIndex log <> log_index
    end.
Proof.
  induction logs as [|log logs IH]; intros index; cbn [find_log_from].
  - intros log [].
  - destruct (log_index =? logIndex log) eqn:E.
    + apply Z.eqb_eq in E. split; [lia|]. rewrite Nat.sub_diag. split.
      * exists log. split; [reflexivity | congruence].
      * intros j l Hj. lia.
    + apply Z.eqb_neq in E. specialize (IH (S index)).
      destruct (find_log_from (S index) logs log_index) as [i|].
      * destruct IH as (Hle & (l & Hnth & Hl) & Hfirst).
        split; [lia|].
        replace (i - index)%nat with (S (i - S index)) by lia.
        split; [exists l; split; assumption|].
        intros [|j] l' Hj Hnth'; cbn in Hnth'.
        -- injection Hnth' as <-. congruence.
        -- apply (Hfirst j); [lia | assumption].
      * intros l [<-|Hin]; [congruence | apply IH, Hin].
Qed.

(** C10.  When some decoded log carries the wanted [logIndex], [find_log]
    returns the position of the first such log; when none does it returns 0;
    hence on a non-empty tuple the position returned always holds a log. *)
Theorem find_log_first_match_or_zero (logs : list event) (log_index : Z) :
  ((exists log, In log logs /\ logIndex log = log_index) ->
     (exists log, nth_error logs (find_log logs log_index) = Some log
                  /\ logIndex log = log_index)
     /\ forall j log, (j < find_log logs log_index)%nat ->
                      nth_error logs j = Some log -> logIndex log <> log_index)
  /\ ((forall log, In log logs -> logIndex log <> log_index) ->
        find_log logs log_index = 0%nat)
  /\ (logs <> [] ->
        exists log, nth_error logs (find_log logs log_index) = Some log).
Proof.
  pose proof (find_log_from_spec logs log_index 0) as H.
  unfold find_log.
  destruct (find_log_from 0 logs log_index) as [i|].
  - destruct H as (_ & (l & Hnth & Hl) & Hfirst).
    rewrite Nat.sub_0_r in Hnth, Hfirst.
    split; [intros _; split; [exists l; split; assumption | exact Hfirst]|].
    split.
    + intros Hnone. exfalso. apply (Hnone l); [|exact Hl].
      eapply nth_error_In, Hnth.
    + intros _. exists l. exact Hnth.
  - split.
    + intros (l & Hin & Hl). exfalso. exact (H l Hin Hl).
    + split; [reflexivity|].
      intros Hne. destruct logs as [|l logs]; [congruence|].
      exists l. reflexivity.
Qed.

Lemma find_log_first_match_or_zero_witness :
  (exists log, nth_error three_logs (find_log three_logs 5) = Some log
               /\ logIndex log = 5)
  /\ find_log three_logs 5 = 1%nat
  /\ find_log three_logs 9 = 0%nat
  /\ exists log, nth_error three_logs (find_log three_logs 9) = Some log.
Proof.
  destruct (find_log_first_match_or_zero three_logs 5) as (Hfirst & _ & _).
  destruct (find_log_first_match_or_zero three_logs 9) as (_ & Hnone & Hsome).
  split.
  - apply Hfirst. exists (bare_log "Deposited" 7 5).
    split; [right; left; reflexivity | reflexivity].
  - split; [reflexivity|]. split.
    + apply Hnone. intros log [<-|[<-|[<-|[]]]]; cbn; lia.
    + apply Hsome. discriminate.
Defined.

(** ** The stable sort *)

Section SortedByFacts.
Context {A : Type} (key : A -> Z).

Lemma insert_by_perm (x : A) (l : list A) :
  Permutation (x :: l) (insert_by key x l).
Proof.
  induction l as [|y l IH]; cbn; [reflexivity|].
  destruct (key x <=? key y); [reflexivity|].
  rewrite perm_swap. apply perm_skip, IH.
Qed.

Lemma sorted_perm (l : list A) : Permutation l (sorted key l).
Proof.
  induction l as [|x l IH]; cbn; [reflexivity|].
  rewrite <- insert_by_perm. apply perm_skip, IH.
Qed.

Lemma insert_by_sorted (x : A) (l : list A) :
  StronglySorted (key_le key) l -> StronglySorted (key_le key) (insert_by key x l).
Proof.
  induction 1 as [|y l Hl IH Hy]; cbn.
  - constructor; constructor.
  - destruct (key x <=? key y) eqn:E.
    + apply Z.leb_le in E. constructor; [constructor; assumption|].
      constructor; [exact E|].
      eapply Forall_impl; [|exact Hy]. unfold key_le. intros a Ha. lia.
    + apply Z.leb_gt in E. constructor; [exact IH|].
      eapply Permutation_Forall; [apply insert_by_perm|].
      constructor; [unfold key_le; lia | exact Hy].
Qed.

Lemma sorted_sorted (l : list A) : StronglySorted (key_le key) (sorted key l).
Proof.
  induction l as [|x l IH]; cbn; [constructor | apply insert_by_sorted, IH].
Qed.

(** Stability: the elements of any one key come out in the order they
    came in. *)
Lemma insert_by_stable (k : Z) (x : A) (l : list A) :
  List.filter (fun a => key a =? k) (insert_by key x l)
  = List.filter (fun a => key a =? k) (x :: l).
Proof.
  induction l as [|y l IH]; [reflexivity|].
  cbn [insert_by]. destruct (key x <=? key y) eqn:E; [reflexivity|].
  apply Z.leb_gt in E. cbn [List.filter] in *. rewrite IH.
  destruct (key x =? k) eqn:Ex, (key y =? k) eqn:Ey; try reflexivity.
  apply Z.eqb_eq in Ex, Ey. lia.
Qed.

Lemma sorted_stable (k : Z) (l : list A) :
  List.filter (fun a => key a =? k) (sorted key l)
  = List.filter (fun a => key a =? k) l.
Proof.
  induction l as [|x l IH]; [reflexivity|].
  cbn [sorted]. rewrite insert_by_stable. cbn [List.filter]. rewrite IH.
  reflexivity.
Qed.

Lemma sorted_nil_inv (l : list A) : sorted key l = [] -> l = [].
Proof.
  intros H. apply Permutation_nil. rewrite <- H. symmetry. apply sorted_perm.
Qed.

(** In a sorted list the last element carries the greatest key. *)
Lemma strongly_sorted_last (l : list A) (a : A) :
  StronglySorted (key_le key) (l ++ [a]) -> Forall (fun e => key e <= key a) (l ++ [a]).
Proof.
  induction l as [|x l IH]; cbn; intros H.
  - constructor; [lia | constructor].
  - apply StronglySorted_inv in H as [Hl Hx]. constructor; [|apply IH, Hl].
    rewrite Forall_forall in Hx. apply (Hx a), in_or_app. right. left. reflexivity.
Qed.
End SortedByFacts.

(** ** The event filter *)

Lemma fetch_entries_ok (w3 : Web3) (self self' : ContractEventFilter)
    (entries : list event) :
  fetch_entries w3 2 0 self = (self', Ok entries) ->
  entries <> [] ->
  (filter_get_all_entries w3 (filter self) 0 = Ok entries
   \/ exists exc,
        filter_get_all_entries w3 (filter self) 0 = Raise exc
        /\ caught_by_get_all_entries exc = true
        /\ is_range_too_large exc = false
        /\ filter_get_all_entries w3 (from_block self, to_block self) 1 = Ok entries)
  /\ from_block self' = from_block self
  /\ to_block self' = to_block self.
Proof.
  unfold fetch_entries, range_too_large_test, bind, get, modify, ret, raise.
  destruct (filter_get_all_entries w3 (filter self) 0) as [l0|e0] eqn:E0.
  - intros [= <- <-] _. auto.
  - destruct (caught_by_get_all_entries e0) eqn:Ec; [|discriminate].
    destruct (range_too_large_test_fails e0); [discriminate|].
    destruct (is_range_too_large e0) eqn:Es; [discriminate|].
    cbn [_init_filter filter from_block to_block].
    destruct (filter_get_all_entries w3 (from_block self, to_block self) 1)
      as [l1|e1] eqn:E1.
    + intros [= <- <-] _. split; [right; exists e0; auto | auto].
    + destruct (caught_by_get_all_entries e1); [|discriminate].
      destruct (range_too_large_test_fails e1); [discriminate|].
      destruct (is_range_too_large e1); [discriminate|].
      intros [= _ <-] Hne. congruence.
Qed.

(** C8.  A fetch that returns a non-empty list returns what the provider
    handed over, sorted by ascending block number with the entries of one
    block left in provider order, and leaves [from_block] at the greatest
    block number returned plus one. *)
Theorem get_all_entries_sorted_and_advanced (w3 : Web3)
    (self self' : ContractEventFilter) (sorted_events : list event) :
  get_all_entries w3 self = (self', Ok sorted_events) ->
  sorted_events <> [] ->
  exists entries,
    provider_returned w3 self entries
    /\ Permutation entries sorted_events
    /\ StronglySorted (key_le blockNumber) sorted_events
    /\ (forall b, List.filter (fun e => blockNumber e =? b) sorted_events
                  = List.filter (fun e => blockNumber e =? b) entries)
    /\ (exists e, In e sorted_events /\ from_block self' = blockNumber e + 1)
    /\ (forall e, In e sorted_events -> blockNumber e + 1 <= from_block self').
Proof.
  unfold get_all_entries, provider_returned.
  unfold bind at 1. unfold get at 1. unfold bind at 1.
  set (installed := if uninstalled self then _init_filter self else self).
  assert (Hinst : (if uninstalled self then modify _init_filter else ret tt) self
                  = (installed, Ok tt)).
  { unfold installed, modify, ret. destruct (uninstalled self); reflexivity. }
  rewrite Hinst. unfold bind at 1.
  destruct (fetch_entries w3 2 0 installed) as [s1 [entries|e]] eqn:Ef;
    [|discriminate].
  unfold bind, modify, ret.
  destruct (rev (sorted blockNumber entries)) as [|last_event r] eqn:Er.
  { intros [= _ <-] Hne. exfalso. apply Hne.
    rewrite <- (rev_involutive (sorted blockNumber entries)), Er. reflexivity. }
  intros [= <- <-] Hne.
  assert (Hent : entries <> []).
  { intros ->. apply Hne. reflexivity. }
  destruct (fetch_entries_ok _ _ _ _ Ef Hent) as (Hprov & Hfrom & Hto).
  assert (Hl : sorted blockNumber entries = rev r ++ [last_event]).
  { rewrite <- (rev_involutive (sorted blockNumber entries)), Er. reflexivity. }
  assert (Hfrom' : from_block (advance_past last_event (uninstall s1))
                   = blockNumber last_event + 1).
  { unfold advance_past. cbn.
    destruct (to_block s1 <? blockNumber last_event + 1); reflexivity. }
  exists entries. split.
  { replace (if uninstalled self then (from_block self, to_block self) else filter self)
      with (filter installed)
      by (unfold installed; destruct (uninstalled self); reflexivity).
    replace (from_block self) with (from_block installed)
      by (unfold installed; destruct (uninstalled self); reflexivity).
    replace (to_block self) with (to_block installed)
      by (unfold installed; destruct (uninstalled self); reflexivity).
    exact Hprov. }
  split; [apply sorted_perm|].
  split; [apply sorted_sorted|].
  split; [intros b; apply sorted_stable|].
  rewrite Hfrom'. split.
  - exists last_event. split; [|reflexivity].
    rewrite Hl. apply in_or_app. right. left. reflexivity.
  - intros e He.
    pose proof (sorted_sorted blockNumber entries) as Hs. rewrite Hl in Hs, He.
    apply strongly_sorted_last in Hs. rewrite Forall_forall in Hs.
    specialize (Hs e He). lia.
Qed.

Lemma get_all_entries_sorted_and_advanced_witness :
  let self := fresh_filter 0 20 in
  let w3 := provider_answering (fun _ => Ok unsorted_entries) in
  let self' := fst (get_all_entries w3 self) in
  let sorted_events := [ bare_log "" 5 0; bare_log "" 7 1; bare_log "" 7 0 ] in
  from_block self' = 8
  /\ exists entries,
       provider_returned w3 self entries
       /\ Permutation entries sorted_events
       /\ StronglySorted (key_le blockNumber) sorted_events
       /\ (forall b, List.filter (fun e => blockNumber e =? b) sorted_events
                     = List.filter (fun e => blockNumber e =? b) entries)
       /\ (exists e, In e sorted_events /\ from_block self' = blockNumber e + 1)
       /\ (forall e, In e sorted_events -> blockNumber e + 1 <= from_block self').
Proof.
  intros self w3 self' sorted_events. split; [reflexivity|].
  apply (get_all_entries_sorted_and_advanced w3 self self' sorted_events).
  - reflexivity.
  - discriminate.
Defined.

(** ** APR *)

Lemma Qlt_bool_iff (x y : Q) : Qlt_bool x y = true <-> (x < y)%Q.
Proof.
  unfold Qlt_bool. rewrite negb_true_iff, <- not_true_iff_false, Qle_bool_iff.
  split; [apply Qnot_le_lt | apply Qlt_not_le].
Qed.

Lemma ledger_apr_filter (eras : Z) (mn mx : Q) (rows : list reward_row) :
  ledger_apr eras mn mx rows
  = List.filter (fun r => negb (Qlt_bool (number_value r) mn
                                || Qlt_bool mx (number_value r)))
                (map (_apr eras) rows).
Proof.
  induction rows as [|row rows IH]; [reflexivity|].
  cbn [ledger_apr map List.filter]. rewrite IH.
  destruct (Qlt_bool (number_value (_apr eras row)) mn
            || Qlt_bool mx (number_value (_apr eras row)));
    reflexivity.
Qed.

Lemma ledger_apr_in (eras : Z) (mn mx : Q) (rows : list reward_row) (r : number) :
  In r (ledger_apr eras mn mx rows)
  <-> exists row, In row rows /\ _apr eras row = r
                  /\ ~ (number_value r < mn)%Q /\ ~ (mx < number_value r)%Q.
Proof.
  rewrite ledger_apr_filter, filter_In, in_map_iff, negb_true_iff, orb_false_iff.
  rewrite <- !not_true_iff_false, !Qlt_bool_iff.
  split.
  - intros ((row & Hrow & Hin) & Hmn & Hmx). exists row. auto.
  - intros (row & Hin & Hrow & Hmn & Hmx). split; [exists row|]; auto.
Qed.


(** The rounded difference is zero when the difference is, and only then. *)
Lemma denominator_zero (row : reward_row) :
  (Qeq_bool (denominator row) 0 = true) <-> (row_balance row - row_reward row = 0).
Proof.
  unfold denominator, decimal.
  set (q := (inject_Z (row_balance row) - inject_Z (row_reward row))%Q).
  assert (Hq : (Qeq q 0) <-> (row_balance row - row_reward row = 0)).
  { unfold q, Qeq, Qminus, Qplus, Qopp, inject_Z. cbn [Qnum Qden].
    rewrite !Z.mul_1_r. lia. }
  rewrite Qeq_bool_iff. split.
  - intros H. apply Hq.
    destruct (Qeq_dec q 0) as [E|E]; [exact E|].
    exfalso. apply (round_to_nonzero 10 28 q); [lia | lia | exact E | exact H].
  - intros H. apply Hq in H. unfold round_to.
    assert (E : Qnum q =? 0 = true).
    { apply Z.eqb_eq. unfold Qeq in H. cbn [Qnum Qden] in H. lia. }
    rewrite E. reflexivity.
Qed.



(** An entry whose exact rate is [apr_max] can be left out: for the amount
    3 and the balance 1463, one era a day, the quotient [3 / 1460] is
    rounded up in its 28th digit, and the rate computed is
    [0.7500000000000000000000000001], above an [apr_max] of [0.75]. *)
Lemma rate_rounded_above_apr_max :
  (inject_Z 3 / inject_Z (1463 - 3) * inject_Z 1 * inject_Z 365 == 3 # 4)%Q
  /\ entry_apr 1 (mkRow (Some "L1") 3 1463 1)
     = (7500000000000000000000000001 # 10000000000000000000000000000)%Q
  /\ ledger_apr 1 0 (3 # 4) [mkRow (Some "L1") 3 1463 1] = [].
Proof. repeat split; vm_compute; reflexivity. Qed.

(** C6.  Scenario D: with [eras_per_day = 4], [apr_min = 0] and
    [apr_max = 1], the entry [(amount=10, balance=110)] has the rate 146,
    above [apr_max], and the entry [(amount=-5, balance=95)] has the rate
    -73, below [apr_min]; both are left out and [calculate_apr] returns the
    APR value it was given. *)
Theorem calculate_apr_scenario_D (total_apr : Q) :
  (entry_apr 4 scenario_D_entry_1 == 146)%Q
  /\ (1 < entry_apr 4 scenario_D_entry_1)%Q
  /\ (entry_apr 4 scenario_D_entry_2 == -73)%Q
  /\ (entry_apr 4 scenario_D_entry_2 < 0)%Q
  /\ ledger_apr 4 0 1 [scenario_D_entry_1; scenario_D_entry_2] = []
  /\ calculate_apr total_apr scenario_D_rewards 4 0 1 = Ok total_apr.
Proof.
  repeat split; vm_compute; reflexivity.
Qed.

(** C9.  The constructor refuses a range with [from_block > to_block];
    [update_filter_range] makes no such test: whatever the two bounds, it
    returns normally and the filter holds them, as in the range [10; 5]
    set on a filter built over [0; 1]. *)
Theorem update_filter_range_unchecked (w3 : Web3) (address : string)
    (events_to_find : list string) :
  ContractEventFilter_init w3 address 10 5 events_to_find
  = Raise (AssertionError "the 'from_block' is greater than the 'to_block'")
  /\ (forall (from to : Z) (self : ContractEventFilter),
        let out := update_filter_range from to self in
        snd out = Ok tt /\ from_block (fst out) = from /\ to_block (fst out) = to
        /\ filter (fst out) = (from, to))
  /\ exists self,
       ContractEventFilter_init w3 address 0 1 events_to_find = Ok self
       /\ snd (update_filter_range 10 5 self) = Ok tt
       /\ from_block (fst (update_filter_range 10 5 self)) = 10
       /\ to_block (fst (update_filter_range 10 5 self)) = 5.
Proof.
  split; [reflexivity|]. split.
  - intros from to self. unfold update_filter_range, bind, get, modify, ret.
    destruct (uninstalled self); cbn; auto.
  - eexists. split; [reflexivity|]. cbn. auto.
Qed.

(** ** The scan cycle *)

Lemma update_filter_range_installs (from to : Z) (f : ContractEventFilter) :
  let f' := fst (update_filter_range from to f) in
  from_block f' = from /\ to_block f' = to /\ uninstalled f' = false
  /\ filter f' = (from, to).
Proof.
  unfold update_filter_range, bind, get, modify, ret.
  destruct (uninstalled f); cbn; auto.
Qed.

(** Two refusals in a row that are caught and are not the signal leave
    [entries] empty. *)
Lemma get_all_entries_stale_twice (w3 : Web3) (f : ContractEventFilter)
    (m0 m1 : option string) :
  uninstalled f = false ->
  filter f = (from_block f, to_block f) ->
  filter_get_all_entries w3 (from_block f, to_block f) 0 = Raise (ValueError m0) ->
  is_range_too_large (ValueError m0) = false ->
  filter_get_all_entries w3 (from_block f, to_block f) 1 = Raise (ValueError m1) ->
  is_range_too_large (ValueError m1) = false ->
  get_all_entries w3 f = (uninstall (_init_filter (_init_filter f)), Ok []).
Proof.
  intros Hu Hf H0 Hs0 H1 Hs1.
  unfold get_all_entries, bind, get. rewrite Hu. unfold ret at 1.
  unfold fetch_entries, range_too_large_test, bind, get, modify, ret, raise.
  rewrite Hf, H0. cbn [caught_by_get_all_entries range_too_large_test_fails].
  rewrite Hs0.
  cbn [_init_filter filter from_block to_block]. rewrite H1.
  cbn [caught_by_get_all_entries range_too_large_test_fails]. rewrite Hs1.
  reflexivity.
Qed.

Lemma get_and_process_fetch_raises (w3 : Web3) (from to : Z)
    (self : AggregatedMetricsExporter) (reader' : ContractsReader) (exc : exn) :
  get_nimbus_events w3 (nimbus_address (service_params self)) from to
                    (contracts_reader self) = (reader', Raise exc) ->
  get_and_process_aggregated_data w3 from to self
  = (set_contracts_reader reader' self, Raise exc).
Proof.
  intros H. unfold get_and_process_aggregated_data, bind, get, zoom.
  rewrite H. reflexivity.
Qed.

Lemma get_and_process_no_events (w3 : Web3) (from to : Z)
    (self : AggregatedMetricsExporter) (reader' : ContractsReader) :
  get_nimbus_events w3 (nimbus_address (service_params self)) from to
                    (contracts_reader self) = (reader', Ok []) ->
  get_and_process_aggregated_data w3 from to self
  = (set_database_manager
       (update_api_table (apr self) (rewards self) (losses self)
                         (database_manager self))
       (set_contracts_reader reader' self),
     Ok (to + 1)).
Proof.
  intros H. unfold get_and_process_aggregated_data, bind, get, zoom.
  rewrite H. reflexivity.
Qed.

Lemma range_too_large_not_expected (exc : exn) :
  is_range_too_large exc = true ->
  is_expected_network_exception exc = false /\ exc <> SystemExit.
Proof. destruct exc; cbn; intros H; split; congruence. Qed.

(** C3.  When the fetch of a cycle raises the range-too-large signal (the
    too-many-results error or a timeout), the cycle returns the [from_block]
    it was entered with and the window shrunk by [decrease_range_of_blocks];
    no aggregate and no table of the datastore is changed. *)
Theorem run_range_too_large (w3 : Web3) (self : AggregatedMetricsExporter)
    (from_block current_range_of_blocks block_number : Z) (exc : exn) :
  stop self = false ->
  get_chain_finalised_head w3 = Ok block_number ->
  from_block < block_number ->
  snd (get_nimbus_events w3 (nimbus_address (service_params self)) from_block
         (cycle_to_block from_block current_range_of_blocks block_number)
         (contracts_reader self)) = Raise exc ->
  is_range_too_large exc = true ->
  exists self',
    _run w3 from_block current_range_of_blocks self
    = (self', Ok (from_block, decrease_range_of_blocks current_range_of_blocks))
    /\ same_aggregates self self'
    /\ database_manager self' = database_manager self.
Proof.
  intros Hstop Hhead Hlt Hfetch Hsig.
  destruct (get_nimbus_events w3 (nimbus_address (service_params self)) from_block
              (cycle_to_block from_block current_range_of_blocks block_number)
              (contracts_reader self)) as [reader' r] eqn:E.
  cbn [snd] in Hfetch. subst r.
  pose proof (get_and_process_fetch_raises _ _ _ _ _ _ E) as Hproc.
  destruct (range_too_large_not_expected exc Hsig) as [Hexp Hexit].
  exists (set_contracts_reader reader' self). split.
  - unfold _run, try_except, bind, get. rewrite Hstop. unfold ret at 1.
    rewrite Hhead.
    destruct (block_number <=? from_block) eqn:Ele; [apply Z.leb_le in Ele; lia|].
    unfold cycle_to_block in Hproc. rewrite Hproc.
    unfold range_too_large_test.
    destruct exc as [|[m|]|text| | |m| | | | |]; cbn in Hsig; try discriminate Hsig;
      try contradiction; cbn; rewrite ?Hsig; reflexivity.
  - split; [repeat split|reflexivity].
Qed.

Lemma run_range_too_large_witness :
  let self := AggregatedMetricsExporter_init scenario_B_provider empty_database
                                             default_params in
  exists self',
    _run scenario_B_provider 500 1000 self = (self', Ok (500, 900))
    /\ same_aggregates self self'
    /\ database_manager self' = database_manager self.
Proof.
  intros self.
  apply (run_range_too_large scenario_B_provider self 500 1000 1000000
           (ValueError (Some too_many_results))).
  - reflexivity.
  - reflexivity.
  - lia.
  - reflexivity.
  - reflexivity.
Defined.

(** The handler cannot tell where a timeout came from.  One raised after
    the fetch, by the contract call made while a block is folded, is taken
    for the signal as well: the window shrinks and [from_block] stays, with
    the block already folded and written to the checkpoint. *)
Lemma run_timeout_during_fold :
  let w3 := fold_timeout_provider in
  let self := AggregatedMetricsExporter_init w3 empty_database default_params in
  exists self',
    _run w3 100 10 self = (self', Ok (100, 9))
    /\ deposited self' = 50
    /\ aggregated_data (database_manager self') = Some (50, 1, 0, 0, 105).
Proof.
  intros w3 self. eexists. split; [vm_compute; reflexivity|].
  cbn. split; reflexivity.
Qed.

Lemma get_nimbus_events_stale_twice (w3 : Web3) (address : string)
    (from to : Z) (reader : ContractsReader) (m0 m1 : option string) :
  from <= to ->
  filter_get_all_entries w3 (from, to) 0 = Raise (ValueError m0) ->
  is_range_too_large (ValueError m0) = false ->
  filter_get_all_entries w3 (from, to) 1 = Raise (ValueError m1) ->
  is_range_too_large (ValueError m1) = false ->
  exists reader', get_nimbus_events w3 address from to reader = (reader', Ok []).
Proof.
  intros Hle H0 Hs0 H1 Hs1. unfold get_nimbus_events.
  assert (Hstale : forall f, from_block f = from -> to_block f = to ->
                             uninstalled f = false -> filter f = (from, to) ->
                             exists f', get_all_entries w3 f = (f', Ok [])).
  { intros f Hfrom Hto Hu Hf. eexists.
    apply (get_all_entries_stale_twice w3 f m0 m1); rewrite ?Hfrom, ?Hto; assumption. }
  destruct (nimbus_event_filter reader) as [f|].
  - destruct (update_filter_range_installs from to f) as (Hfrom & Hto & Hu & Hf).
    destruct (Hstale _ Hfrom Hto Hu Hf) as [f' ->]. eexists. reflexivity.
  - unfold ContractEventFilter_init.
    destruct (from <=? to) eqn:E; [|apply Z.leb_gt in E; lia]. cbn [negb].
    edestruct Hstale as [f' ->]; [| | | |eexists; reflexivity]; reflexivity.
Qed.

(** C4.  When the provider refuses both calls of a fetch with a
    [ValueError] that is not the too-many-results one, [get_all_entries]
    returns the empty list, the range is taken to hold no event, and the
    cycle returns the block after the range as the next one to scan, with
    no aggregate changed: what the range held is never folded. *)
Theorem run_stale_filter_twice (w3 : Web3) (self : AggregatedMetricsExporter)
    (from_block current_range_of_blocks block_number : Z) (m0 m1 : option string) :
  stop self = false ->
  get_chain_finalised_head w3 = Ok block_number ->
  from_block < block_number ->
  0 <= current_range_of_blocks ->
  let to_block := cycle_to_block from_block current_range_of_blocks block_number in
  filter_get_all_entries w3 (from_block, to_block) 0 = Raise (ValueError m0) ->
  is_range_too_large (ValueError m0) = false ->
  filter_get_all_entries w3 (from_block, to_block) 1 = Raise (ValueError m1) ->
  is_range_too_large (ValueError m1) = false ->
  (forall f, snd (get_all_entries w3 (_init_filter (set_range from_block to_block f)))
             = Ok [])
  /\ snd (get_nimbus_events w3 (nimbus_address (service_params self)) from_block
            to_block (contracts_reader self)) = Ok []
  /\ exists self',
       _run w3 from_block current_range_of_blocks self
       = (self', Ok (to_block + 1, max_range_of_blocks (service_params self)))
       /\ same_aggregates self self'.
Proof.
  intros Hstop Hhead Hlt Hrange to_block H0 Hs0 H1 Hs1.
  assert (Hle : from_block <= to_block).
  { unfold to_block, cycle_to_block.
    destruct (block_number <? from_block + current_range_of_blocks); lia. }
  split.
  { intros f.
    rewrite (get_all_entries_stale_twice w3 _ m0 m1); auto. }
  destruct (get_nimbus_events_stale_twice w3 (nimbus_address (service_params self))
              from_block to_block (contracts_reader self) m0 m1 Hle H0 Hs0 H1 Hs1)
    as [reader' Hev].
  split; [rewrite Hev; reflexivity|].
  pose proof (get_and_process_no_events _ _ _ _ _ Hev) as Hproc.
  eexists. split.
  - unfold _run, try_except, bind, get. rewrite Hstop. unfold ret at 1.
    rewrite Hhead.
    destruct (block_number <=? from_block) eqn:Ele; [apply Z.leb_le in Ele; lia|].
    unfold to_block, cycle_to_block in Hproc. rewrite Hproc.
    unfold ret.
    destruct (current_range_of_blocks =? max_range_of_blocks (service_params self))
      eqn:Er; cbn [negb]; [|reflexivity].
    apply Z.eqb_eq in Er. rewrite <- Er. reflexivity.
  - repeat split.
Qed.

Lemma run_stale_filter_twice_witness :
  let self := AggregatedMetricsExporter_init stale_provider empty_database
                                             default_params in
  snd (get_nimbus_events stale_provider "0xnimbus" 500 1500 (contracts_reader self))
  = Ok []
  /\ exists self',
       _run stale_provider 500 1000 self = (self', Ok (1501, 2500))
       /\ same_aggregates self self'.
Proof.
  intros self.
  apply (run_stale_filter_twice stale_provider self 500 1000 1000000
           (Some "filter not found") (Some "filter not found"));
    try reflexivity; lia.
Defined.

(** C7.  Scenario A: from the initial state, whatever the datastore holds
    and whatever ledgers the contract lists, processing the range
    [100; 110], whose only log is a [Deposited] event of amount 50 in block
    105, leaves [deposited = 50], [deposited_events_num = 1] and the redeemed
    aggregates at zero, and writes that checkpoint with block 105.  The APR
    is then computed from the rows the datastore holds: when that
    computation returns, as it does over a [reward] table without rows,
    [last_block_number_with_events] is 105 and 111 is returned as the next
    block; when it raises, the exception leaves the call with
    [last_block_number_with_events] not yet set. *)
Theorem get_and_process_aggregated_data_scenario_A (db : DatabaseManager)
    (params : ServiceParameters) (ledgers : list string) :
  let w3 := scenario_A_provider ledgers in
  let self := AggregatedMetricsExporter_init w3 db params in
  let computed :=
    calculate_apr 0 (rewards_by_ledger db (database_query_limit params)
                                       (to_set ledgers))
                  (eras_per_day params) (apr_min params) (apr_max params) in
  exists self' outcome,
    get_and_process_aggregated_data w3 100 110 self = (self', outcome)
    /\ deposited self' = 50
    /\ deposited_events_num self' = 1
    /\ redeemed self' = 0
    /\ redeemed_events_num self' = 0
    /\ aggregated_data (database_manager self') = Some (50, 1, 0, 0, 105)
    /\ match computed with
       | Ok _ => outcome = Ok 111 /\ last_block_number_with_events self' = 105
       | Raise exc =>
           outcome = Raise exc /\ last_block_number_with_events self' = -1
       end
    /\ (reward db = [] -> computed = Ok (0 : Q)).
Proof.
  intros w3 self computed.
  assert (Hext : forall db' limit ls, reward db' = reward db ->
            rewards_by_ledger db' limit ls = rewards_by_ledger db limit ls).
  { intros db' limit ls H. induction ls as [|l ls IH]; [reflexivity|].
    cbn [rewards_by_ledger]. unfold get_rewards. rewrite H, IH. reflexivity. }
  assert (Hempty : reward db = [] -> computed = Ok (0 : Q)).
  { intros H. unfold computed.
    replace (rewards_by_ledger db (database_query_limit params) (to_set ledgers))
      with (@nil (string * list reward_row)); [reflexivity|].
    symmetry. induction (to_set ledgers) as [|l ls IH]; [reflexivity|].
    cbn [rewards_by_ledger]. unfold get_rewards at 1. rewrite H. cbn.
    destruct (Z.to_nat (database_query_limit params)); exact IH. }
  assert (Hcomputed :
    calculate_apr 0
      (rewards_by_ledger (update_aggregated_data (50, 1, 0, 0, 105) db)
                         (database_query_limit params) (to_set ledgers))
      (eras_per_day params) (apr_min params) (apr_max params) = computed).
  { unfold computed. rewrite (Hext (update_aggregated_data _ db)); reflexivity. }
  revert Hempty Hcomputed. generalize computed. clear computed. intros computed.
  unfold self, w3.
  cbv -[calculate_apr rewards_by_ledger to_set get_holders_number update_api_table].
  intros Hempty ->.
  destruct computed as [apr|exc].
  - eexists. eexists. split; [reflexivity|]. cbn.
    repeat (split; [reflexivity|]). split; [split; reflexivity | exact Hempty].
  - eexists. eexists. split; [reflexivity|]. cbn.
    repeat (split; [reflexivity|]). split; [split; reflexivity | exact Hempty].
Qed.

(** ** The order of the fold *)

(** C1.  The blocks of a range are folded in the order in which
    [distribute_events_by_blocks] first meets them, walking the event map
    kind by kind, which need not be ascending: with a [Transfer] in block 5
    and a [Deposited] event in block 10, fetched in one range and returned
    by the filter in ascending order, the groups are folded in the order
    10, 5, and the cycle ends with [last_block_number_with_events = 5] in
    the state and in the checkpoint, below block 10 already folded. *)
Theorem blocks_folded_in_order_of_event_kind :
  let w3 := two_blocks_provider in
  let self := AggregatedMetricsExporter_init w3 empty_database default_params in
  snd (get_all_entries w3 (fresh_filter 1 20))
  = Ok [transfer_log_block_5; deposited_raw_log_block_10]
  /\ snd (get_nimbus_events w3 "0xnimbus" 1 20 (contracts_reader self))
     = Ok two_blocks_events
  /\ map fst (distribute_events_by_blocks two_blocks_events) = [10; 5]
  /\ exists self',
       get_and_process_aggregated_data w3 1 20 self = (self', Ok 21)
       /\ deposited self' = 50
       /\ holders_number self' = 1
       /\ last_block_number_with_events self' = 5
       /\ aggregated_data (database_manager self') = Some (50, 1, 0, 0, 5).
Proof.
  intros w3 self.
  split; [reflexivity|]. split; [reflexivity|]. split; [reflexivity|].
  eexists. split; [vm_compute; reflexivity|].
  cbn. repeat split.
Qed.

(** ** The decorated cycle *)

(** [run] calls [_run] through the decorator, which runs the body twice. *)
Lemma reconnection_counter_calls_twice {S A : Type} (func : M S A) (s : S) :
  reconnection_counter func s
  = match func s with
    | (s1, Ok _) => func s1
    | (s1, Raise exc) => (s1, Raise exc)
    end.
Proof. reflexivity. Qed.

(** In Scenario B both runs of the body meet the same refusal: the
    decorated call too returns the same [from_block] and the window 900,
    with the aggregates untouched. *)
Lemma scenario_B_decorated_cycle :
  let w3 := scenario_B_provider in
  let self := AggregatedMetricsExporter_init w3 empty_database default_params in
  exists self',
    reconnection_counter (_run w3 500 1000) self = (self', Ok (500, 900))
    /\ same_aggregates self self'.
Proof.
  intros w3 self. eexists. split; [vm_compute; reflexivity|].
  cbn. repeat split.
Qed.

(** In Scenario A the decorated call fetches and folds the range twice. *)
Lemma scenario_A_decorated_cycle :
  let w3 := scenario_A_provider [] in
  let self := AggregatedMetricsExporter_init w3 empty_database default_params in
  exists self',
    reconnection_counter (_run w3 100 10) self = (self', Ok (111, 2500))
    /\ deposited self' = 100
    /\ deposited_events_num self' = 2
    /\ last_block_number_with_events self' = 105.
Proof.
  intros w3 self. eexists. split; [vm_compute; reflexivity|].
  cbn. repeat split.
Qed.

(** * Further properties *)

(** ** The event filter, over all outcomes *)

Lemma fetch_entries_state (w3 : Web3) (n attempt : nat) (self : ContractEventFilter) :
  let out := fetch_entries w3 n attempt self in
  from_block (fst out) = from_block self
  /\ to_block (fst out) = to_block self
  /\ topics_of_filter (fst out) = topics_of_filter self
  /\ contract_address (fst out) = contract_address self.
Proof.
  revert attempt self. induction n as [|n IH]; intros attempt self; cbn.
  - auto.
  - unfold bind, get.
    destruct (filter_get_all_entries w3 (filter self) attempt) as [entries|exc];
      [cbn; auto|].
    destruct (caught_by_get_all_entries exc); [|cbn; auto].
    unfold range_too_large_test.
    destruct (range_too_large_test_fails exc); [cbn; auto|].
    destruct (is_range_too_large exc); [cbn; auto|].
    unfold modify, ret. cbn [fst snd].
    specialize (IH (S attempt) (_init_filter self)). cbn in IH.
    destruct (fetch_entries w3 n (S attempt) (_init_filter self)) as [s r].
    cbn in *. destruct r; exact IH.
Qed.

Lemma fetch_entries_flag (w3 : Web3) (n attempt : nat) (self : ContractEventFilter) :
  uninstalled self = false ->
  match fetch_entries w3 n attempt self with
  | (s, Ok _) => uninstalled s = false
  | (s, Raise exc) =>
      (is_range_too_large exc = true /\ uninstalled s = true)
      \/ (is_range_too_large exc = false /\ uninstalled s = false)
  end.
Proof.
  revert attempt self. induction n as [|n IH]; intros attempt self Hu; cbn.
  - exact Hu.
  - unfold bind, get.
    destruct (filter_get_all_entries w3 (filter self) attempt) as [entries|exc];
      [exact Hu|].
    destruct (caught_by_get_all_entries exc) eqn:Ec.
    2:{ cbn. right. split; [|exact Hu]. destruct exc; try reflexivity; discriminate. }
    unfold range_too_large_test.
    destruct (range_too_large_test_fails exc) eqn:Ef; [cbn; auto|].
    destruct (is_range_too_large exc) eqn:Es; [cbn; auto|].
    unfold modify, ret. cbn [fst snd].
    specialize (IH (S attempt) (_init_filter self) eq_refl).
    destruct (fetch_entries w3 n (S attempt) (_init_filter self)) as [s [l|e]];
      exact IH.
Qed.

Lemma get_all_entries_unfold (w3 : Web3) (self : ContractEventFilter) :
  get_all_entries w3 self
  = let installed := if uninstalled self then _init_filter self else self in
    match fetch_entries w3 2 0 installed with
    | (s, Raise exc) => (s, Raise exc)
    | (s, Ok entries) =>
        match rev (sorted blockNumber entries) with
        | [] => (uninstall s, Ok (sorted blockNumber entries))
        | last_event :: _ =>
            (advance_past last_event (uninstall s), Ok (sorted blockNumber entries))
        end
    end.
Proof.
  unfold get_all_entries. unfold bind at 1. unfold get at 1. unfold bind at 1.
  assert (Hinst : (if uninstalled self then modify _init_filter else ret tt) self
                  = (if uninstalled self then _init_filter self else self, Ok tt)).
  { unfold modify, ret. destruct (uninstalled self); reflexivity. }
  rewrite Hinst. unfold bind at 1. cbv zeta.
  destruct (fetch_entries w3 2 0 (if uninstalled self then _init_filter self else self))
    as [s [entries|exc]]; [|reflexivity].
  unfold bind, modify, ret.
  destruct (rev (sorted blockNumber entries)); reflexivity.
Qed.

Lemma installed_state (self : ContractEventFilter) :
  let installed := if uninstalled self then _init_filter self else self in
  from_block installed = from_block self /\ to_block installed = to_block self
  /\ topics_of_filter installed = topics_of_filter self
  /\ uninstalled installed = false.
Proof. cbv zeta. destruct (uninstalled self) eqn:E; cbn; auto. Qed.

Lemma advance_past_ordered (last_event : event) (s : ContractEventFilter) :
  from_block (advance_past last_event s) <= to_block (advance_past last_event s)
  /\ from_block (advance_past last_event s) = blockNumber last_event + 1
  /\ to_block s <= to_block (advance_past last_event s)
  /\ uninstalled (advance_past last_event s) = uninstalled s
  /\ topics_of_filter (advance_past last_event s) = topics_of_filter s.
Proof.
  unfold advance_past. cbn.
  destruct (to_block s <? blockNumber last_event + 1) eqn:E; cbn;
    [apply Z.ltb_lt in E | apply Z.ltb_ge in E]; repeat split; lia.
Qed.

(** X1.  Whatever the provider answers, a fetch on a filter whose range is
    in order leaves the range in order, never lowers [to_block], and leaves
    the range as it was unless it returns a non-empty list. *)
Theorem get_all_entries_keeps_range_ordered (w3 : Web3) (self : ContractEventFilter) :
  from_block self <= to_block self ->
  let out := get_all_entries w3 self in
  from_block (fst out) <= to_block (fst out)
  /\ to_block self <= to_block (fst out)
  /\ ((forall e l, snd out <> Ok (e :: l)) ->
      from_block (fst out) = from_block self /\ to_block (fst out) = to_block self).
Proof.
  intros Hle. rewrite get_all_entries_unfold. cbv zeta.
  destruct (installed_state self) as (Hf & Ht & _ & _).
  pose proof (fetch_entries_state w3 2 0
                (if uninstalled self then _init_filter self else self)) as Hs.
  cbv zeta in Hs. destruct Hs as (Hf' & Ht' & _ & _).
  destruct (fetch_entries w3 2 0 (if uninstalled self then _init_filter self else self))
    as [s [entries|exc]]; cbn [fst snd] in *.
  - destruct (rev (sorted blockNumber entries)) as [|last_event r] eqn:Er;
      cbn [fst snd].
    + cbn. repeat split; lia.
    + destruct (advance_past_ordered last_event (uninstall s)) as (H1 & _ & H3 & _).
      cbn in H3. split; [exact H1|]. split; [lia|].
      intros Hne. exfalso.
      destruct (sorted blockNumber entries) as [|e l] eqn:Es; [discriminate Er|].
      exact (Hne e l eq_refl).
  - repeat split; lia.
Qed.

Lemma get_all_entries_keeps_range_ordered_witness :
  let out := get_all_entries (provider_answering (fun _ => Ok unsorted_entries))
                             (fresh_filter 0 5) in
  from_block (fst out) = 8 /\ to_block (fst out) = 8
  /\ from_block (fst out) <= to_block (fst out).
Proof.
  intros out. split; [reflexivity|]. split; [reflexivity|].
  apply (get_all_entries_keeps_range_ordered
           (provider_answering (fun _ => Ok unsorted_entries)) (fresh_filter 0 5)).
  cbn. lia.
Defined.

(** X2.  What a fetch raises, installing and uninstalling the provider-side
    filter being taken to succeed.  The exception comes from the first call
    of the provider's [get_all_entries], or from the second one, made after
    a first refusal that was caught and was not the signal.  It is that
    call's exception when this is the range-too-large signal (a timeout or
    the too-many-results [ValueError]: re-raised at once, never retried) or
    when the [except] clause does not catch it; and it is a [TypeError] of
    the handler's own test when the call raised a [ValueError] whose
    argument is a string with [message] in it or is no container.  So a
    signal or an uncaught exception of the first call is what the fetch
    raises. *)
Theorem get_all_entries_raises_signal_or_uncaught (w3 : Web3)
    (self : ContractEventFilter) (exc : exn) :
  let handle := if uninstalled self then (from_block self, to_block self)
                else filter self in
  (snd (get_all_entries w3 self) = Raise exc ->
   exists attempt raised,
     (filter_get_all_entries w3 handle 0 = Raise raised /\ attempt = 0%nat
      \/ (exists first,
            filter_get_all_entries w3 handle 0 = Raise first
            /\ caught_by_get_all_entries first = true
            /\ range_too_large_test_fails first = false
            /\ is_range_too_large first = false)
         /\ filter_get_all_entries w3 (from_block self, to_block self) 1
            = Raise raised
         /\ attempt = 1%nat)
     /\ (exc = raised
            /\ (is_range_too_large raised = true
                \/ caught_by_get_all_entries raised = false)
         \/ exc = TypeError
            /\ caught_by_get_all_entries raised = true
            /\ range_too_large_test_fails raised = true))
  /\ (filter_get_all_entries w3 handle 0 = Raise exc ->
      is_range_too_large exc = true \/ caught_by_get_all_entries exc = false ->
      snd (get_all_entries w3 self) = Raise exc).
Proof.
  intros handle.
  assert (Hhandle : filter (if uninstalled self then _init_filter self else self)
                    = handle).
  { unfold handle. destruct (uninstalled self); reflexivity. }
  destruct (installed_state self) as (Hf & Ht & _ & _). cbv zeta in Hf, Ht.
  rewrite get_all_entries_unfold. cbv zeta.
  set (installed := if uninstalled self then _init_filter self else self) in *.
  unfold fetch_entries, range_too_large_test, bind, get, modify, ret, raise.
  rewrite Hhandle.
  destruct (filter_get_all_entries w3 handle 0) as [l0|e0] eqn:E0.
  { split; [|discriminate]. destruct (rev (sorted blockNumber l0)); discriminate. }
  destruct (caught_by_get_all_entries e0) eqn:Ec0.
  2:{ cbn. split.
      - intros [= <-]. exists 0%nat, e0. split; [left; auto|]. left. auto.
      - intros [= <-] _. reflexivity. }
  destruct (range_too_large_test_fails e0) eqn:Ef0.
  { cbn. split.
    - intros [= <-]. exists 0%nat, e0. split; [left; auto|]. right. auto.
    - intros [= <-] [Hs|Hc]; [|congruence].
      exfalso. destruct e0; cbn in Hs, Ef0; congruence. }
  destruct (is_range_too_large e0) eqn:Es0.
  { cbn. split.
    - intros [= <-]. exists 0%nat, e0. split; [left; auto|]. left. auto.
    - intros [= <-] _. reflexivity. }
  cbn [fst snd filter _init_filter]. rewrite Hf, Ht.
  split; [|intros [= <-] [Hs|Hc]; congruence].
  destruct (filter_get_all_entries w3 (from_block self, to_block self) 1)
    as [l1|e1] eqn:E1.
  { destruct (rev (sorted blockNumber l1)); discriminate. }
  assert (Hfirst : exists first,
            @Raise (list event) e0 = Raise first
            /\ caught_by_get_all_entries first = true
            /\ range_too_large_test_fails first = false
            /\ is_range_too_large first = false) by (exists e0; auto).
  destruct (caught_by_get_all_entries e1) eqn:Ec1.
  2:{ cbn. intros [= <-]. exists 1%nat, e1. split; [right; auto|]. left. auto. }
  destruct (range_too_large_test_fails e1) eqn:Ef1.
  { cbn. intros [= <-]. exists 1%nat, e1. split; [right; auto|]. right. auto. }
  destruct (is_range_too_large e1) eqn:Es1.
  { cbn. intros [= <-]. exists 1%nat, e1. split; [right; auto|]. left. auto. }
  cbn. discriminate.
Qed.

Lemma get_all_entries_raises_signal_or_uncaught_witness :
  snd (get_all_entries (provider_raising AsyncioTimeoutError) uninstalled_filter)
  = Raise AsyncioTimeoutError
  /\ snd (get_all_entries (provider_raising (ValueErrorStr "error message"))
                          uninstalled_filter)
     = Raise TypeError.
Proof.
  split.
  - apply (proj2 (get_all_entries_raises_signal_or_uncaught
                    (provider_raising AsyncioTimeoutError) uninstalled_filter
                    AsyncioTimeoutError)); [reflexivity | left; reflexivity].
  - reflexivity.
Defined.

(** X3.  The flag [uninstalled] after a fetch, installing and uninstalling
    the provider-side filter being taken to succeed: it is set when the
    fetch returns, and when the fetch raises it is set exactly if the
    exception is the range-too-large signal, a timeout or the
    too-many-results [ValueError]; an exception that [get_all_entries] does
    not catch, and the [TypeError] of its own test, leave the filter
    installed. *)
Theorem get_all_entries_uninstalls (w3 : Web3) (self : ContractEventFilter) :
  match get_all_entries w3 self with
  | (self', Ok _) => uninstalled self' = true
  | (self', Raise exc) =>
      uninstalled self' = is_range_too_large exc
  end.
Proof.
  rewrite get_all_entries_unfold. cbv zeta.
  destruct (installed_state self) as (_ & _ & _ & Hu).
  pose proof (fetch_entries_flag w3 2 0 _ Hu) as Hflag.
  destruct (fetch_entries w3 2 0 (if uninstalled self then _init_filter self else self))
    as [s [entries|exc]].
  - destruct (rev (sorted blockNumber entries)) as [|last_event r]; [reflexivity|].
    destruct (advance_past_ordered last_event (uninstall s)) as (_ & _ & _ & H & _).
    rewrite H. reflexivity.
  - destruct Hflag as [[Hs ->]|[Hc ->]]; congruence.
Qed.

Lemma get_all_entries_topics (w3 : Web3) (self : ContractEventFilter) :
  topics_of_filter (fst (get_all_entries w3 self)) = topics_of_filter self.
Proof.
  rewrite get_all_entries_unfold. cbv zeta.
  destruct (installed_state self) as (_ & _ & Ht & _).
  pose proof (fetch_entries_state w3 2 0
                (if uninstalled self then _init_filter self else self)) as Hs.
  cbv zeta in Hs. destruct Hs as (_ & _ & Ht' & _).
  destruct (fetch_entries w3 2 0 (if uninstalled self then _init_filter self else self))
    as [s [entries|exc]]; cbn [fst] in *; [|congruence].
  destruct (rev (sorted blockNumber entries)) as [|last_event r]; cbn [fst].
  - cbn. congruence.
  - destruct (advance_past_ordered last_event (uninstall s)) as (_ & _ & _ & _ & H).
    rewrite H. cbn. congruence.
Qed.

(** X4.  The filter that [get_nimbus_events] builds when the reader has
    none asks for no topic at all: [set('nimbus',)] is the set of the six
    letters, in which the word ['nimbus'] is not, so the five event hashes
    are never added; the fetch that follows does not change that. *)
Theorem get_nimbus_events_filter_has_no_topics (w3 : Web3) (address : string)
    (from to : Z) (reader : ContractsReader) :
  nimbus_event_filter reader = None ->
  from <= to ->
  exists f,
    nimbus_event_filter (fst (get_nimbus_events w3 address from to reader)) = Some f
    /\ topics_of_filter f = []
    /\ contract_address f = address.
Proof.
  intros Hnone Hle. unfold get_nimbus_events. rewrite Hnone.
  unfold ContractEventFilter_init.
  destruct (from <=? to) eqn:E; [|apply Z.leb_gt in E; lia]. cbn [negb].
  change (existsb (String.eqb "nimbus") events_to_find_nimbus) with false.
  cbv iota.
  set (f0 := _init_filter (mkFilter [] address from to false (from, to))).
  pose proof (get_all_entries_topics w3 f0) as Ht.
  assert (Ha : contract_address (fst (get_all_entries w3 f0)) = address).
  { rewrite get_all_entries_unfold. cbv zeta.
    pose proof (fetch_entries_state w3 2 0
                  (if uninstalled f0 then _init_filter f0 else f0)) as Hs.
    cbv zeta in Hs. destruct Hs as (_ & _ & _ & Hc).
    destruct (fetch_entries w3 2 0 (if uninstalled f0 then _init_filter f0 else f0))
      as [s [entries|exc]]; cbn [fst] in *; [|rewrite Hc; reflexivity].
    destruct (rev (sorted blockNumber entries)) as [|last_event r]; cbn [fst].
    - cbn. rewrite Hc. reflexivity.
    - unfold advance_past. cbn.
      destruct (to_block s <? blockNumber last_event + 1); cbn; rewrite Hc; reflexivity. }
  destruct (get_all_entries w3 f0) as [f' [events_mixed|exc]]; cbn [fst] in *;
    exists f'; auto.
Qed.

Lemma get_nimbus_events_filter_has_no_topics_witness :
  exists f,
    nimbus_event_filter
      (fst (get_nimbus_events (scenario_A_provider []) "0xnimbus" 100 110
              (ContractsReader_init (scenario_A_provider [])))) = Some f
    /\ topics_of_filter f = []
    /\ contract_address f = "0xnimbus".
Proof.
  apply get_nimbus_events_filter_has_no_topics; [reflexivity | lia].
Defined.

(** ** Dicts *)

Section DictFacts.
Context {K V : Type} (eqb : K -> K -> bool).
Hypothesis eqb_eq : forall a b, eqb a b = true <-> a = b.

Lemma dict_update_keys (k : K) (f : V -> V) (d : list (K * V)) :
  map fst (dict_update eqb k f d) = map fst d.
Proof.
  induction d as [|[k' v] d IH]; [reflexivity|].
  cbn [dict_update]. destruct (eqb k k'); cbn; [reflexivity | rewrite IH; reflexivity].
Qed.

Lemma dict_get_update_inv (k k' : K) (f : V -> V) (d : list (K * V)) (v' : V) :
  dict_get eqb k (dict_update eqb k' f d) = Some v' ->
  (k = k' /\ exists v, dict_get eqb k d = Some v /\ v' = f v)
  \/ (k <> k' /\ dict_get eqb k d = Some v').
Proof.
  induction d as [|[k1 v1] d IH]; [discriminate|].
  cbn [dict_update dict_get].
  destruct (eqb k' k1) eqn:E1; cbn [dict_get].
  - apply eqb_eq in E1. subst k1.
    destruct (eqb k k') eqn:E.
    + apply eqb_eq in E. intros [= <-]. left. split; [exact E|]. eauto.
    + intros H. right. split; [|exact H].
      intros ->. rewrite (proj2 (eqb_eq k' k') eq_refl) in E. discriminate.
  - destruct (eqb k k1) eqn:E.
    + apply eqb_eq in E. subst k1. intros [= <-]. right. split; [|reflexivity].
      intros ->. rewrite (proj2 (eqb_eq k' k') eq_refl) in E1. discriminate.
    + exact IH.
Qed.

Lemma dict_get_update_same (k : K) (f : V -> V) (d : list (K * V)) (v : V) :
  dict_get eqb k d = Some v ->
  dict_get eqb k (dict_update eqb k f d) = Some (f v).
Proof.
  induction d as [|[k1 v1] d IH]; [discriminate|].
  cbn [dict_update dict_get].
  destruct (eqb k k1) eqn:E; cbn [dict_get]; rewrite E.
  - intros [= ->]. reflexivity.
  - exact IH.
Qed.

Lemma dict_get_update_other (k k' : K) (f : V -> V) (d : list (K * V)) :
  k <> k' ->
  dict_get eqb k (dict_update eqb k' f d) = dict_get eqb k d.
Proof.
  intros Hne. induction d as [|[k1 v1] d IH]; [reflexivity|].
  cbn [dict_update dict_get].
  destruct (eqb k' k1) eqn:E1; cbn [dict_get].
  - apply eqb_eq in E1. subst k1.
    destruct (eqb k k') eqn:E; [apply eqb_eq in E; contradiction | reflexivity].
  - destruct (eqb k k1); [reflexivity | exact IH].
Qed.

Lemma dict_get_in_keys (k : K) (d : list (K * V)) :
  In k (map fst d) <-> exists v, dict_get eqb k d = Some v.
Proof.
  induction d as [|[k1 v1] d IH]; cbn [map fst In dict_get].
  - split; [intros [] | intros [v Hv]; discriminate].
  - destruct (eqb k k1) eqn:E.
    + apply eqb_eq in E. split; [intros _; eauto | intros _; left; congruence].
    + rewrite <- IH. split; [intros [->|H]; [|exact H] | auto].
      rewrite (proj2 (eqb_eq k k) eq_refl) in E. discriminate.
Qed.

Lemma dict_mem_in_keys (k : K) (d : list (K * V)) :
  dict_mem eqb k d = true <-> In k (map fst d).
Proof.
  rewrite dict_get_in_keys. unfold dict_mem.
  destruct (dict_get eqb k d) as [v|].
  - split; eauto.
  - split; [discriminate | intros [v Hv]; discriminate].
Qed.

Lemma dict_get_app_absent (k : K) (d d' : list (K * V)) :
  dict_get eqb k d = None ->
  dict_get eqb k (d ++ d') = dict_get eqb k d'.
Proof.
  induction d as [|[k1 v1] d IH]; [reflexivity|].
  cbn [app dict_get]. destruct (eqb k k1); [discriminate | exact IH].
Qed.

Lemma dict_get_app_present (k : K) (d d' : list (K * V)) (v : V) :
  dict_get eqb k d = Some v ->
  dict_get eqb k (d ++ d') = Some v.
Proof.
  induction d as [|[k1 v1] d IH]; [discriminate|].
  cbn [app dict_get]. destruct (eqb k k1); [auto | exact IH].
Qed.
End DictFacts.

(** ** Loops *)

Lemma for_each_invariant {S A : Type} (P : S -> Prop) (body : A -> M S unit)
    (l : list A) :
  (forall x s, In x l -> P s -> P (fst (body x s))) ->
  forall s, P s -> P (fst (for_each body l s)).
Proof.
  induction l as [|x l IH]; intros Hbody s Hs; [exact Hs|].
  cbn [for_each]. unfold bind.
  pose proof (Hbody x s (or_introl eq_refl) Hs) as Hx.
  destruct (body x s) as [s1 [[]|exc]]; cbn [fst] in *; [|exact Hx].
  apply IH; [|exact Hx]. intros y s' Hy. apply Hbody. right. exact Hy.
Qed.

(** ** The classifier *)

Lemma append_event_keys (kind : string) (log : event) (events : events_dict) :
  map fst (append_event kind log events) = map fst events.
Proof. apply dict_update_keys. Qed.

Lemma find_log_in_range (logs : list event) (log_index : Z) :
  logs <> [] -> exists log, nth_error logs (find_log logs log_index) = Some log.
Proof.
  intros Hne. pose proof (find_log_from_spec logs log_index 0) as H.
  unfold find_log. destruct (find_log_from 0 logs log_index) as [i|].
  - destruct H as (_ & (l & Hnth & _) & _). rewrite Nat.sub_0_r in Hnth. eauto.
  - destruct logs as [|l logs]; [congruence|]. exists l. reflexivity.
Qed.

Lemma append_rich_log_cases (kind : string) (tx_receipt : list event)
    (log_index : Z) (events : events_dict) :
  (processReceipt kind tx_receipt = []
   /\ append_rich_log kind tx_receipt log_index events = (events, Raise IndexError))
  \/ (exists log,
        In log tx_receipt /\ event_name log = kind
        /\ append_rich_log kind tx_receipt log_index events
           = (append_event kind log events, Ok tt)).
Proof.
  unfold append_rich_log.
  destruct (processReceipt kind tx_receipt) as [|l0 rich_logs] eqn:Ep.
  - left. split; [reflexivity|]. reflexivity.
  - right.
    destruct (find_log_in_range (l0 :: rich_logs) log_index ltac:(discriminate))
      as [log Hlog]. rewrite Hlog.
    exists log. apply nth_error_In in Hlog. rewrite <- Ep in Hlog.
    unfold processReceipt in Hlog. apply filter_In in Hlog as [Hin Hname].
    apply String.eqb_eq in Hname. auto.
Qed.

Lemma distribute_by_topics_cases (self : ContractsReader) (tx_receipt : list event)
    (event : event) (topics : list string) (events : events_dict) :
  distribute_by_topics self tx_receipt event topics events = (events, Ok tt)
  \/ distribute_by_topics self tx_receipt event topics events
     = (events, Raise IndexError)
  \/ distribute_by_topics self tx_receipt event topics events
     = (append_event "Transfer" event events, Ok tt)
  \/ exists kind log,
       kind <> "Transfer" /\ In log tx_receipt /\ event_name log = kind
       /\ distribute_by_topics self tx_receipt event topics events
          = (append_event kind log events, Ok tt).
Proof.
  assert (Hrich : forall kind, kind <> "Transfer" ->
            append_rich_log kind tx_receipt (logIndex event) events
            = (events, Raise IndexError)
            \/ exists kind' log,
                 kind' <> "Transfer" /\ In log tx_receipt /\ event_name log = kind'
                 /\ append_rich_log kind tx_receipt (logIndex event) events
                    = (append_event kind' log events, Ok tt)).
  { intros kind Hk.
    destruct (append_rich_log_cases kind tx_receipt (logIndex event) events)
      as [[_ H]|(log & Hin & Hname & H)]; [left; exact H|].
    right. exists kind, log. auto. }
  induction topics as [|topic topics IH]; cbn [distribute_by_topics].
  - left. reflexivity.
  - destruct (String.eqb topic (deposited_event_hash self));
      [right; destruct (Hrich "Deposited" ltac:(discriminate)); auto|].
    destruct (String.eqb topic (losses_event_hash self));
      [right; destruct (Hrich "Losses" ltac:(discriminate)); auto|].
    destruct (String.eqb topic (redeemed_event_hash self));
      [right; destruct (Hrich "Redeemed" ltac:(discriminate)); auto|].
    destruct (String.eqb topic (rewards_event_hash self));
      [right; destruct (Hrich "Rewards" ltac:(discriminate)); auto|].
    destruct (String.eqb topic (transfer_event_hash self)); [|exact IH].
    right. right. left. reflexivity.
Qed.

(** The loop of [distribute_events] as a function of the dict it fills. *)
Lemma distribute_events_loop_invariant (w3 : Web3) (self : ContractsReader)
    (events_mixed : list event) (P : events_dict -> Prop) :
  (forall events, P events ->
     forall event, In event events_mixed -> P (append_event "Transfer" event events)) ->
  (forall events, P events ->
     forall raw tx_receipt log,
       In raw events_mixed ->
       get_transaction_receipt w3 (transactionHash raw) = Ok tx_receipt ->
       In log tx_receipt -> event_name log <> "Transfer" ->
       P (append_event (event_name log) log events)) ->
  forall events0, P events0 ->
  P (fst (for_each (fun event =>
            match get_transaction_receipt w3 (transactionHash event) with
            | Raise exc => raise exc
            | Ok tx_receipt =>
                distribute_by_topics self tx_receipt event (topics event)
            end) events_mixed events0)).
Proof.
  intros Htransfer Hrich events0 H0.
  apply for_each_invariant; [|exact H0].
  intros event events Hin HP.
  destruct (get_transaction_receipt w3 (transactionHash event)) as [tx_receipt|exc]
    eqn:Er; [|exact HP].
  destruct (distribute_by_topics_cases self tx_receipt event (topics event) events)
    as [->|[->|[->|(kind & log & Hk & Hlog & Hname & ->)]]]; cbn [fst];
    try exact HP.
  - apply Htransfer; assumption.
  - subst kind. apply (Hrich events HP event tx_receipt log); assumption.
Qed.

(** X5.  The event map made of a non-empty list of logs has exactly the
    five keys, in the order [Deposited], [Losses], [Redeemed], [Rewards],
    [Transfer]; an empty list gives the empty map, with no key at all. *)
Theorem distribute_events_keys (w3 : Web3) (self : ContractsReader)
    (events_mixed : list event) (events : events_dict) :
  distribute_events w3 self events_mixed = Ok events ->
  (events_mixed = [] /\ events = [])
  \/ (events_mixed <> []
      /\ map fst events = ["Deposited"; "Losses"; "Redeemed"; "Rewards"; "Transfer"]).
Proof.
  unfold distribute_events.
  destruct events_mixed as [|e0 rest]; [intros [= <-]; left; auto|].
  set (loop := for_each _ (e0 :: rest)).
  pose proof (distribute_events_loop_invariant w3 self (e0 :: rest)
                (fun events => map fst events = map fst empty_events)) as Hinv.
  cbv beta in Hinv. fold loop in Hinv.
  specialize (Hinv
    (fun events HP event _ => eq_trans (append_event_keys _ _ _) HP)
    (fun events HP raw tx_receipt log _ _ _ _ =>
       eq_trans (append_event_keys _ _ _) HP)
    empty_events eq_refl).
  destruct (loop empty_events) as [events' [[]|exc]]; [|discriminate].
  intros [= <-]. right. split; [discriminate | exact Hinv].
Qed.

Lemma distribute_events_keys_witness :
  map fst two_blocks_events = ["Deposited"; "Losses"; "Redeemed"; "Rewards"; "Transfer"].
Proof.
  destruct (distribute_events_keys two_blocks_provider
              (ContractsReader_init two_blocks_provider)
              [transfer_log_block_5; deposited_raw_log_block_10]
              two_blocks_events eq_refl) as [[H _]|[_ H]];
    [discriminate H | exact H].
Defined.

(** What the loop over the topics of one log does: nothing when no topic
    stands for a kind; otherwise the first topic that does decides. *)
Lemma distribute_by_topics_spec (self : ContractsReader) (tx_receipt : list event)
    (event : event) (topics : list string) (events : events_dict) :
  (Forall (fun t => kind_of_topic self t = None) topics
   /\ distribute_by_topics self tx_receipt event topics events = (events, Ok tt))
  \/ exists before topic after kind,
       topics = before ++ topic :: after
       /\ Forall (fun t => kind_of_topic self t = None) before
       /\ kind_of_topic self topic = Some kind
       /\ ((kind = "Transfer"
            /\ distribute_by_topics self tx_receipt event topics events
               = (append_event "Transfer" event events, Ok tt))
           \/ (kind <> "Transfer"
               /\ distribute_by_topics self tx_receipt event topics events
                  = append_rich_log kind tx_receipt (logIndex event) events)).
Proof.
  induction topics as [|topic topics IH]; cbn [distribute_by_topics].
  - left. split; [constructor | reflexivity].
  - destruct (kind_of_topic self topic) as [kind|] eqn:Ek.
    + right. exists [], topic, topics, kind.
      split; [reflexivity|]. split; [constructor|]. split; [exact Ek|].
      unfold kind_of_topic in Ek.
      destruct (String.eqb topic (deposited_event_hash self));
        [injection Ek as <-; right; split; [discriminate | reflexivity]|].
      destruct (String.eqb topic (losses_event_hash self));
        [injection Ek as <-; right; split; [discriminate | reflexivity]|].
      destruct (String.eqb topic (redeemed_event_hash self));
        [injection Ek as <-; right; split; [discriminate | reflexivity]|].
      destruct (String.eqb topic (rewards_event_hash self));
        [injection Ek as <-; right; split; [discriminate | reflexivity]|].
      destruct (String.eqb topic (transfer_event_hash self)); [|discriminate Ek].
      injection Ek as <-. left. split; reflexivity.
    + assert (Hskip : distribute_by_topics self tx_receipt event (topic :: topics) events
                      = distribute_by_topics self tx_receipt event topics events).
      { cbn [distribute_by_topics]. unfold kind_of_topic in Ek.
        destruct (String.eqb topic (deposited_event_hash self)); [discriminate Ek|].
        destruct (String.eqb topic (losses_event_hash self)); [discriminate Ek|].
        destruct (String.eqb topic (redeemed_event_hash self)); [discriminate Ek|].
        destruct (String.eqb topic (rewards_event_hash self)); [discriminate Ek|].
        destruct (String.eqb topic (transfer_event_hash self)); [discriminate Ek|].
        reflexivity. }
      cbn [distribute_by_topics] in Hskip. rewrite Hskip.
      destruct IH as [[Hnone Hres]|(before & t & after & kind & -> & Hb & Hk & Hres)].
      * left. split; [constructor; assumption | exact Hres].
      * right. exists (topic :: before), t, after, kind.
        split; [reflexivity|]. split; [constructor; assumption|].
        split; [exact Hk | exact Hres].
Qed.

(** X6.  Every log of the event map comes from the fetch.  An entry under a
    key comes from a raw log whose first topic that is one of the five
    hashes, at whatever position among its topics, is the hash of that key,
    the hashes being tested in the order [Deposited], [Losses], [Redeemed],
    [Rewards], [Transfer].  An entry under [Transfer] is that raw log
    itself; an entry under another key is, among the logs of that event
    decoded from the receipt of the transaction of the raw log, the one at
    the position that [find_log] gives for the log index of the raw log. *)
Theorem distribute_events_sound (w3 : Web3) (self : ContractsReader)
    (events_mixed : list event) (events : events_dict) :
  distribute_events w3 self events_mixed = Ok events ->
  forall kind l e,
    dict_get String.eqb kind events = Some l -> In e l ->
    classified_from w3 self events_mixed kind e.
Proof.
  unfold distribute_events.
  destruct events_mixed as [|e0 rest]; [intros [= <-]; discriminate|].
  set (loop := for_each _ (e0 :: rest)).
  set (P := fun events : events_dict =>
              forall kind l e,
                dict_get String.eqb kind events = Some l -> In e l ->
                classified_from w3 self (e0 :: rest) kind e).
  assert (Hstep : forall events kind0 log,
            P events ->
            classified_from w3 self (e0 :: rest) kind0 log ->
            P (append_event kind0 log events)).
  { intros evs kind0 log HP Hlog kind l e Hget Hin.
    apply (dict_get_update_inv String.eqb String.eqb_eq) in Hget
      as [(-> & l0 & Hget & ->)|(_ & Hget)].
    - apply in_app_or in Hin as [Hin|[<-|[]]]; [exact (HP _ _ _ Hget Hin) | exact Hlog].
    - exact (HP _ _ _ Hget Hin). }
  assert (H0 : P empty_events).
  { intros kind l e Hget Hin. exfalso. revert Hget. cbn.
    repeat (match goal with
            | |- context [String.eqb ?a ?b] => destruct (String.eqb a b)
            end; [intros [= <-]; destruct Hin|]).
    discriminate. }
  assert (Hinv : P (fst (loop empty_events))).
  { unfold loop. apply for_each_invariant; [|exact H0].
    intros raw evs Hraw HP.
    destruct (get_transaction_receipt w3 (transactionHash raw)) as [tx_receipt|exc]
      eqn:Er; [|exact HP].
    destruct (distribute_by_topics_spec self tx_receipt raw (topics raw) evs)
      as [[_ ->]|(before & topic & after & kind & Ht & Hb & Hk & Hres)];
      [exact HP|].
    assert (Hdec : decided_by self raw kind) by (exists before, topic, after; auto).
    destruct Hres as [[-> ->]|[Hne ->]]; cbn [fst].
    - apply Hstep; [exact HP|]. exists raw. auto.
    - unfold append_rich_log.
      destruct (nth_error (processReceipt kind tx_receipt)
                  (find_log (processReceipt kind tx_receipt) (logIndex raw)))
        as [log|] eqn:En; [|exact HP].
      unfold modify. cbn [fst]. apply Hstep; [exact HP|].
      exists raw. split; [exact Hraw|]. split; [exact Hdec|].
      right. split; [exact Hne|]. exists tx_receipt. auto. }
  destruct (loop empty_events) as [events' [[]|exc]]; [|discriminate].
  intros [= <-]. exact Hinv.
Qed.

Lemma distribute_events_sound_witness :
  classified_from two_blocks_provider (ContractsReader_init two_blocks_provider)
                  [transfer_log_block_5; deposited_raw_log_block_10]
                  "Deposited" deposited_log_block_10.
Proof.
  apply (distribute_events_sound two_blocks_provider
           (ContractsReader_init two_blocks_provider)
           [transfer_log_block_5; deposited_raw_log_block_10]
           two_blocks_events eq_refl "Deposited" [deposited_log_block_10]);
    [reflexivity | left; reflexivity].
Defined.

(** X7.  A receipt that cannot be fetched fails the whole classification,
    whatever the log it belongs to, a [Transfer] log or a log of no known
    topic included: no event map is returned. *)
Theorem distribute_events_needs_every_receipt (w3 : Web3) (self : ContractsReader)
    (events_mixed : list event) (raw : event) (exc : exn) :
  In raw events_mixed ->
  get_transaction_receipt w3 (transactionHash raw) = Raise exc ->
  exists exc', distribute_events w3 self events_mixed = Raise exc'.
Proof.
  intros Hin Hr. unfold distribute_events.
  destruct events_mixed as [|e0 rest]; [destruct Hin|].
  set (body := fun event0 : event =>
                 match get_transaction_receipt w3 (transactionHash event0) with
                 | Raise exc0 => raise exc0
                 | Ok tx_receipt =>
                     distribute_by_topics self tx_receipt event0 (topics event0)
                 end).
  assert (H : forall l events, In raw l ->
                exists exc', snd (for_each body l events) = Raise exc').
  { induction l as [|x l IH]; intros events Hl; [destruct Hl|].
    cbn [for_each]. unfold bind.
    destruct (body x events) as [s1 [[]|exc1]] eqn:Eb; cbn [snd]; [|eauto].
    destruct Hl as [->|Hl]; [|apply IH, Hl].
    unfold body in Eb. rewrite Hr in Eb. discriminate Eb. }
  destruct (H (e0 :: rest) empty_events Hin) as [exc' Hexc].
  fold body. destruct (for_each body (e0 :: rest) empty_events) as [s r].
  cbn in Hexc. subst r. eauto.
Qed.

Lemma distribute_events_needs_every_receipt_witness :
  exists exc',
    distribute_events provider_without_receipts
                      (ContractsReader_init provider_without_receipts)
                      [transfer_log_block_5] = Raise exc'.
Proof.
  apply (distribute_events_needs_every_receipt provider_without_receipts _
           [transfer_log_block_5] transfer_log_block_5 (ValueError None));
    [left; reflexivity | reflexivity].
Defined.

(** ** Grouping by block *)

(** The walk of [distribute_events_by_blocks] over the keys [keys], from the
    dict [d0]. *)
Lemma distribute_events_by_blocks_flat (keys : list string) (events : events_dict)
    (d0 : blocks_dict) :
  fold_left
    (fun distributed_events (entry : string * list event) =>
       fold_left (add_event_to_block keys (fst entry)) (snd entry) distributed_events)
    events d0
  = fold_left (fun d (p : string * event) => add_event_to_block keys (fst p) d (snd p))
              (flat_map (fun entry => map (pair (fst entry)) (snd entry)) events) d0.
Proof.
  revert d0. induction events as [|[key evs] events IH]; intros d0; [reflexivity|].
  cbn [fold_left flat_map fst snd]. rewrite fold_left_app, IH. f_equal.
  clear IH. revert d0. induction evs as [|e evs IHe]; intros d0; [reflexivity|].
  cbn [fold_left map fst snd]. apply IHe.
Qed.

Lemma flat_pairs_events (events : events_dict) :
  map snd (flat_map (fun entry : string * list event =>
                       map (pair (fst entry)) (snd entry)) events)
  = in_kind_order events.
Proof.
  unfold in_kind_order. induction events as [|[key evs] events IH]; [reflexivity|].
  cbn [flat_map fst snd]. rewrite map_app, IH, map_map. cbn [snd].
  rewrite map_id. reflexivity.
Qed.

Lemma add_event_to_block_keys (keys : list string) (key : string)
    (d : blocks_dict) (e : event) :
  map fst (add_event_to_block keys key d e)
  = if existsb (Z.eqb (blockNumber e)) (map fst d) then map fst d
    else map fst d ++ [blockNumber e].
Proof.
  unfold add_event_to_block. rewrite dict_update_keys.
  destruct (dict_mem Z.eqb (blockNumber e) d) eqn:Em.
  - apply (dict_mem_in_keys Z.eqb Z.eqb_eq) in Em.
    assert (H : existsb (Z.eqb (blockNumber e)) (map fst d) = true).
    { apply existsb_exists. exists (blockNumber e). split; [exact Em | apply Z.eqb_refl]. }
    rewrite H. reflexivity.
  - assert (H : existsb (Z.eqb (blockNumber e)) (map fst d) = false).
    { apply not_true_iff_false. intros H. apply existsb_exists in H as (b & Hb & Heq).
      apply Z.eqb_eq in Heq. subst b.
      apply (dict_mem_in_keys Z.eqb Z.eqb_eq) in Hb. congruence. }
    rewrite H. unfold dict_add. rewrite map_app. reflexivity.
Qed.

Lemma filter_filter_and {A : Type} (p q : A -> bool) (l : list A) :
  List.filter p (List.filter q l) = List.filter (fun x => q x && p x) l.
Proof.
  induction l as [|x l IH]; [reflexivity|]. cbn [List.filter].
  destruct (q x); cbn [List.filter andb]; [destruct (p x)|]; rewrite IH; reflexivity.
Qed.

(** Adding the blocks of [l] to the blocks [seen], each once, in order. *)
Lemma add_blocks_first_occurrences (l seen : list Z) :
  fold_left (fun seen x => if existsb (Z.eqb x) seen then seen else seen ++ [x]) l seen
  = seen ++ List.filter (fun y => negb (existsb (Z.eqb y) seen)) (first_occurrences l).
Proof.
  revert seen. induction l as [|x l IH]; intros seen.
  - cbn. rewrite app_nil_r. reflexivity.
  - cbn [fold_left first_occurrences List.filter]. rewrite IH.
    destruct (existsb (Z.eqb x) seen) eqn:Ex; cbn [negb].
    + f_equal. rewrite filter_filter_and. apply filter_ext_in. intros y _.
      destruct (y =? x) eqn:Eyx; cbn [negb andb]; [|reflexivity].
      apply Z.eqb_eq in Eyx. subst y. rewrite Ex. reflexivity.
    + rewrite <- app_assoc. cbn [app]. f_equal. f_equal.
      rewrite filter_filter_and. apply filter_ext_in. intros y _.
      rewrite existsb_app. cbn [existsb]. rewrite orb_false_r, negb_orb.
      rewrite (Z.eqb_sym y x). apply andb_comm.
Qed.

Lemma distribute_events_by_blocks_keys (events : events_dict) :
  map fst (distribute_events_by_blocks events)
  = first_occurrences (map blockNumber (in_kind_order events)).
Proof.
  unfold distribute_events_by_blocks.
  rewrite distribute_events_by_blocks_flat, <- flat_pairs_events.
  set (keys := map fst events).
  set (pairs := flat_map _ events).
  assert (H : forall d0,
            map fst (fold_left (fun d (p : string * event) =>
                                  add_event_to_block keys (fst p) d (snd p)) pairs d0)
            = fold_left (fun seen x => if existsb (Z.eqb x) seen then seen
                                       else seen ++ [x])
                        (map blockNumber (map snd pairs)) (map fst d0)).
  { clearbody pairs. induction pairs as [|p pairs IH]; intros d0; [reflexivity|].
    cbn [fold_left map]. rewrite IH, add_event_to_block_keys. reflexivity. }
  rewrite H, add_blocks_first_occurrences. cbn [map app existsb negb].
  clear. induction (first_occurrences (map blockNumber (map snd pairs))) as [|x l IH];
    cbn; congruence.
Qed.

Lemma first_occurrences_in (l : list Z) (x : Z) :
  In x (first_occurrences l) <-> In x l.
Proof.
  induction l as [|y l IH]; [reflexivity|].
  cbn [first_occurrences In]. rewrite filter_In, IH, negb_true_iff, Z.eqb_neq.
  destruct (Z.eq_dec y x) as [->|Hne]; [tauto|].
  split; [intros [H|[H _]]; auto | intros [H|H]; auto].
Qed.

Lemma first_occurrences_nodup (l : list Z) : NoDup (first_occurrences l).
Proof.
  induction l as [|y l IH]; [constructor|].
  cbn [first_occurrences]. constructor.
  - rewrite filter_In, negb_true_iff, Z.eqb_neq. tauto.
  - apply NoDup_filter, IH.
Qed.

Lemma strongly_sorted_filter {A : Type} (R : A -> A -> Prop) (p : A -> bool)
    (l : list A) :
  StronglySorted R l -> StronglySorted R (List.filter p l).
Proof.
  induction 1 as [|x l Hl IH Hx]; [constructor|].
  cbn [List.filter]. destruct (p x); [|exact IH].
  constructor; [exact IH|].
  rewrite Forall_forall in *. intros y Hy. apply filter_In in Hy as [Hy _]. auto.
Qed.

Lemma first_occurrences_sorted (l : list Z) :
  StronglySorted Z.le l -> StronglySorted Z.lt (first_occurrences l).
Proof.
  induction 1 as [|y l Hl IH Hy]; [constructor|].
  cbn [first_occurrences]. constructor.
  - apply strongly_sorted_filter, IH.
  - apply Forall_forall. intros x Hx.
    apply filter_In in Hx as [Hx Hne].
    apply negb_true_iff, Z.eqb_neq in Hne.
    apply (proj1 (first_occurrences_in _ _)) in Hx. rewrite Forall_forall in Hy.
    specialize (Hy x Hx). lia.
Qed.

(** X8.  The blocks are grouped, and later folded, in the order in which
    they are first met when the event map is walked key by key, each key's
    events in order: a block appears at the place of its first event in
    that walk, once, and the blocks that appear are those that hold an
    event. *)
Theorem distribute_events_by_blocks_order (events : events_dict) :
  map fst (distribute_events_by_blocks events)
  = first_occurrences (map blockNumber (in_kind_order events))
  /\ NoDup (map fst (distribute_events_by_blocks events))
  /\ forall b, In b (map fst (distribute_events_by_blocks events))
               <-> exists e, In e (in_kind_order events) /\ blockNumber e = b.
Proof.
  rewrite distribute_events_by_blocks_keys.
  split; [reflexivity|]. split; [apply first_occurrences_nodup|].
  intros b. rewrite first_occurrences_in, in_map_iff.
  split; intros (e & H1 & H2); exists e; auto.
Qed.

(** X9.  When the events, taken key after key, come in non-decreasing block
    order (as they do when the events of a range are all of one kind, the
    filter having sorted them), the blocks are folded in strictly
    ascending order. *)
Theorem distribute_events_by_blocks_ascending (events : events_dict) :
  StronglySorted Z.le (map blockNumber (in_kind_order events)) ->
  StronglySorted Z.lt (map fst (distribute_events_by_blocks events)).
Proof.
  intros Hs. rewrite distribute_events_by_blocks_keys.
  apply first_occurrences_sorted, Hs.
Qed.

Lemma distribute_events_by_blocks_ascending_witness :
  map fst (distribute_events_by_blocks deposits_only) = [3; 8]
  /\ StronglySorted Z.lt (map fst (distribute_events_by_blocks deposits_only)).
Proof.
  split; [reflexivity|].
  apply distribute_events_by_blocks_ascending.
  repeat (constructor; [|repeat constructor; cbn; lia]). constructor.
Defined.

Lemma dict_update_in {K V : Type} (eqb : K -> K -> bool) (k : K) (f : V -> V)
    (d : list (K * V)) (k1 : K) (v1 : V) :
  In (k1, v1) (dict_update eqb k f d) ->
  exists v0, In (k1, v0) d /\ (v1 = v0 \/ v1 = f v0).
Proof.
  induction d as [|[k' v] d IH]; [intros []|].
  cbn [dict_update]. destruct (eqb k k').
  - intros [[= <- <-]|Hin]; [exists v | exists v1]; cbn; auto.
  - intros [[= <- <-]|Hin]; [exists v; cbn; auto|].
    destruct (IH Hin) as (v0 & H0 & H1). exists v0. cbn. auto.
Qed.

Lemma dict_get_of_in {K V : Type} (eqb : K -> K -> bool)
    (eqb_eq : forall a b, eqb a b = true <-> a = b)
    (d : list (K * V)) (k : K) (v : V) :
  NoDup (map fst d) -> In (k, v) d -> dict_get eqb k d = Some v.
Proof.
  induction d as [|[k' v'] d IH]; [intros _ []|].
  cbn [map fst dict_get]. intros Hnd Hin. inversion Hnd as [|? ? Hnotin Hnd']; subst.
  destruct Hin as [[= -> ->]|Hin].
  - rewrite (proj2 (eqb_eq k k) eq_refl). reflexivity.
  - destruct (eqb k k') eqn:E; [|apply IH; assumption].
    apply eqb_eq in E. subst k'. exfalso. apply Hnotin.
    apply in_map_iff. exists (k, v). auto.
Qed.

Lemma empty_group_get (keys : list string) (k : string) :
  In k keys ->
  dict_get String.eqb k (map (fun k0 => (k0, @nil event)) keys) = Some [].
Proof.
  induction keys as [|k0 keys IH]; [intros []|].
  cbn [map dict_get]. destruct (String.eqb k k0) eqn:E; [reflexivity|].
  intros [->|Hin]; [rewrite String.eqb_refl in E; discriminate | exact (IH Hin)].
Qed.

Lemma filter_none {A : Type} (p : A -> bool) (l : list A) :
  (forall x, In x l -> p x = false) -> List.filter p l = [].
Proof.
  induction l as [|x l IH]; intros H; [reflexivity|].
  cbn [List.filter]. rewrite (H x (or_introl eq_refl)).
  apply IH. intros y Hy. apply H. right. exact Hy.
Qed.

(** The events of key [k] and block [b] among the pairs walked so far. *)
Lemma add_event_to_block_groups (keys : list string) (k0 : string) (e : event)
    (d : blocks_dict) (done : list (string * event)) :
  (forall p, In p done -> In (blockNumber (snd p)) (map fst d)) ->
  (forall b grp, dict_get Z.eqb b d = Some grp ->
     forall k, In k keys ->
       dict_get String.eqb k grp
       = Some (map snd (List.filter
                          (fun p => String.eqb (fst p) k && (blockNumber (snd p) =? b))
                          done))) ->
  (forall p, In p (done ++ [(k0, e)]) ->
     In (blockNumber (snd p)) (map fst (add_event_to_block keys k0 d e)))
  /\ (forall b grp, dict_get Z.eqb b (add_event_to_block keys k0 d e) = Some grp ->
        forall k, In k keys ->
          dict_get String.eqb k grp
          = Some (map snd (List.filter
                             (fun p => String.eqb (fst p) k && (blockNumber (snd p) =? b))
                             (done ++ [(k0, e)])))).
Proof.
  intros Hc Hg.
  assert (Hkeys : forall b, In b (map fst (add_event_to_block keys k0 d e))
                            <-> In b (map fst d) \/ b = blockNumber e).
  { intros b. rewrite add_event_to_block_keys.
    destruct (existsb (Z.eqb (blockNumber e)) (map fst d)) eqn:Ex.
    - apply existsb_exists in Ex as (b' & Hb' & Heq). apply Z.eqb_eq in Heq. subst b'.
      split; [auto | intros [H| ->]; assumption].
    - rewrite in_app_iff. cbn. split; [intros [H|[H|[]]]; auto | intros [H|H]; auto]. }
  split.
  { intros p Hp. apply Hkeys. apply in_app_or in Hp as [Hp|[<-|[]]]; [left; auto | right; reflexivity]. }
  intros b grp Hget k Hk. rewrite filter_app, map_app. cbn [List.filter fst snd].
  unfold add_event_to_block in Hget.
  apply (dict_get_update_inv Z.eqb Z.eqb_eq) in Hget
    as [(-> & grp0 & Hget0 & ->)|(Hne & Hget0)].
  - (* the block of the new event *)
    assert (Hgrp0 : dict_get String.eqb k grp0
                    = Some (map snd (List.filter
                              (fun p => String.eqb (fst p) k
                                        && (blockNumber (snd p) =? blockNumber e))
                              done))).
    { destruct (dict_mem Z.eqb (blockNumber e) d) eqn:Em.
      - exact (Hg _ _ Hget0 k Hk).
      - assert (Hnone : dict_get Z.eqb (blockNumber e) d = None).
        { unfold dict_mem in Em. destruct (dict_get Z.eqb (blockNumber e) d);
            [discriminate | reflexivity]. }
        unfold dict_add in Hget0.
        rewrite (dict_get_app_absent Z.eqb _ _ _ Hnone) in Hget0.
        cbn in Hget0. rewrite Z.eqb_refl in Hget0. injection Hget0 as <-.
        rewrite (empty_group_get keys k Hk). f_equal.
        rewrite filter_none; [reflexivity|].
        intros p Hp. apply andb_false_iff. right. apply Z.eqb_neq. intros Heq.
        pose proof (Hc p Hp) as Hin. rewrite Heq in Hin.
        apply (dict_mem_in_keys Z.eqb Z.eqb_eq) in Hin. congruence. }
    rewrite Z.eqb_refl, andb_true_r.
    destruct (String.eqb k0 k) eqn:Ek.
    + apply String.eqb_eq in Ek. subst k0. unfold append_event.
      rewrite (dict_get_update_same String.eqb k _ _ _ Hgrp0).
      cbn [map snd]. reflexivity.
    + unfold append_event.
      rewrite (dict_get_update_other String.eqb String.eqb_eq);
        [|intros ->; rewrite String.eqb_refl in Ek; discriminate].
      rewrite Hgrp0, app_nil_r. reflexivity.
  - (* another block *)
    assert (Hb : (blockNumber e =? b) = false) by (apply Z.eqb_neq; congruence).
    rewrite Hb, andb_false_r, app_nil_r.
    apply (Hg b grp); [|exact Hk].
    destruct (dict_mem Z.eqb (blockNumber e) d); [exact Hget0|].
    unfold dict_add in Hget0.
    destruct (dict_get Z.eqb b d) as [g|] eqn:Eg.
    + rewrite (dict_get_app_present Z.eqb _ _ _ _ Eg) in Hget0. exact Hget0.
    + rewrite (dict_get_app_absent Z.eqb _ _ _ Eg) in Hget0. cbn in Hget0.
      destruct (b =? blockNumber e) eqn:Eb; [|discriminate].
      apply Z.eqb_eq in Eb. congruence.
Qed.

Lemma add_event_to_block_group_keys (keys : list string) (k0 : string) (e : event)
    (d : blocks_dict) :
  (forall b grp, In (b, grp) d -> map fst grp = keys) ->
  forall b grp, In (b, grp) (add_event_to_block keys k0 d e) -> map fst grp = keys.
Proof.
  intros Hd b grp Hin. unfold add_event_to_block in Hin.
  apply dict_update_in in Hin as (grp0 & Hin0 & Hgrp).
  assert (H0 : map fst grp0 = keys).
  { destruct (dict_mem Z.eqb (blockNumber e) d); [exact (Hd _ _ Hin0)|].
    unfold dict_add in Hin0. apply in_app_or in Hin0 as [Hin0|[[= _ <-]|[]]];
      [exact (Hd _ _ Hin0)|].
    rewrite map_map. cbn [fst]. apply map_id. }
  destruct Hgrp as [->| ->]; [exact H0|].
  rewrite append_event_keys. exact H0.
Qed.

Lemma pairs_of_key (events : events_dict) (kind : string) (evs : list event)
    (b : Z) :
  NoDup (map fst events) -> In (kind, evs) events ->
  map snd (List.filter
             (fun p : string * event =>
                String.eqb (fst p) kind && (blockNumber (snd p) =? b))
             (flat_map (fun entry : string * list event =>
                          map (pair (fst entry)) (snd entry)) events))
  = List.filter (fun e => blockNumber e =? b) evs.
Proof.
  assert (Hmap : forall key l,
            map snd (List.filter
                       (fun p : string * event =>
                          String.eqb (fst p) kind && (blockNumber (snd p) =? b))
                       (map (pair key) l))
            = if String.eqb key kind then List.filter (fun e => blockNumber e =? b) l
              else []).
  { intros key l. induction l as [|e l IH]; [destruct (String.eqb key kind); reflexivity|].
    cbn [map List.filter fst snd]. destruct (String.eqb key kind) eqn:E; cbn [andb].
    - destruct (blockNumber e =? b); cbn [map snd]; rewrite IH; reflexivity.
    - exact IH. }
  assert (Habsent : forall evs0 : events_dict,
            ~ In kind (map fst evs0) ->
            List.filter (fun p : string * event =>
                           String.eqb (fst p) kind && (blockNumber (snd p) =? b))
                        (flat_map (fun entry : string * list event =>
                                     map (pair (fst entry)) (snd entry)) evs0) = []).
  { intros evs0 Hnot. apply filter_none. intros p Hp.
    apply in_flat_map in Hp as ([key l] & Hentry & Hp). cbn [fst snd] in Hp.
    apply in_map_iff in Hp as (e & <- & _). cbn [fst].
    apply andb_false_iff. left. apply String.eqb_neq. intros ->.
    apply Hnot. apply in_map_iff. exists (kind, l). auto. }
  induction events as [|[key l] events IH]; [intros _ []|].
  cbn [map fst flat_map snd]. intros Hnd Hin.
  inversion Hnd as [|? ? Hnotin Hnd']; subst.
  rewrite filter_app, map_app, Hmap.
  destruct Hin as [[= -> ->]|Hin].
  - rewrite String.eqb_refl, (Habsent events Hnotin). cbn [map]. apply app_nil_r.
  - destruct (String.eqb key kind) eqn:E; [|exact (IH Hnd' Hin)].
    apply String.eqb_eq in E. subst key. exfalso. apply Hnotin.
    apply in_map_iff. exists (kind, evs). auto.
Qed.

(** X10.  In the grouping of an event map, the group of a block carries
    every key of the map, and under each key the events of that key that
    are of that block, in their order: no event is lost, duplicated or
    moved to another block or key. *)
Theorem distribute_events_by_blocks_groups (events : events_dict) :
  NoDup (map fst events) ->
  forall b grp,
    In (b, grp) (distribute_events_by_blocks events) ->
    map fst grp = map fst events
    /\ forall kind evs,
         In (kind, evs) events ->
         dict_get String.eqb kind grp
         = Some (List.filter (fun e => blockNumber e =? b) evs).
Proof.
  intros Hnd b grp Hin.
  assert (Hndb : NoDup (map fst (distribute_events_by_blocks events))).
  { rewrite distribute_events_by_blocks_keys. apply first_occurrences_nodup. }
  unfold distribute_events_by_blocks in *.
  rewrite distribute_events_by_blocks_flat in *.
  set (keys := map fst events) in *.
  set (pairs := flat_map _ events) in *.
  set (step := fun (d : blocks_dict) (p : string * event) =>
                 add_event_to_block keys (fst p) d (snd p)) in *.
  split.
  - assert (H : forall l d, (forall b grp, In (b, grp) d -> map fst grp = keys) ->
                  forall b grp, In (b, grp) (fold_left step l d) -> map fst grp = keys).
    { induction l as [|p l IH]; intros d Hd; [exact Hd|].
      cbn [fold_left]. apply IH. unfold step.
      apply add_event_to_block_group_keys, Hd. }
    apply (H pairs [] ltac:(intros ? ? []) b grp Hin).
  - intros kind evs Hkind.
    assert (H : forall l d done,
              (forall p, In p done -> In (blockNumber (snd p)) (map fst d)) ->
              (forall b grp, dict_get Z.eqb b d = Some grp ->
                 forall k, In k keys ->
                   dict_get String.eqb k grp
                   = Some (map snd (List.filter
                             (fun p => String.eqb (fst p) k && (blockNumber (snd p) =? b))
                             done))) ->
              forall b grp, dict_get Z.eqb b (fold_left step l d) = Some grp ->
                forall k, In k keys ->
                  dict_get String.eqb k grp
                  = Some (map snd (List.filter
                            (fun p => String.eqb (fst p) k && (blockNumber (snd p) =? b))
                            (done ++ l)))).
    { induction l as [|p l IH]; intros d done Hc Hg.
      - rewrite app_nil_r. exact Hg.
      - cbn [fold_left].
        destruct (add_event_to_block_groups keys (fst p) (snd p) d done Hc Hg)
          as [Hc' Hg'].
        replace (done ++ p :: l) with ((done ++ [(fst p, snd p)]) ++ l)
          by (rewrite <- app_assoc; destruct p; reflexivity).
        apply (IH _ _ Hc' Hg'). }
    rewrite <- (pairs_of_key events kind evs b Hnd Hkind).
    apply (H pairs [] [] ltac:(intros ? []) ltac:(intros ? ? [=]) b grp).
    + apply (dict_get_of_in Z.eqb Z.eqb_eq); assumption.
    + apply in_map_iff. exists (kind, evs). auto.
Qed.

Lemma distribute_events_by_blocks_groups_witness :
  exists grp,
    In (5, grp) (distribute_events_by_blocks two_blocks_events)
    /\ dict_get String.eqb "Transfer" grp = Some [transfer_log_block_5]
    /\ dict_get String.eqb "Deposited" grp = Some [].
Proof.
  eexists. split; [right; left; reflexivity|].
  assert (Hnd : NoDup (map fst two_blocks_events)).
  { repeat (constructor; [cbn; intuition discriminate|]). constructor. }
  destruct (distribute_events_by_blocks_groups two_blocks_events Hnd 5 _
              (or_intror (or_introl eq_refl))) as [_ H].
  split.
  - apply (H "Transfer" [transfer_log_block_5]). cbn. auto 6.
  - apply (H "Deposited" [deposited_log_block_10]). cbn. auto.
Defined.

(** ** The fold of one block *)

Lemma arg_int_some {S : Type} (name : string) (e : event) (n : Z) (s : S) :
  arg_int_opt name e = Some n -> arg_int name e s = (s, Ok n).
Proof.
  unfold arg_int_opt, arg_int.
  destruct (dict_get String.eqb name (args e)) as [[m|a]|]; [|discriminate..].
  intros [= ->]. reflexivity.
Qed.

Lemma arg_int_none {S : Type} (name : string) (e : event) (s : S) :
  arg_int_opt name e = None -> arg_int name e s = (s, Raise TypeError).
Proof.
  unfold arg_int_opt, arg_int.
  destruct (dict_get String.eqb name (args e)) as [[m|a]|]; [discriminate|reflexivity..].
Qed.

Lemma bind_ok {S A B : Type} (m : M S A) (k : A -> M S B) (s s1 : S) (a : A) :
  m s = (s1, Ok a) -> bind m k s = k a s1.
Proof. intros H. unfold bind. rewrite H. reflexivity. Qed.

Lemma bind_raise {S A B : Type} (m : M S A) (k : A -> M S B) (s s1 : S) (exc : exn) :
  m s = (s1, Raise exc) -> bind m k s = (s1, Raise exc).
Proof. intros H. unfold bind. rewrite H. reflexivity. Qed.

Lemma deposited_loop (l : list event) (s : AggregatedMetricsExporter) :
  let out := for_each (fun event =>
                         amount <- arg_int "amount" event ;;
                         modify (fun s => set_deposited (deposited s + amount) s))
                      l s in
  fields_beside_deposits (fst out) = fields_beside_deposits s
  /\ deposited_events_num (fst out) = deposited_events_num s
  /\ redeemed_events_num (fst out) = redeemed_events_num s
  /\ redeemed (fst out) = redeemed s
  /\ (Forall (fun e => arg_int_opt "amount" e <> None) l ->
      snd out = Ok tt /\ deposited (fst out) = deposited s + total_of "amount" l)
  /\ (Exists (fun e => arg_int_opt "amount" e = None) l -> snd out = Raise TypeError).
Proof.
  cbv zeta. revert s. induction l as [|e l IH]; intros s; cbn [for_each].
  - cbn. split; [reflexivity|]. split; [reflexivity|]. split; [reflexivity|].
    split; [reflexivity|]. split; [intros _; split; [reflexivity | lia]|].
    intros H. inversion H.
  - destruct (arg_int_opt "amount" e) as [n|] eqn:En.
    + erewrite bind_ok;
        [|erewrite bind_ok; [|apply arg_int_some, En]; reflexivity].
      specialize (IH (set_deposited (deposited s + n) s)).
      destruct (for_each _ l (set_deposited (deposited s + n) s)) as [s' r].
      cbn [fst snd] in *. destruct IH as (H1 & H2 & H3 & H4 & H5 & H6).
      split; [exact H1|]. split; [exact H2|]. split; [exact H3|].
      split; [exact H4|]. split.
      * intros Hall. inversion Hall as [|? ? ? Hl]; subst.
        destruct (H5 Hl) as [-> ->]. split; [reflexivity|].
        cbn [deposited set_deposited].
        change (total_of "amount" (e :: l))
          with (amount_of "amount" e + total_of "amount" l).
        unfold amount_of. rewrite En. lia.
      * intros Hex. inversion Hex as [? ? He|? ? Hl]; subst; [congruence | auto].
    + erewrite bind_raise;
        [|erewrite bind_raise; [|apply arg_int_none, En]; reflexivity].
      cbn [fst snd].
      split; [reflexivity|]. split; [reflexivity|]. split; [reflexivity|].
      split; [reflexivity|]. split; [|intros _; reflexivity].
      intros Hall. inversion Hall; subst. congruence.
Qed.

Lemma redeemed_loop (l : list event) (s : AggregatedMetricsExporter) :
  let out := for_each (fun event =>
                         amount <- arg_int "amount" event ;;
                         modify (fun s => set_redeemed (redeemed s + amount) s))
                      l s in
  fields_beside_deposits (fst out) = fields_beside_deposits s
  /\ deposited_events_num (fst out) = deposited_events_num s
  /\ redeemed_events_num (fst out) = redeemed_events_num s
  /\ deposited (fst out) = deposited s
  /\ (Forall (fun e => arg_int_opt "amount" e <> None) l ->
      snd out = Ok tt /\ redeemed (fst out) = redeemed s + total_of "amount" l)
  /\ (Exists (fun e => arg_int_opt "amount" e = None) l -> snd out = Raise TypeError).
Proof.
  cbv zeta. revert s. induction l as [|e l IH]; intros s; cbn [for_each].
  - cbn. split; [reflexivity|]. split; [reflexivity|]. split; [reflexivity|].
    split; [reflexivity|]. split; [intros _; split; [reflexivity | lia]|].
    intros H. inversion H.
  - destruct (arg_int_opt "amount" e) as [n|] eqn:En.
    + erewrite bind_ok;
        [|erewrite bind_ok; [|apply arg_int_some, En]; reflexivity].
      specialize (IH (set_redeemed (redeemed s + n) s)).
      destruct (for_each _ l (set_redeemed (redeemed s + n) s)) as [s' r].
      cbn [fst snd] in *. destruct IH as (H1 & H2 & H3 & H4 & H5 & H6).
      split; [exact H1|]. split; [exact H2|]. split; [exact H3|].
      split; [exact H4|]. split.
      * intros Hall. inversion Hall as [|? ? ? Hl]; subst.
        destruct (H5 Hl) as [-> ->]. split; [reflexivity|].
        cbn [redeemed set_redeemed].
        change (total_of "amount" (e :: l))
          with (amount_of "amount" e + total_of "amount" l).
        unfold amount_of. rewrite En. lia.
      * intros Hex. inversion Hex as [? ? He|? ? Hl]; subst; [congruence | auto].
    + erewrite bind_raise;
        [|erewrite bind_raise; [|apply arg_int_none, En]; reflexivity].
      cbn [fst snd].
      split; [reflexivity|]. split; [reflexivity|]. split; [reflexivity|].
      split; [reflexivity|]. split; [|intros _; reflexivity].
      intros Hall. inversion Hall; subst. congruence.
Qed.

Lemma process_deposited_and_redeemed_unfold (events : events_dict)
    (dep red : list event) (s : AggregatedMetricsExporter) :
  dict_get String.eqb "Deposited" events = Some dep ->
  dict_get String.eqb "Redeemed" events = Some red ->
  _process_deposited_and_redeemed_events events s
  = let s1 := set_redeemed_events_num
                (redeemed_events_num s + Z.of_nat (List.length red))
                (set_deposited_events_num
                   (deposited_events_num s + Z.of_nat (List.length dep)) s) in
    bind (for_each (fun event =>
                      amount <- arg_int "amount" event ;;
                      modify (fun s => set_deposited (deposited s + amount) s)) dep)
         (fun _ =>
            for_each (fun event =>
                        amount <- arg_int "amount" event ;;
                        modify (fun s => set_redeemed (redeemed s + amount) s)) red)
         s1.
Proof.
  intros Hd Hr. unfold _process_deposited_and_redeemed_events, events_at.
  rewrite Hd, Hr. reflexivity.
Qed.

(** X11.  Folding the [Deposited] and [Redeemed] events of a block, each
    carrying an integer amount, adds the number of events to the two counts
    and the sum of the amounts to the two totals, and writes nothing else. *)
Theorem process_deposited_and_redeemed_totals (events : events_dict)
    (dep red : list event) (s : AggregatedMetricsExporter) :
  dict_get String.eqb "Deposited" events = Some dep ->
  dict_get String.eqb "Redeemed" events = Some red ->
  Forall (fun e => arg_int_opt "amount" e <> None) dep ->
  Forall (fun e => arg_int_opt "amount" e <> None) red ->
  let out := _process_deposited_and_redeemed_events events s in
  snd out = Ok tt
  /\ deposited (fst out) = deposited s + total_of "amount" dep
  /\ deposited_events_num (fst out)
     = deposited_events_num s + Z.of_nat (List.length dep)
  /\ redeemed (fst out) = redeemed s + total_of "amount" red
  /\ redeemed_events_num (fst out)
     = redeemed_events_num s + Z.of_nat (List.length red)
  /\ fields_beside_deposits (fst out) = fields_beside_deposits s.
Proof.
  intros Hd Hr Hdep Hred.
  rewrite (process_deposited_and_redeemed_unfold _ _ _ _ Hd Hr). cbv zeta.
  set (s1 := set_redeemed_events_num _ _).
  destruct (deposited_loop dep s1) as (D1 & D2 & D3 & D4 & D5 & _).
  destruct (D5 Hdep) as [Dok Dsum].
  destruct (for_each _ dep s1) as [s2 r2] eqn:E2. cbn [fst snd] in *. subst r2.
  erewrite bind_ok by exact E2.
  destruct (redeemed_loop red s2) as (R1 & R2 & R3 & R4 & R5 & _).
  destruct (R5 Hred) as [Rok Rsum].
  destruct (for_each _ red s2) as [s3 r3]. cbn [fst snd] in *.
  split; [exact Rok|].
  split; [rewrite R4, Dsum; reflexivity|].
  split; [rewrite R2, D2; reflexivity|].
  split; [rewrite Rsum, D4; reflexivity|].
  split; [rewrite R3, D3; reflexivity|].
  rewrite R1, D1. reflexivity.
Qed.

Lemma process_deposited_and_redeemed_totals_witness :
  let s := AggregatedMetricsExporter_init two_blocks_provider empty_database
                                          default_params in
  let out := _process_deposited_and_redeemed_events deposit_and_redeem s in
  snd out = Ok tt
  /\ deposited (fst out) = 50 /\ deposited_events_num (fst out) = 1
  /\ redeemed (fst out) = 20 /\ redeemed_events_num (fst out) = 1.
Proof.
  intros s out.
  destruct (process_deposited_and_redeemed_totals deposit_and_redeem
              [deposited_log_block_10]
              [mkEvent "Redeemed" [("amount", AInt 20)] 10 1 [] "0xtx11"] s
              eq_refl eq_refl) as (H1 & H2 & H3 & H4 & H5 & _).
  - constructor; [discriminate | constructor].
  - constructor; [discriminate | constructor].
  - auto.
Defined.

(** X12.  An event without an integer amount makes the fold of the
    [Deposited] and [Redeemed] events raise [TypeError], and by then both
    counts have been raised by the full number of events of the block,
    whichever amounts were added. *)
Theorem process_deposited_and_redeemed_type_error (events : events_dict)
    (dep red : list event) (s : AggregatedMetricsExporter) :
  dict_get String.eqb "Deposited" events = Some dep ->
  dict_get String.eqb "Redeemed" events = Some red ->
  Exists (fun e => arg_int_opt "amount" e = None) (dep ++ red) ->
  let out := _process_deposited_and_redeemed_events events s in
  snd out = Raise TypeError
  /\ deposited_events_num (fst out)
     = deposited_events_num s + Z.of_nat (List.length dep)
  /\ redeemed_events_num (fst out)
     = redeemed_events_num s + Z.of_nat (List.length red)
  /\ fields_beside_deposits (fst out) = fields_beside_deposits s.
Proof.
  intros Hd Hr Hex.
  rewrite (process_deposited_and_redeemed_unfold _ _ _ _ Hd Hr). cbv zeta.
  set (s1 := set_redeemed_events_num _ _).
  destruct (deposited_loop dep s1) as (D1 & D2 & D3 & D4 & D5 & D6).
  destruct (for_each _ dep s1) as [s2 r2] eqn:E2. cbn [fst snd] in *.
  destruct (Exists_dec (fun e => arg_int_opt "amount" e = None) dep) as [Hbad|Hgood].
  { intros e. destruct (arg_int_opt "amount" e); [right; discriminate | left; reflexivity]. }
  - rewrite (D6 Hbad) in E2. erewrite bind_raise by exact E2. cbn [fst snd].
    split; [reflexivity|]. split; [rewrite D2; reflexivity|].
    split; [rewrite D3; reflexivity|]. rewrite D1. reflexivity.
  - assert (Hall : Forall (fun e => arg_int_opt "amount" e <> None) dep).
    { apply Forall_forall. intros e He Hnone. apply Hgood, Exists_exists. eauto. }
    destruct (D5 Hall) as [Dok _]. subst r2. erewrite bind_ok by exact E2.
    assert (Hbad : Exists (fun e => arg_int_opt "amount" e = None) red).
    { apply Exists_app in Hex as [H|H]; [contradiction | exact H]. }
    destruct (redeemed_loop red s2) as (R1 & R2 & R3 & _ & _ & R6).
    destruct (for_each _ red s2) as [s3 r3]. cbn [fst snd] in *.
    split; [exact (R6 Hbad)|]. split; [rewrite R2, D2; reflexivity|].
    split; [rewrite R3, D3; reflexivity|]. rewrite R1, D1. reflexivity.
Qed.

Lemma process_deposited_and_redeemed_type_error_witness :
  let s := AggregatedMetricsExporter_init two_blocks_provider empty_database
                                          default_params in
  let out := _process_deposited_and_redeemed_events deposit_without_amount s in
  snd out = Raise TypeError /\ deposited_events_num (fst out) = 2.
Proof.
  intros s out.
  destruct (process_deposited_and_redeemed_type_error deposit_without_amount
              [deposited_log_block_10; bare_log "Deposited" 10 1] [] s
              eq_refl eq_refl) as (H1 & H2 & _).
  - right. left. reflexivity.
  - auto.
Defined.

(** ** The cycle, over all outcomes *)

Lemma get_and_process_returns_next (w3 : Web3) (from to : Z)
    (s : AggregatedMetricsExporter) (v : Z) :
  snd (get_and_process_aggregated_data w3 from to s) = Ok v -> v = to + 1.
Proof.
  unfold get_and_process_aggregated_data, bind, get, zoom, modify, ret.
  destruct (get_nimbus_events w3 (nimbus_address (service_params s)) from to
              (contracts_reader s)) as [reader' [events|exc]]; [|discriminate].
  destruct (for_each _ (distribute_events_by_blocks events) _) as [s1 [[]|exc]];
    [|discriminate].
  cbn. congruence.
Qed.

(** X13.  When a cycle returns, the next block is the block it was
    entered with or the block after the range it asked for, never an
    earlier one; and the window it returns is the one it was given, the
    configured maximum, or the shrunk one, so it is at least 1 when the
    window given and the maximum are.  A cycle entered with the [stop] flag
    set raises [SystemExit] and changes nothing.  A cycle whose query for
    the finalised head fails with a [ValueError] that the test of the
    handler cannot look into raises [TypeError] out of the handler: the
    connection is not restored and the window is not touched. *)
Theorem run_cursor_and_window (w3 : Web3) (self : AggregatedMetricsExporter)
    (from_block current_range_of_blocks : Z) :
  0 <= current_range_of_blocks ->
  let out := _run w3 from_block current_range_of_blocks self in
  match snd out with
  | Raise _ => True
  | Ok (next_block, range') =>
      (next_block = from_block
       \/ exists block_number,
            get_chain_finalised_head w3 = Ok block_number
            /\ from_block < block_number
            /\ next_block
               = cycle_to_block from_block current_range_of_blocks block_number + 1)
      /\ from_block <= next_block
      /\ (range' = current_range_of_blocks
          \/ range' = max_range_of_blocks (service_params self)
          \/ range' = decrease_range_of_blocks current_range_of_blocks)
      /\ (1 <= current_range_of_blocks ->
          1 <= max_range_of_blocks (service_params self) -> 1 <= range')
  end
  /\ (stop self = true -> out = (self, Raise SystemExit))
  /\ (forall exc,
        stop self = false ->
        get_chain_finalised_head w3 = Raise exc ->
        range_too_large_test_fails exc = true ->
        out = (self, Raise TypeError)).
Proof.
  intros Hrange out. split; [|split].
  2:{ intros Hstop. unfold out, _run, try_except, bind, get. rewrite Hstop.
      reflexivity. }
  2:{ intros exc Hstop Hhead Hfails. unfold out, _run, try_except, bind, get.
      rewrite Hstop. unfold ret at 1. rewrite Hhead.
      unfold range_too_large_test.
      destruct exc; cbn in Hfails; try discriminate Hfails;
        cbn; rewrite ?Hfails; reflexivity. }
  assert (Hfinish : forall range',
            (range' = current_range_of_blocks
             \/ range' = decrease_range_of_blocks current_range_of_blocks) ->
            (from_block = from_block
             \/ exists block_number,
                  get_chain_finalised_head w3 = Ok block_number
                  /\ from_block < block_number
                  /\ from_block
                     = cycle_to_block from_block current_range_of_blocks block_number + 1)
            /\ from_block <= from_block
            /\ (range' = current_range_of_blocks
                \/ range' = max_range_of_blocks (service_params self)
                \/ range' = decrease_range_of_blocks current_range_of_blocks)
            /\ (1 <= current_range_of_blocks ->
                1 <= max_range_of_blocks (service_params self) -> 1 <= range')).
  { intros range' Hr. split; [left; reflexivity|]. split; [lia|].
    split; [destruct Hr; auto|].
    intros H1 _. destruct Hr as [->| ->]; [exact H1|].
    apply decrease_range_of_blocks_positive. }
  unfold out, _run.
  match goal with
  | |- context [try_except ?m ?h] => set (body := m); set (handler := h)
  end.
  assert (Hhandler : forall s exc,
            match snd (handler exc s) with
            | Raise _ => True
            | Ok (next_block, range') =>
                next_block = from_block
                /\ (range' = current_range_of_blocks
                    \/ range' = decrease_range_of_blocks current_range_of_blocks)
            end).
  { intros s exc. unfold handler, range_too_large_test.
    destruct (is_expected_network_exception exc); [cbn; auto|].
    destruct (range_too_large_test_fails exc); [cbn; auto|].
    destruct (is_range_too_large exc); cbn; auto. }
  unfold try_except.
  destruct (body self) as [s1 r] eqn:Ebody.
  destruct r as [[next_block range']|exc].
  2:{ assert (Hcase : forall e, e <> SystemExit ->
                match snd (handler e s1) with
                | Raise _ => True
                | Ok (next_block, range') =>
                    (next_block = from_block
                     \/ exists block_number,
                          get_chain_finalised_head w3 = Ok block_number
                          /\ from_block < block_number
                          /\ next_block
                             = cycle_to_block from_block current_range_of_blocks
                                              block_number + 1)
                    /\ from_block <= next_block
                    /\ (range' = current_range_of_blocks
                        \/ range' = max_range_of_blocks (service_params self)
                        \/ range' = decrease_range_of_blocks current_range_of_blocks)
                    /\ (1 <= current_range_of_blocks ->
                        1 <= max_range_of_blocks (service_params self) -> 1 <= range')
                end).
      { intros e _. specialize (Hhandler s1 e).
        destruct (snd (handler e s1)) as [[n r']|]; [|exact I].
        destruct Hhandler as [-> Hr]. apply Hfinish, Hr. }
      destruct exc; try (apply Hcase; discriminate). exact I. }
  cbn [snd].
  unfold body, bind, get in Ebody.
  destruct (stop self); [discriminate Ebody|].
  unfold ret at 1 in Ebody.
  destruct (get_chain_finalised_head w3) as [block_number|exc] eqn:Eh;
    [|discriminate Ebody].
  destruct (block_number <=? from_block) eqn:Ele.
  { injection Ebody as _ <- <-. apply Hfinish. left. reflexivity. }
  apply Z.leb_gt in Ele.
  change (if block_number <? from_block + current_range_of_blocks
          then block_number else from_block + current_range_of_blocks)
    with (cycle_to_block from_block current_range_of_blocks block_number) in Ebody.
  pose proof (get_and_process_returns_next w3 from_block
                (cycle_to_block from_block current_range_of_blocks block_number) self)
    as Hnext.
  destruct (get_and_process_aggregated_data w3 from_block
              (cycle_to_block from_block current_range_of_blocks block_number) self)
    as [s2 [v|exc]]; [|discriminate Ebody].
  specialize (Hnext v eq_refl). subst v.
  assert (Hto : from_block
                <= cycle_to_block from_block current_range_of_blocks block_number).
  { unfold cycle_to_block.
    destruct (block_number <? from_block + current_range_of_blocks); lia. }
  destruct (current_range_of_blocks =? max_range_of_blocks (service_params self))
    eqn:Er; cbn [negb] in Ebody; injection Ebody as _ <- <-.
  - split; [right; exists block_number; auto|]. split; [lia|].
    split; [auto|]. auto.
  - split; [right; exists block_number; auto|]. split; [lia|].
    split; [auto|]. auto.
Qed.

Lemma run_cursor_and_window_witness :
  snd (_run headless_provider 500 1000
            (AggregatedMetricsExporter_init headless_provider empty_database
                                            default_params))
  = Ok (500, 1000)
  /\ match snd (_run scenario_B_provider 500 1000
                     (AggregatedMetricsExporter_init scenario_B_provider
                                                     empty_database default_params))
     with
     | Ok (next_block, range') => 500 <= next_block /\ 1 <= range'
     | Raise _ => True
     end
  /\ snd (_run (provider_with_head (Raise (ValueErrorStr "no message"))) 500 1000
               (AggregatedMetricsExporter_init headless_provider empty_database
                                               default_params))
     = Raise TypeError.
Proof.
  split; [reflexivity|].
  split.
  - destruct (run_cursor_and_window scenario_B_provider
                (AggregatedMetricsExporter_init scenario_B_provider empty_database
                                                default_params)
                500 1000 ltac:(lia)) as (H & _).
    destruct (snd (_run scenario_B_provider 500 1000 _)) as [[next_block range']|exc];
      [|exact I].
    destruct H as (_ & H2 & _ & H4). split; [exact H2|]. apply H4; cbn; lia.
  - reflexivity.
Defined.

(** ** The checkpoint *)

Lemma for_each_total {S A : Type} (body : A -> M S unit) (l : list A) :
  (forall x s, snd (body x s) = Ok tt) ->
  forall s, snd (for_each body l s) = Ok tt.
Proof.
  intros Hbody. induction l as [|x l IH]; intros s; [reflexivity|].
  cbn [for_each]. unfold bind. specialize (Hbody x s).
  destruct (body x s) as [s1 r]. cbn [snd] in Hbody. subst r. apply IH.
Qed.

Lemma add_reward_loop (block_number : Z) (l : list reward_entry)
    (s : AggregatedMetricsExporter) :
  let out := for_each (fun r => with_database
                                  (add_reward (entry_ledger r) (entry_reward r)
                                              (entry_balance r) block_number)) l s in
  snd out = Ok tt
  /\ aggregates (fst out) = aggregates s
  /\ aggregated_data (database_manager (fst out))
     = aggregated_data (database_manager s).
Proof.
  cbv zeta. split.
  - apply for_each_total. intros x s0. reflexivity.
  - apply (for_each_invariant
             (fun s' => aggregates s' = aggregates s
                        /\ aggregated_data (database_manager s')
                           = aggregated_data (database_manager s))); [|auto].
    intros r s0 _ [H1 H2]. unfold with_database, modify. cbn [fst].
    split; [exact H1|]. rewrite <- H2. cbn.
    unfold add_reward. destruct (entry_balance r); [|reflexivity].
    destruct (_ && _); reflexivity.
Qed.

Lemma process_block_checkpoint (w3 : Web3) (block_number : Z) (events : events_dict)
    (s : AggregatedMetricsExporter) :
  forall s',
    process_block w3 block_number events s = (s', Ok tt) ->
    last_block_number_with_events s' = block_number
    /\ (fits_aggregated_data (aggregates s') = true -> checkpointed s').
Proof.
  intros s'. unfold process_block.
  unfold bind at 1.
  destruct (_process_deposited_and_redeemed_events events s) as [s1 [[]|e1]];
    [|discriminate].
  unfold bind at 1.
  destruct (events_at "Rewards" events s1) as [s2 [rewards_events|e2]];
    [|discriminate].
  unfold bind at 1.
  destruct (events_at "Losses" events s2) as [s3 [losses_events|e3]];
    [|discriminate].
  unfold bind at 1.
  destruct (_process_rewards_and_losses_events (rewards_events ++ losses_events) s3)
    as [s4 [block_rewards|e4]]; [|discriminate].
  unfold bind at 1.
  destruct (_process_transfer_events events s4) as [s5 [[]|e5]]; [|discriminate].
  unfold bind at 1. unfold get at 1.
  unfold bind at 1. unfold with_database at 1. unfold modify at 1.
  set (s6 := set_database_manager _ s5).
  unfold bind at 1.
  destruct (add_reward_loop block_number block_rewards s6) as (L1 & L2 & L3).
  destruct (for_each _ block_rewards s6) as [s7 r7]. cbn [fst snd] in L1, L2, L3.
  subst r7.
  unfold bind at 1. unfold get_ledger_addresses.
  destruct (getLedgerAddresses w3) as [ledger_addresses|e8]; [|discriminate].
  unfold ret at 1. unfold bind at 1. unfold get at 1. unfold bind at 1.
  destruct (calculate_apr _ _ _ _ _) as [a|e9]; [|discriminate].
  unfold bind, modify. intros [= <-].
  split; [reflexivity|].
  unfold checkpointed, aggregates. cbn -[fits_aggregated_data].
  unfold aggregates in L2. unfold s6 in L2. cbn in L2.
  injection L2 as -> -> -> -> _.
  intros Hfits. rewrite L3. unfold s6. cbn -[fits_aggregated_data].
  unfold update_aggregated_data. rewrite Hfits. reflexivity.
Qed.

(** After a loop over at least one block, the row of the last block is the
    checkpoint, when it fits the columns. *)
Lemma blocks_loop_establishes (w3 : Web3) (l : blocks_dict) :
  forall s s',
    for_each (fun item => process_block w3 (fst item) (snd item)) l s = (s', Ok tt) ->
    (l = [] /\ s' = s)
    \/ (fits_aggregated_data (aggregates s') = true -> checkpointed s').
Proof.
  induction l as [|[b grp] l IH]; intros s s'; cbn [for_each fst snd].
  - intros [= <-]. left. auto.
  - unfold bind.
    destruct (process_block w3 b grp s) as [s1 [[]|exc]] eqn:E; [|discriminate].
    intros Hrest. right.
    destruct (IH s1 s' Hrest) as [[-> ->]|H]; [|exact H].
    apply (process_block_checkpoint _ _ _ _ _ E).
Qed.

Lemma checkpointed_in_step (s : AggregatedMetricsExporter) :
  checkpointed s -> in_step s.
Proof. unfold checkpointed, in_step. intros ->. reflexivity. Qed.

Lemma get_and_process_in_step (w3 : Web3) (from to : Z)
    (s s' : AggregatedMetricsExporter) (v : Z) :
  get_and_process_aggregated_data w3 from to s = (s', Ok v) ->
  in_step s -> fits_aggregated_data (aggregates s') = true -> in_step s'.
Proof.
  unfold get_and_process_aggregated_data, bind, get, zoom.
  destruct (get_nimbus_events w3 (nimbus_address (service_params s)) from to
              (contracts_reader s)) as [reader' [events|exc]]; [|discriminate].
  destruct (for_each _ (distribute_events_by_blocks events) _) as [s1 [[]|exc]] eqn:E;
    [|discriminate].
  unfold modify, ret. intros [= <- _] Hs Hfits.
  assert (H1 : in_step s1).
  { destruct (blocks_loop_establishes _ _ _ _ E) as [[_ ->]|H];
      [exact Hs | apply checkpointed_in_step, H, Hfits]. }
  unfold in_step in *. cbn. exact H1.
Qed.

(** X14.  A cycle that returns keeps the state in step with the datastore,
    as long as the row it checkpoints last fits the columns of
    [aggregated_data] (totals in [uint_256], counts and block in 32 bits):
    the row holds the four aggregates and the last block with events of the
    state (or there is no row yet and the aggregates are zero), after the
    cycle as before it.  The datastore refuses a row that does not fit, and
    the cycle goes on without it. *)
Theorem get_and_process_keeps_in_step (w3 : Web3) (from to : Z)
    (s : AggregatedMetricsExporter) :
  in_step s ->
  match get_and_process_aggregated_data w3 from to s with
  | (s', Ok next_block) =>
      next_block = to + 1
      /\ (fits_aggregated_data (aggregates s') = true -> in_step s')
  | (_, Raise _) => True
  end.
Proof.
  intros Hs.
  pose proof (get_and_process_returns_next w3 from to s) as Hnext.
  destruct (get_and_process_aggregated_data w3 from to s) as [s' [v|exc]] eqn:E;
    [|exact I].
  split; [exact (Hnext v eq_refl) | exact (get_and_process_in_step _ _ _ _ _ _ E Hs)].
Qed.

Lemma get_and_process_keeps_in_step_witness :
  in_step (AggregatedMetricsExporter_init (scenario_A_provider []) empty_database
                                          default_params)
  /\ in_step scenario_A_after.
Proof.
  assert (H0 : in_step (AggregatedMetricsExporter_init (scenario_A_provider [])
                          empty_database default_params)) by reflexivity.
  split; [exact H0|].
  pose proof (get_and_process_keeps_in_step (scenario_A_provider []) 100 110 _ H0) as H.
  vm_compute in H. vm_compute. exact (proj2 H eq_refl).
Defined.

(** A block number beyond 32 bits: the fold goes through, the checkpoint is
    refused, and the state is out of step with a datastore that has no row. *)
Lemma checkpoint_refused_out_of_step :
  let w3 := late_block_provider in
  let s := AggregatedMetricsExporter_init w3 empty_database default_params in
  let out := get_and_process_aggregated_data w3 (2 ^ 31) (2 ^ 31 + 10) s in
  snd out = Ok (2 ^ 31 + 11)
  /\ deposited (fst out) = 50
  /\ last_block_number_with_events (fst out) = 2 ^ 31 + 5
  /\ aggregated_data (database_manager (fst out)) = None
  /\ ~ in_step (fst out).
Proof.
  vm_compute. repeat split; try reflexivity. discriminate.
Qed.

Lemma restore_from_database_reads_back (initial_block : Z)
    (s0 : AggregatedMetricsExporter) :
  match restore_from_database initial_block s0 with
  | (s1, Ok from_block) =>
      from_block = resume_block initial_block (database_manager s0)
      /\ database_manager s1 = database_manager s0
      /\ in_step s1
      /\ (aggregated_data (database_manager s0) = None ->
          last_block_number_with_events s1 = last_block_number_with_events s0)
  | (s1, Raise exc) =>
      calculate_apr (apr s0)
        (rewards_by_ledger (database_manager s0)
                           (database_query_limit (service_params s0))
                           (stored_ledgers (database_manager s0)))
        (eras_per_day (service_params s0)) (apr_min (service_params s0))
        (apr_max (service_params s0))
      = Raise exc
  end.
Proof.
  unfold resume_block, in_step.
  unfold restore_from_database, bind, modify, get, ret. cbn [fst snd].
  cbn [database_manager set_apr set_holders_number service_params apr].
  destruct (calculate_apr _ _ _ _ _) as [a|e]; [|reflexivity].
  cbn [database_manager set_apr set_holders_number].
  destruct (aggregated_data (database_manager s0))
    as [[[[[dep dep_num] red] red_num] last]|] eqn:Hrow;
    destruct (get_all_rewards_and_losses (database_manager s0))
      as [stored_rewards stored_losses];
    cbn [fst snd]; destruct stored_rewards, stored_losses; cbn; rewrite Hrow;
    repeat split; discriminate.
Qed.

(** X15.  What a cycle checkpoints, a restart reads back.  After a cycle
    that returned from a state in step with the datastore, with a last
    checkpoint that fits the columns of [aggregated_data], recovery on the
    datastore the cycle left either returns, or raises what the computation
    of the APR from the stored rows raised.  When it returns, the four
    aggregates are those of the state the cycle ended in, and it resumes at
    that state's last block with events plus one, or at the configured
    initial block when there is no checkpoint. *)
Theorem restore_after_cycle (w3 : Web3) (from to initial_block : Z)
    (s s' s0 : AggregatedMetricsExporter) (v : Z) :
  in_step s ->
  get_and_process_aggregated_data w3 from to s = (s', Ok v) ->
  fits_aggregated_data (aggregates s') = true ->
  database_manager s0 = database_manager s' ->
  match restore_from_database initial_block s0 with
  | (s1, Ok from_block) =>
      deposited s1 = deposited s'
      /\ deposited_events_num s1 = deposited_events_num s'
      /\ redeemed s1 = redeemed s'
      /\ redeemed_events_num s1 = redeemed_events_num s'
      /\ match aggregated_data (database_manager s') with
         | Some _ =>
             from_block = last_block_number_with_events s' + 1
             /\ last_block_number_with_events s1
                = last_block_number_with_events s'
         | None => from_block = initial_block
         end
  | (s1, Raise exc) =>
      calculate_apr (apr s0)
        (rewards_by_ledger (database_manager s')
                           (database_query_limit (service_params s0))
                           (stored_ledgers (database_manager s')))
        (eras_per_day (service_params s0)) (apr_min (service_params s0))
        (apr_max (service_params s0))
      = Raise exc
  end.
Proof.
  intros Hs Hcycle Hfits Hdb.
  pose proof (get_and_process_in_step _ _ _ _ _ _ Hcycle Hs Hfits) as Hs'.
  pose proof (restore_from_database_reads_back initial_block s0) as H.
  destruct (restore_from_database initial_block s0) as [s1 [from_block|exc]].
  2:{ rewrite <- Hdb. exact H. }
  destruct H as (H1 & H2 & H3 & _).
  unfold in_step, resume_block in *. rewrite H2, Hdb in H3.
  rewrite Hdb in H1.
  destruct (aggregated_data (database_manager s')) as [row|].
  - subst row. unfold aggregates in H3. injection H3 as E1 E2 E3 E4 E5.
    cbn [snd] in H1. auto 10.
  - injection Hs' as -> -> -> ->. injection H3 as -> -> -> ->. auto.
Qed.

Lemma restore_after_cycle_witness :
  exists s1,
    restore_from_database 7 (restarted_on (database_manager scenario_A_after))
    = (s1, Ok 106)
    /\ deposited s1 = 50 /\ deposited_events_num s1 = 1.
Proof.
  assert (H0 : in_step (AggregatedMetricsExporter_init (scenario_A_provider [])
                          empty_database default_params))
    by (vm_compute; reflexivity).
  assert (Hc : get_and_process_aggregated_data (scenario_A_provider []) 100 110
                 (AggregatedMetricsExporter_init (scenario_A_provider [])
                                                 empty_database default_params)
               = (scenario_A_after, Ok 111))
    by (vm_compute; reflexivity).
  assert (Hf : fits_aggregated_data (aggregates scenario_A_after) = true)
    by (vm_compute; reflexivity).
  assert (Hd : database_manager (restarted_on (database_manager scenario_A_after))
               = database_manager scenario_A_after)
    by (vm_compute; reflexivity).
  pose proof (restore_after_cycle (scenario_A_provider []) 100 110 7 _ _ _ 111
                H0 Hc Hf Hd) as H.
  destruct (restore_from_database 7 (restarted_on (database_manager scenario_A_after)))
    as [s1 [from_block|exc]] eqn:E.
  - exists s1. vm_compute in H. destruct H as (H1 & H2 & _ & _ & H5 & _).
    rewrite H5. split; [reflexivity|]. split; [exact H1 | exact H2].
  - vm_compute in E. discriminate E.
Defined.

(** ** Rewards and losses *)

Lemma rewards_and_losses_fold (events : list event)
    (s : AggregatedMetricsExporter) :
  Forall (fun e => arg_int_opt (amount_name e) e <> None) events ->
  let out := _process_rewards_and_losses_events events s in
  snd out = Ok (map entry_of events)
  /\ rewards (fst out)
     = rewards s + total_of "rewards" (List.filter is_rewards events)
  /\ losses (fst out)
     = losses s + total_of "losses" (List.filter (fun e => negb (is_rewards e)) events)
  /\ fields_beside_rewards (fst out) = fields_beside_rewards s.
Proof.
  cbv zeta. revert s. induction events as [|e events IH]; intros s Hall.
  - cbn. repeat split; lia.
  - inversion Hall as [|? ? He Hrest]; subst.
    cbn [_process_rewards_and_losses_events].
    unfold amount_name in He. fold (is_rewards e).
    destruct (arg_int_opt (if is_rewards e then "rewards" else "losses") e)
      as [n|] eqn:En; [clear He | congruence].
    destruct (is_rewards e) eqn:Er.
    + erewrite bind_ok;
        [|erewrite bind_ok; [|apply arg_int_some, En]; reflexivity].
      specialize (IH (set_rewards (rewards s + n) s) Hrest).
      destruct (_process_rewards_and_losses_events events
                  (set_rewards (rewards s + n) s)) as [s' r] eqn:E.
      cbn [fst snd] in IH. destruct IH as (H1 & H2 & H3 & H4). subst r.
      erewrite bind_ok by exact E. cbn [ret fst snd].
      split; [|split; [|split]].
      * cbn [map]. f_equal. f_equal. unfold entry_of, signed_amount.
        rewrite Er. unfold amount_of. rewrite En. reflexivity.
      * rewrite H2. cbn [rewards set_rewards List.filter]. rewrite Er.
        change (total_of "rewards" (e :: List.filter is_rewards events))
          with (amount_of "rewards" e + total_of "rewards" (List.filter is_rewards events)).
        unfold amount_of at 1. rewrite En. lia.
      * rewrite H3. cbn [losses set_rewards List.filter]. rewrite Er. reflexivity.
      * rewrite H4. reflexivity.
    + erewrite bind_ok;
        [|erewrite bind_ok; [|apply arg_int_some, En]; reflexivity].
      specialize (IH (set_losses (losses s + n) s) Hrest).
      destruct (_process_rewards_and_losses_events events
                  (set_losses (losses s + n) s)) as [s' r] eqn:E.
      cbn [fst snd] in IH. destruct IH as (H1 & H2 & H3 & H4). subst r.
      erewrite bind_ok by exact E. cbn [ret fst snd].
      split; [|split; [|split]].
      * cbn [map]. f_equal. f_equal. unfold entry_of, signed_amount.
        rewrite Er. unfold amount_of. rewrite En. reflexivity.
      * rewrite H2. cbn [rewards set_losses List.filter]. rewrite Er. reflexivity.
      * rewrite H3. cbn [losses set_losses List.filter]. rewrite Er. cbn [negb].
        change (total_of "losses" (e :: ?l))
          with (amount_of "losses" e + total_of "losses" l).
        cbn [total_of map fold_right]. unfold amount_of at 1. rewrite En.
        unfold total_of. lia.
      * rewrite H4. reflexivity.
Qed.

(** X16.  Folding the [Rewards] and [Losses] logs of a block, each carrying
    its integer amount, adds the rewards to [rewards] and the losses to
    [losses], both as positive amounts, writes nothing else, and hands on one
    entry per log, in order, whose amount is the reward, or minus the loss;
    any log not named [Rewards] is folded as a loss. *)
Theorem process_rewards_and_losses_totals (events : list event)
    (s : AggregatedMetricsExporter) :
  Forall (fun e => arg_int_opt (amount_name e) e <> None) events ->
  let out := _process_rewards_and_losses_events events s in
  snd out = Ok (map entry_of events)
  /\ rewards (fst out)
     = rewards s + total_of "rewards" (List.filter is_rewards events)
  /\ losses (fst out)
     = losses s + total_of "losses" (List.filter (fun e => negb (is_rewards e)) events)
  /\ fields_beside_rewards (fst out) = fields_beside_rewards s.
Proof. apply rewards_and_losses_fold. Qed.

Lemma process_rewards_and_losses_totals_witness :
  let s := AggregatedMetricsExporter_init two_blocks_provider empty_database
                                          default_params in
  let out := _process_rewards_and_losses_events
               [rewards_log 10 110; losses_log 5 95] s in
  map entry_reward (match snd out with Ok l => l | Raise _ => [] end) = [10; -5]
  /\ rewards (fst out) = 10 /\ losses (fst out) = 5.
Proof.
  intros s out.
  destruct (process_rewards_and_losses_totals [rewards_log 10 110; losses_log 5 95] s)
    as (H1 & H2 & H3 & _).
  - repeat constructor; discriminate.
  - cbv zeta in *. unfold out. rewrite H1. auto.
Defined.

Lemma add_reward_loop_rows (block_number : Z) (l : list reward_entry)
    (s : AggregatedMetricsExporter) :
  is_INT block_number = true ->
  Forall entry_fits l ->
  reward (database_manager
            (fst (for_each (fun r => with_database
                                       (add_reward (entry_ledger r) (entry_reward r)
                                                   (entry_balance r) block_number))
                           l s)))
  = reward (database_manager s) ++ map (stored_row block_number) l.
Proof.
  intros Hblock. revert s. induction l as [|r l IH]; intros s Hall.
  - cbn. rewrite app_nil_r. reflexivity.
  - inversion Hall as [|? ? Hr Hrest]; subst.
    cbn [for_each]. unfold bind at 1. unfold with_database at 1. unfold modify at 1.
    rewrite IH by exact Hrest.
    cbn [database_manager set_database_manager map]. unfold add_reward.
    destruct Hr as (b & Hb & Hreward & Hbalance).
    assert (Hrow : stored_row block_number r
                   = mkRow (entry_ledger r) (entry_reward r) b block_number).
    { unfold stored_row. rewrite Hb. reflexivity. }
    rewrite Hrow, Hb, Hreward, Hbalance, Hblock.
    cbn [andb reward]. rewrite <- app_assoc. reflexivity.
Qed.

Lemma stored_signs (rs ls : list event) :
  Forall reward_log_ok rs -> Forall loss_log_ok ls ->
  Zsum (List.filter (fun r => 0 <? r) (map signed_amount (rs ++ ls)))
  = total_of "rewards" rs
  /\ Zsum (List.filter (fun r => r <? 0) (map signed_amount (rs ++ ls)))
     = - total_of "losses" ls
  /\ List.filter is_rewards (rs ++ ls) = rs
  /\ List.filter (fun e => negb (is_rewards e)) (rs ++ ls) = ls.
Proof.
  intros Hrs Hls.
  assert (Hl : Zsum (List.filter (fun r => 0 <? r) (map signed_amount ls)) = 0
               /\ Zsum (List.filter (fun r => r <? 0) (map signed_amount ls))
                  = - total_of "losses" ls
               /\ List.filter is_rewards ls = []
               /\ List.filter (fun e => negb (is_rewards e)) ls = ls).
  { induction Hls as [|e ls (Hn & (l & b & Hl & Hpos & _)) _ IH]; [cbn; auto|].
    destruct IH as (I1 & I2 & I3 & I4).
    assert (Er : is_rewards e = false) by (unfold is_rewards; rewrite Hn; reflexivity).
    assert (Es : signed_amount e = - l).
    { unfold signed_amount, amount_of. rewrite Er, Hl. reflexivity. }
    cbn [map List.filter]. rewrite Es, Er. cbn [negb].
    destruct (0 <? - l) eqn:E1; [apply Z.ltb_lt in E1; lia|].
    destruct (- l <? 0) eqn:E2; [|apply Z.ltb_ge in E2; lia].
    split; [exact I1|]. split; [|split; [exact I3 | rewrite I4; reflexivity]].
    change (total_of "losses" (e :: ls))
      with (amount_of "losses" e + total_of "losses" ls).
    cbn [Zsum fold_right]. fold (Zsum (List.filter (fun r => r <? 0) (map signed_amount ls))).
    rewrite I2. unfold amount_of. rewrite Hl. lia. }
  destruct Hl as (L1 & L2 & L3 & L4).
  induction Hrs as [|e rs (Hn & (r & b & Hr & Hpos & _)) _ IH]; [cbn [app]; auto|].
  destruct IH as (I1 & I2 & I3 & I4).
  assert (Er : is_rewards e = true) by (unfold is_rewards; rewrite Hn; reflexivity).
  assert (Es : signed_amount e = r).
  { unfold signed_amount, amount_of. rewrite Er, Hr. reflexivity. }
  cbn [app map List.filter]. rewrite Es, Er. cbn [negb].
  destruct (0 <? r) eqn:E1; [|apply Z.ltb_ge in E1; lia].
  destruct (r <? 0) eqn:E2; [apply Z.ltb_lt in E2; lia|].
  split; [|split; [exact I2 | split; [rewrite I3; reflexivity | exact I4]]].
  change (total_of "rewards" (e :: rs))
    with (amount_of "rewards" e + total_of "rewards" rs).
  cbn [Zsum fold_right]. fold (Zsum (List.filter (fun r => 0 <? r) (map signed_amount (rs ++ ls)))).
  rewrite I1. unfold amount_of. rewrite Hr. lia.
Qed.

(** *** When the APR computation returns *)

Lemma apr_is_decimal (eras_per_day : Z) (row : reward_row) :
  row_balance row - row_reward row <> 0 ->
  is_decimal (_apr eras_per_day row) = true.
Proof.
  intros H. unfold _apr.
  destruct (Qeq_bool (denominator row) 0) eqn:E; [|reflexivity].
  apply denominator_zero in E. contradiction.
Qed.

Lemma ledger_apr_decimals (eras_per_day : Z) (apr_min apr_max : Q)
    (rows : list reward_row) :
  (forall row, In row rows -> row_balance row - row_reward row <> 0) ->
  Forall (fun v => is_decimal v = true) (ledger_apr eras_per_day apr_min apr_max rows).
Proof.
  intros H. apply Forall_forall. intros v Hv.
  apply ledger_apr_in in Hv as (row & Hin & <- & _).
  apply apr_is_decimal, H, Hin.
Qed.

Lemma sum_decimals_from (value : list number) :
  Forall (fun v => is_decimal v = true) value ->
  forall d, exists d',
    fold_left (fun total v => match total with
                              | Ok t => add t v
                              | Raise exc => Raise exc
                              end) value (Ok (PyDecimal d))
    = Ok (PyDecimal d').
Proof.
  induction 1 as [|v value Hv _ IH]; intros d; [exists d; reflexivity|].
  destruct v as [n|x|c]; try discriminate Hv. cbn [fold_left add]. apply IH.
Qed.

Lemma average_decimals (value : list number) :
  Forall (fun v => is_decimal v = true) value -> value <> [] ->
  exists d, average value = Ok (PyDecimal d).
Proof.
  intros Hall Hne. destruct value as [|v value]; [congruence|].
  inversion Hall as [|? ? Hv Hrest]; subst.
  destruct v as [n|x|c]; try discriminate Hv.
  unfold average, sum. cbn [fold_left add].
  destruct (sum_decimals_from value Hrest (decimal (inject_Z 0 + c))) as [d' ->].
  cbn [truediv_len]. eexists. reflexivity.
Qed.

Lemma averaged_apr_decimals (apr : list (string * list number)) :
  (forall ledger value, In (ledger, value) apr ->
                        Forall (fun v => is_decimal v = true) value) ->
  exists averaged,
    averaged_apr apr = Ok averaged
    /\ Forall (fun v => is_decimal v = true) (map snd averaged).
Proof.
  induction apr as [|[ledger value] apr IH]; intros H.
  - exists []. split; [reflexivity | constructor].
  - destruct IH as (averaged & Ha & Hd).
    { intros l v Hin. apply (H l v). right. exact Hin. }
    cbn [averaged_apr]. destruct value as [|v value]; [exists averaged; auto|].
    destruct (average_decimals (v :: value)) as [d Hd'];
      [apply (H ledger), in_eq | discriminate |].
    rewrite Hd', Ha. eexists. split; [reflexivity|].
    cbn [map snd]. constructor; [reflexivity | exact Hd].
Qed.

(** Rows with a rate each: the computation returns. *)
Lemma calculate_apr_returns (total_apr : Q) (rewards : list (string * list reward_row))
    (eras_per_day : Z) (apr_min apr_max : Q) :
  (forall ledger rows row, In (ledger, rows) rewards -> In row rows ->
                           row_balance row - row_reward row <> 0) ->
  exists apr, calculate_apr total_apr rewards eras_per_day apr_min apr_max = Ok apr.
Proof.
  intros H. unfold calculate_apr.
  destruct (averaged_apr_decimals (apr_by_ledger eras_per_day apr_min apr_max rewards))
    as (averaged & -> & Hd).
  { intros ledger value Hin. unfold apr_by_ledger in Hin.
    apply in_map_iff in Hin as ([l rows] & [= <- <-] & Hin).
    apply ledger_apr_decimals. intros row. apply (H l rows row Hin). }
  destruct averaged as [|a averaged]; [eexists; reflexivity|].
  destruct (average_decimals (map snd (a :: averaged)) Hd) as [d ->];
    [discriminate|].
  eexists. reflexivity.
Qed.

Lemma rewards_by_ledger_rows (db : DatabaseManager) (limit : Z)
    (ledgers : list string) (ledger : string) (rows : list reward_row)
    (row : reward_row) :
  In (ledger, rows) (rewards_by_ledger db limit ledgers) -> In row rows ->
  In row (reward db).
Proof.
  induction ledgers as [|l ledgers IH]; [intros []|].
  cbn [rewards_by_ledger].
  destruct (get_rewards l limit db) as [|r0 rest] eqn:E; [exact IH|].
  intros [[= <- <-]|Hin]; [|apply IH, Hin].
  rewrite <- E. unfold get_rewards. intros Hrow.
  assert (Hin : In row (sorted (fun row => - row_block row)
                               (List.filter (same_ledger l) (reward db)))).
  { rewrite <- (firstn_skipn (Z.to_nat limit)). apply in_or_app. left. exact Hrow. }
  clear Hrow. rename Hin into Hrow.
  apply (Permutation_in _ (Permutation_sym (sorted_perm _ _))) in Hrow.
  apply filter_In in Hrow. apply Hrow.
Qed.

Lemma restore_from_database_totals (initial_block : Z)
    (s0 : AggregatedMetricsExporter) :
  rewards s0 = 0 -> losses s0 = 0 ->
  match restore_from_database initial_block s0 with
  | (s1, Ok _) =>
      rewards s1
      = Zsum (List.filter (fun r => 0 <? r)
                          (map row_reward (reward (database_manager s0))))
      /\ losses s1
         = Zsum (List.filter (fun r => r <? 0)
                             (map row_reward (reward (database_manager s0))))
  | (_, Raise _) => True
  end.
Proof.
  intros Hr Hl.
  unfold restore_from_database, bind, modify, get, ret. cbn [fst snd].
  cbn [database_manager set_apr set_holders_number service_params apr].
  destruct (calculate_apr _ _ _ _ _) as [a|e]; [|exact I].
  cbn [database_manager set_apr set_holders_number].
  unfold get_all_rewards_and_losses.
  destruct (aggregated_data (database_manager s0))
    as [[[[[dep dep_num] red] red_num] last]|];
    cbn [fst snd];
    destruct (List.filter (fun r => 0 <? r) _) as [|p ps];
    destruct (List.filter (fun r => r <? 0) _) as [|n ns];
    cbn; rewrite ?Hr, ?Hl; auto.
Qed.

Lemma restore_from_database_returns (initial_block : Z)
    (s0 : AggregatedMetricsExporter) (a : Q) :
  calculate_apr (apr s0)
    (rewards_by_ledger (database_manager s0)
                       (database_query_limit (service_params s0))
                       (stored_ledgers (database_manager s0)))
    (eras_per_day (service_params s0)) (apr_min (service_params s0))
    (apr_max (service_params s0)) = Ok a ->
  exists from_block, snd (restore_from_database initial_block s0) = Ok from_block.
Proof.
  intros Ha.
  unfold restore_from_database, bind, modify, get, ret. cbn [fst snd].
  cbn [database_manager set_apr set_holders_number service_params apr].
  rewrite Ha.
  cbn [database_manager set_apr set_holders_number].
  destruct (aggregated_data (database_manager s0))
    as [[[[[dep dep_num] red] red_num] last]|];
    destruct (get_all_rewards_and_losses (database_manager s0))
      as [stored_rewards stored_losses];
    cbn [fst snd]; eexists; reflexivity.
Qed.

Lemma add_reward_loop_totals (block_number : Z) (l : list reward_entry)
    (s : AggregatedMetricsExporter) :
  let out := for_each (fun r => with_database
                                  (add_reward (entry_ledger r) (entry_reward r)
                                              (entry_balance r) block_number)) l s in
  rewards (fst out) = rewards s /\ losses (fst out) = losses s.
Proof.
  cbv zeta.
  apply (for_each_invariant
           (fun s' => rewards s' = rewards s /\ losses s' = losses s)); [|auto].
  intros r s0 _ H. exact H.
Qed.

Lemma entries_fit (rs ls : list event) :
  Forall reward_log_ok rs -> Forall loss_log_ok ls ->
  Forall entry_fits (map entry_of (rs ++ ls))
  /\ forall e, In e (rs ++ ls) ->
       row_balance (stored_row 0 (entry_of e)) - row_reward (stored_row 0 (entry_of e))
       <> 0.
Proof.
  intros Hrs Hls.
  assert (H : forall e, In e (rs ++ ls) ->
            entry_fits (entry_of e)
            /\ row_balance (stored_row 0 (entry_of e))
               - row_reward (stored_row 0 (entry_of e)) <> 0).
  { intros e He. apply in_app_or in He as [He|He].
    - rewrite Forall_forall in Hrs.
      destruct (Hrs e He) as (Hn & r & b & Hr & Hpos & Hb & Hbal & Hne).
      assert (Er : is_rewards e = true) by (unfold is_rewards; rewrite Hn; reflexivity).
      unfold entry_fits, stored_row, entry_of, signed_amount, amount_of.
      cbn [entry_balance entry_reward row_balance row_reward]. rewrite Er, Hr, Hb.
      split; [|lia]. exists b. split; [reflexivity|].
      unfold is_BIGINT, is_uint_256. split; apply andb_true_intro; split;
        first [apply Z.leb_le | apply Z.ltb_lt]; lia.
    - rewrite Forall_forall in Hls.
      destruct (Hls e He) as (Hn & l & b & Hl & Hpos & Hb & Hbal).
      assert (Er : is_rewards e = false) by (unfold is_rewards; rewrite Hn; reflexivity).
      unfold entry_fits, stored_row, entry_of, signed_amount, amount_of.
      cbn [entry_balance entry_reward row_balance row_reward]. rewrite Er, Hl, Hb.
      split; [|lia]. exists b. split; [reflexivity|].
      unfold is_BIGINT, is_uint_256. split; apply andb_true_intro; split;
        first [apply Z.leb_le | apply Z.ltb_lt]; lia. }
  split.
  - apply Forall_map, Forall_forall. intros e He. apply H, He.
  - intros e He. apply H, He.
Qed.

(** X17.  The running total of losses changes sign over a restart.  Take a
    block, of a number that 32 bits hold, with [Rewards] and [Losses] logs
    of positive amounts that a [BIGINT] holds, each with a balance that a
    [uint_256] holds and that differs from the reward.  Folded from a state
    with no rewards and losses yet over an empty [reward] table, the block
    leaves [rewards] at the sum of the rewards and [losses] at the sum of the
    losses.  Recovery on the datastore the fold left returns, with the same
    [rewards], and with [losses] at minus that sum: it adds up the stored
    rows, in which a loss is a negative reward. *)
Theorem losses_negated_by_restart (w3 : Web3) (block_number initial_block : Z)
    (rs ls : list event) (ledgers : list string)
    (s s0 : AggregatedMetricsExporter) :
  getLedgerAddresses w3 = Ok ledgers ->
  is_INT block_number = true ->
  reward (database_manager s) = [] -> rewards s = 0 -> losses s = 0 ->
  Forall reward_log_ok rs -> Forall loss_log_ok ls ->
  let out := process_block w3 block_number (rewards_and_losses_group rs ls) s in
  (database_manager s0 = database_manager (fst out) ->
   rewards s0 = 0 -> losses s0 = 0 ->
   snd out = Ok tt
   /\ rewards (fst out) = total_of "rewards" rs
   /\ losses (fst out) = total_of "losses" ls
   /\ (exists from_block,
         snd (restore_from_database initial_block s0) = Ok from_block)
   /\ rewards (fst (restore_from_database initial_block s0)) = rewards (fst out)
   /\ losses (fst (restore_from_database initial_block s0)) = - losses (fst out)).
Proof.
  intros Hledgers Hblock Htable Hr0 Hl0 Hrs Hls. cbv zeta.
  assert (Hamounts : Forall (fun e => arg_int_opt (amount_name e) e <> None) (rs ++ ls)).
  { apply Forall_app. split; eapply Forall_impl; try eassumption.
    - intros e (Hn & (r & b & Hr & _)). unfold amount_name, is_rewards.
      rewrite Hn. cbn. congruence.
    - intros e (Hn & (l & b & Hl & _)). unfold amount_name, is_rewards.
      rewrite Hn. cbn. congruence. }
  destruct (entries_fit rs ls Hrs Hls) as (Hfit & Hrates).
  destruct (stored_signs rs ls Hrs Hls) as (S1 & S2 & S3 & S4).
  unfold process_block.
  set (s1 := set_redeemed_events_num (redeemed_events_num s + 0)
               (set_deposited_events_num (deposited_events_num s + 0) s)).
  erewrite bind_ok with (s1 := s1) by reflexivity.
  erewrite bind_ok with (s1 := s1) (a := rs) by reflexivity.
  erewrite bind_ok with (s1 := s1) (a := ls) by reflexivity.
  destruct (rewards_and_losses_fold (rs ++ ls) s1 Hamounts) as (F1 & F2 & F3 & F4).
  destruct (_process_rewards_and_losses_events (rs ++ ls) s1) as [s4 r4] eqn:E4.
  cbn [fst snd] in F1, F2, F3, F4. subst r4.
  erewrite bind_ok by exact E4. cbv beta.
  set (s5 := set_holders_number (get_holders_number (database_manager s4)) s4).
  erewrite bind_ok with (s1 := s5) by reflexivity.
  erewrite bind_ok with (s1 := s5) (a := s5) by reflexivity.
  set (s6 := set_database_manager
               (update_aggregated_data
                  (deposited s5, deposited_events_num s5, redeemed s5,
                   redeemed_events_num s5, block_number) (database_manager s5)) s5).
  erewrite bind_ok with (s1 := s6) by reflexivity. cbv beta.
  destruct (add_reward_loop block_number (map entry_of (rs ++ ls)) s6) as (L1 & _ & _).
  destruct (add_reward_loop_totals block_number (map entry_of (rs ++ ls)) s6)
    as (L2 & L3).
  pose proof (add_reward_loop_rows block_number (map entry_of (rs ++ ls)) s6
                Hblock Hfit) as L4.
  destruct (for_each _ (map entry_of (rs ++ ls)) s6) as [s7 r7] eqn:E7.
  cbn [fst snd] in L1, L2, L3, L4. subst r7.
  erewrite bind_ok by exact E7.
  unfold get_ledger_addresses. rewrite Hledgers.
  assert (Hrows : reward (database_manager s7)
                  = map (stored_row block_number) (map entry_of (rs ++ ls))).
  { rewrite L4. unfold s6, s5.
    assert (Hdb4 : database_manager s4 = database_manager s1).
    { unfold fields_beside_rewards in F4. congruence. }
    cbn [database_manager set_database_manager set_holders_number].
    assert (Hupd : forall entry db, reward (update_aggregated_data entry db) = reward db).
    { intros entry db. unfold update_aggregated_data.
      destruct (fits_aggregated_data entry); reflexivity. }
    rewrite Hupd, Hdb4. unfold s1. cbn. rewrite Htable. reflexivity. }
  assert (Hden : forall row, In row (reward (database_manager s7)) ->
                             row_balance row - row_reward row <> 0).
  { intros row Hin. rewrite Hrows, map_map in Hin.
    apply in_map_iff in Hin as (e & <- & He). exact (Hrates e He). }
  unfold bind, ret, get, modify. cbv beta iota.
  destruct (calculate_apr_returns (apr s7)
              (rewards_by_ledger (database_manager s7)
                 (database_query_limit (service_params s7)) (to_set ledgers))
              (eras_per_day (service_params s7)) (apr_min (service_params s7))
              (apr_max (service_params s7))) as [a Ha].
  { intros ledger rows row Hin Hrow. apply Hden.
    exact (rewards_by_ledger_rows _ _ _ _ _ _ Hin Hrow). }
  rewrite Ha. cbn [fst snd].
  intros Hdb Hr0' Hl0'.
  cbn [database_manager set_last_block_number_with_events set_apr] in Hdb.
  assert (Hrew : rewards s7 = total_of "rewards" rs).
  { rewrite L2. unfold s6, s5. cbn. rewrite F2, S3. unfold s1. cbn. lia. }
  assert (Hlos : losses s7 = total_of "losses" ls).
  { rewrite L3. unfold s6, s5. cbn. rewrite F3, S4. unfold s1. cbn. lia. }
  assert (Hsigned : map row_reward (reward (database_manager s7))
                    = map signed_amount (rs ++ ls)).
  { rewrite Hrows, !map_map. reflexivity. }
  destruct (calculate_apr_returns (apr s0)
              (rewards_by_ledger (database_manager s0)
                 (database_query_limit (service_params s0))
                 (stored_ledgers (database_manager s0)))
              (eras_per_day (service_params s0)) (apr_min (service_params s0))
              (apr_max (service_params s0))) as [a0 Ha0].
  { intros ledger rows row Hin Hrow. apply Hden. rewrite <- Hdb.
    exact (rewards_by_ledger_rows _ _ _ _ _ _ Hin Hrow). }
  destruct (restore_from_database_returns initial_block s0 a0 Ha0) as [from_block Hret].
  pose proof (restore_from_database_totals initial_block s0 Hr0' Hl0') as R.
  destruct (restore_from_database initial_block s0) as [s1' r1'].
  cbn [snd] in Hret. subst r1'. destruct R as (R1 & R2).
  rewrite Hdb, Hsigned in R1, R2.
  split; [reflexivity|]. cbn [fst rewards losses set_last_block_number_with_events set_apr].
  split; [exact Hrew|]. split; [exact Hlos|].
  split; [exists from_block; reflexivity|].
  split; [rewrite R1, S1, Hrew; reflexivity | rewrite R2, S2, Hlos; reflexivity].
Qed.

Lemma losses_negated_by_restart_witness :
  losses after_reward_and_loss = 5
  /\ rewards after_reward_and_loss = 10
  /\ losses (fst (restore_from_database 0
                    (restarted_on (database_manager after_reward_and_loss)))) = -5
  /\ rewards (fst (restore_from_database 0
                     (restarted_on (database_manager after_reward_and_loss)))) = 10.
Proof.
  assert (Hrs : Forall reward_log_ok [rewards_log 10 110]).
  { constructor; [|constructor].
    split; [reflexivity|]. exists 10, 110.
    repeat split; try reflexivity; try lia. }
  assert (Hls : Forall loss_log_ok [losses_log 5 95]).
  { constructor; [|constructor].
    split; [reflexivity|]. exists 5, 95.
    repeat split; try reflexivity; try lia. }
  assert (Hdb : database_manager (restarted_on (database_manager after_reward_and_loss))
                = database_manager
                    (fst (process_block two_blocks_provider 30
                            (rewards_and_losses_group [rewards_log 10 110]
                                                      [losses_log 5 95])
                            (AggregatedMetricsExporter_init two_blocks_provider
                               empty_database default_params))))
    by (vm_compute; reflexivity).
  pose proof (losses_negated_by_restart two_blocks_provider 30 0
                [rewards_log 10 110] [losses_log 5 95] []
                (AggregatedMetricsExporter_init two_blocks_provider empty_database
                                                default_params)
                (restarted_on (database_manager after_reward_and_loss))
                eq_refl eq_refl eq_refl eq_refl eq_refl Hrs Hls Hdb eq_refl eq_refl)
    as H.
  vm_compute in H. vm_compute.
  destruct H as (_ & H2 & H3 & _ & H4 & H5).
  split; [exact H3|]. split; [exact H2|]. split; [exact H5 | exact H4].
Defined.

(** ** Holders *)

Lemma add_holder_spec (h : string) (db : DatabaseManager) :
  (NoDup (holder db) -> NoDup (holder (add_holder h db)))
  /\ (forall x, In x (holder (add_holder h db)) <-> In x (holder db) \/ x = h)
  /\ aggregated_data (add_holder h db) = aggregated_data db
  /\ reward (add_holder h db) = reward db.
Proof.
  unfold add_holder. destruct (existsb (String.eqb h) (holder db)) eqn:E.
  - apply existsb_exists in E as (y & Hy & Heq). apply String.eqb_eq in Heq. subst y.
    split; [auto|]. split; [|auto].
    intros x. split; [auto | intros [H| ->]; assumption].
  - cbn [holder aggregated_data reward]. split; [|split; [|auto]].
    + intros Hnd. apply NoDup_app; [exact Hnd | repeat constructor; intros [] | ].
      intros x Hx [Heq|[]]. subst x.
      assert (Ht : existsb (String.eqb h) (holder db) = true).
      { apply existsb_exists. exists h. split; [exact Hx | apply String.eqb_refl]. }
      congruence.
    + intros x. rewrite in_app_iff. cbn. intuition.
Qed.

Lemma transfer_loop (ts : list event) (s : AggregatedMetricsExporter) :
  Forall (fun e => receiver_of e <> None) ts ->
  let out := for_each (fun transfer_event =>
                         match nth_error (topics transfer_event) 2 with
                         | Some topic =>
                             let receiver := String.append "0x" (string_drop 26 topic) in
                             with_database (add_holder receiver)
                         | None => raise IndexError
                         end) ts s in
  snd out = Ok tt
  /\ (NoDup (holder (database_manager s)) ->
      NoDup (holder (database_manager (fst out))))
  /\ (forall h, In h (holder (database_manager (fst out)))
                <-> In h (holder (database_manager s))
                    \/ exists e, In e ts /\ receiver_of e = Some h)
  /\ aggregates (fst out) = aggregates s
  /\ aggregated_data (database_manager (fst out))
     = aggregated_data (database_manager s).
Proof.
  cbv zeta. revert s. induction ts as [|e ts IH]; intros s Hall.
  - cbn. split; [reflexivity|]. split; [auto|]. split; [|auto].
    intros h. split; [auto | intros [H|(e & [] & _)]; exact H].
  - inversion Hall as [|? ? He Hrest]; subst. cbn [for_each].
    unfold receiver_of in He.
    destruct (nth_error (topics e) 2) as [topic|] eqn:Et; [|congruence].
    set (h := String.append "0x" (string_drop 26 topic)).
    erewrite bind_ok by reflexivity.
    set (s1 := set_database_manager (add_holder h (database_manager s)) s).
    specialize (IH s1 Hrest).
    destruct (for_each _ ts s1) as [s' r]. cbn [fst snd] in *.
    destruct IH as (I1 & I2 & I3 & I4 & I5).
    destruct (add_holder_spec h (database_manager s)) as (A1 & A2 & A3 & A4).
    split; [exact I1|]. split; [intros Hnd; apply I2, A1, Hnd|].
    split; [|split; [exact I4 | rewrite I5; exact A3]].
    intros x. rewrite I3. unfold s1. cbn [database_manager set_database_manager].
    rewrite A2. split.
    + intros [[H| ->]|(e' & He' & Hr)]; [auto| |right; exists e'; cbn; auto].
      right. exists e. split; [left; reflexivity|].
      unfold receiver_of. rewrite Et. reflexivity.
    + intros [H|(e' & [<-|He'] & Hr)]; [auto| |right; eauto].
      unfold receiver_of in Hr. rewrite Et in Hr. injection Hr as <-. auto.
Qed.

(** X18.  Folding the [Transfer] logs of a block, each with three topics,
    adds the receiver of each to the holders and nothing else: a holder
    already known is not added twice, no holder is dropped, and
    [holders_number] is the number of holders in the table afterwards. *)
Theorem process_transfer_events_holders (events : events_dict) (ts : list event)
    (s : AggregatedMetricsExporter) :
  dict_get String.eqb "Transfer" events = Some ts ->
  Forall (fun e => receiver_of e <> None) ts ->
  NoDup (holder (database_manager s)) ->
  let out := _process_transfer_events events s in
  snd out = Ok tt
  /\ NoDup (holder (database_manager (fst out)))
  /\ (forall h, In h (holder (database_manager (fst out)))
                <-> In h (holder (database_manager s))
                    \/ exists e, In e ts /\ receiver_of e = Some h)
  /\ holders_number (fst out)
     = Z.of_nat (List.length (holder (database_manager (fst out)))).
Proof.
  intros Hget Hall Hnd. cbv zeta.
  unfold _process_transfer_events, events_at. rewrite Hget.
  erewrite bind_ok by reflexivity.
  destruct (transfer_loop ts s Hall) as (T1 & T2 & T3 & _).
  destruct (for_each _ ts s) as [s1 r1] eqn:E1. cbn [fst snd] in *. subst r1.
  erewrite bind_ok by exact E1. unfold modify. cbn [fst snd].
  cbn [database_manager set_holders_number holders_number].
  split; [reflexivity|]. split; [exact (T2 Hnd)|]. split; [exact T3 | reflexivity].
Qed.

Lemma process_transfer_events_holders_witness :
  let s := AggregatedMetricsExporter_init two_blocks_provider empty_database
                                          default_params in
  let out := _process_transfer_events two_transfers_to_one_holder s in
  snd out = Ok tt /\ holders_number (fst out) = 1
  /\ NoDup (holder (database_manager (fst out))).
Proof.
  intros s out.
  destruct (process_transfer_events_holders two_transfers_to_one_holder
              [transfer_log_block_5; transfer_log_block_5] s eq_refl)
    as (H1 & H2 & _ & _).
  - repeat constructor; discriminate.
  - constructor.
  - split; [exact H1|]. split; [reflexivity | exact H2].
Defined.

(** ** The APR over ledgers with and without a rate *)

Lemma sum_zeros (value : list number) :
  Forall (fun v => v = PyInt 0) value -> sum value = Ok (PyInt 0).
Proof.
  unfold sum. induction 1 as [|v value -> _ IH]; [reflexivity|].
  cbn [fold_left add]. exact IH.
Qed.

Lemma ledger_apr_zeros (eras_per_day : Z) (apr_min apr_max : Q)
    (rows : list reward_row) :
  (apr_min <= 0)%Q -> (0 <= apr_max)%Q ->
  (forall row, In row rows -> row_balance row = row_reward row) ->
  ledger_apr eras_per_day apr_min apr_max rows = map (fun _ => PyInt 0) rows.
Proof.
  intros Hmin Hmax. induction rows as [|row rows IH]; intros H; [reflexivity|].
  cbn [ledger_apr map].
  assert (Hzero : _apr eras_per_day row = PyInt 0).
  { unfold _apr.
    assert (E : Qeq_bool (denominator row) 0 = true).
    { apply denominator_zero. rewrite (H row (in_eq _ _)). lia. }
    rewrite E. reflexivity. }
  rewrite Hzero. cbn [number_value].
  assert (E1 : Qlt_bool (inject_Z 0) apr_min = false).
  { apply not_true_iff_false. rewrite Qlt_bool_iff. apply Qle_not_lt, Hmin. }
  assert (E2 : Qlt_bool apr_max (inject_Z 0) = false).
  { apply not_true_iff_false. rewrite Qlt_bool_iff. apply Qle_not_lt, Hmax. }
  rewrite E1, E2. cbn [orb]. f_equal. apply IH.
  intros r Hr. apply H. right. exact Hr.
Qed.

(** A ledger that keeps entries without a rate only averages to a
    [float]. *)
Lemma average_zeros (value : list number) :
  Forall (fun v => v = PyInt 0) value ->
  exists x, average value = Ok (PyFloat x).
Proof.
  intros H. unfold average. rewrite (sum_zeros value H). cbn [truediv_len].
  eexists. reflexivity.
Qed.

(** X19.  The sum over the ledgers fails on a [float] next to a [Decimal].
    A ledger whose entries all have a balance equal to the amount has no
    rate to show: with [apr_min <= 0 <= apr_max] it keeps the integer 0 for
    each, and averages to a [float].  A ledger that keeps the rate of at
    least one entry, its entries all having a rate, averages to a
    [Decimal].  With one ledger of each kind, in either order,
    [calculate_apr] raises [TypeError]. *)
Theorem calculate_apr_mixed_raises (total_apr : Q) (without with_rate : string)
    (rows_without rows_with : list reward_row) (eras_per_day : Z)
    (apr_min apr_max : Q) :
  (apr_min <= 0)%Q -> (0 <= apr_max)%Q ->
  rows_without <> [] ->
  (forall row, In row rows_without -> row_balance row = row_reward row) ->
  (forall row, In row rows_with -> row_balance row - row_reward row <> 0) ->
  ledger_apr eras_per_day apr_min apr_max rows_with <> [] ->
  calculate_apr total_apr [(without, rows_without); (with_rate, rows_with)]
                eras_per_day apr_min apr_max = Raise TypeError
  /\ calculate_apr total_apr [(with_rate, rows_with); (without, rows_without)]
                   eras_per_day apr_min apr_max = Raise TypeError.
Proof.
  intros Hmin Hmax Hne Hzero Hrate Hkept.
  pose proof (ledger_apr_zeros eras_per_day apr_min apr_max rows_without
                Hmin Hmax Hzero) as Hz.
  assert (Hzeros : Forall (fun v => v = PyInt 0)
                          (ledger_apr eras_per_day apr_min apr_max rows_without)).
  { rewrite Hz. apply Forall_forall. intros v Hv.
    apply in_map_iff in Hv as (r & <- & _). reflexivity. }
  assert (Hne' : ledger_apr eras_per_day apr_min apr_max rows_without <> []).
  { rewrite Hz. destruct rows_without; [congruence | discriminate]. }
  destruct (average_zeros _ Hzeros) as [x Hx].
  destruct (average_decimals _ (ledger_apr_decimals eras_per_day apr_min apr_max
                                  rows_with Hrate) Hkept) as [d Hd].
  unfold calculate_apr, apr_by_ledger. cbn [map fst snd averaged_apr].
  destruct (ledger_apr eras_per_day apr_min apr_max rows_without) as [|v0 value0];
    [congruence|].
  destruct (ledger_apr eras_per_day apr_min apr_max rows_with) as [|v1 value1];
    [congruence|].
  rewrite Hx, Hd. split; reflexivity.
Qed.

Lemma calculate_apr_mixed_raises_witness :
  calculate_apr 0 ledger_without_and_ledger_with_rate 4 0 1 = Raise TypeError.
Proof.
  destruct (calculate_apr_mixed_raises 0 "L1" "L2"
              [mkRow (Some "L1") 100 100 1] [mkRow (Some "L2") 1 7301 1]
              4 0 1) as [H _].
  - apply Qle_refl.
  - unfold Qle. cbn. lia.
  - discriminate.
  - intros row [<-|[]]. reflexivity.
  - intros row [<-|[]]. discriminate.
  - vm_compute. discriminate.
  - exact H.
Defined.

(** ** The shrink, step by step *)

(** X20.  For a window below [10^15] in absolute value, where the
    truncated product [int(range_current * 0.1)] is the integer quotient by
    ten: a shrink takes off a tenth of the window, rounded down, and one
    block when that is nothing.  A window of ten blocks or more loses
    [w / 10] blocks, a window of two to nine blocks loses one, and anything
    below two blocks, zero and negative widths included, gives 1.  Among
    such windows the shrink never reverses the order of two. *)
Theorem decrease_range_of_blocks_step (w : Z) :
  - 10 ^ 15 < w < 10 ^ 15 ->
  (10 <= w -> decrease_range_of_blocks w = w - w / 10)
  /\ (2 <= w < 10 -> decrease_range_of_blocks w = w - 1)
  /\ (w <= 1 -> decrease_range_of_blocks w = 1)
  /\ (forall w', w <= w' < 10 ^ 15 ->
                 decrease_range_of_blocks w <= decrease_range_of_blocks w').
Proof.
  intros Hbound.
  assert (Hge : forall v, 10 <= v -> decrease_range_of_blocks v = v - v / 10).
  { intros v Hv. unfold decrease_range_of_blocks, decrease_by, int_mul_coefficient.
    rewrite Z.quot_div_nonneg by lia.
    assert (H1 : 1 <= v / 10) by (apply Z.div_le_lower_bound; lia).
    assert (H2 : v / 10 <= v) by (apply Z.div_le_upper_bound; lia).
    assert (H3 : v / 10 * 10 <= v) by (pose proof (Z.mul_div_le v 10); lia).
    replace (Z.max (v - v / 10) 1) with (v - v / 10) by lia.
    destruct (v - v / 10 =? v) eqn:E; [apply Z.eqb_eq in E; lia | reflexivity]. }
  assert (Hmid : forall v, 2 <= v < 10 -> decrease_range_of_blocks v = v - 1).
  { intros v Hv. unfold decrease_range_of_blocks, decrease_by, int_mul_coefficient.
    rewrite Z.quot_small by lia. rewrite Z.sub_0_r.
    replace (Z.max v 1) with v by lia. rewrite Z.eqb_refl.
    destruct (1 <? v) eqn:E; [reflexivity | apply Z.ltb_ge in E; lia]. }
  assert (Hlow : forall v, v <= 1 -> decrease_range_of_blocks v = 1).
  { intros v Hv. unfold decrease_range_of_blocks, decrease_by, int_mul_coefficient.
    assert (Hq : v - Z.quot v 10 <= 1).
    { destruct (Z.le_gt_cases 0 v) as [H0|H0].
      - rewrite Z.quot_small by lia. lia.
      - pose proof (Z.quot_le_upper_bound (- v) 10 (- v) ltac:(lia) ltac:(lia)) as H.
        rewrite Z.quot_opp_l in H by lia.
        pose proof (Z.quot_pos (- v) 10 ltac:(lia) ltac:(lia)).
        rewrite Z.quot_opp_l in H1 by lia. lia. }
    replace (Z.max (v - Z.quot v 10) 1) with 1 by lia.
    destruct (1 =? v); reflexivity. }
  split; [apply Hge|]. split; [apply Hmid|]. split; [apply Hlow|].
  intros w' [Hle _].
  assert (Hall : forall v, decrease_range_of_blocks v
                           = if v <=? 1 then 1 else if v <? 10 then v - 1
                                                    else v - v / 10).
  { intros v. destruct (v <=? 1) eqn:E1; [apply Hlow, Z.leb_le, E1|].
    apply Z.leb_gt in E1.
    destruct (v <? 10) eqn:E2;
      [apply Hmid; apply Z.ltb_lt in E2; lia | apply Hge; apply Z.ltb_ge in E2; lia]. }
  rewrite (Hall w), (Hall w').
  destruct (w <=? 1) eqn:A1; destruct (w' <=? 1) eqn:B1;
    destruct (w <? 10) eqn:A2; destruct (w' <? 10) eqn:B2;
    repeat match goal with
           | H : (_ <=? _) = true |- _ => apply Z.leb_le in H
           | H : (_ <=? _) = false |- _ => apply Z.leb_gt in H
           | H : (_ <? _) = true |- _ => apply Z.ltb_lt in H
           | H : (_ <? _) = false |- _ => apply Z.ltb_ge in H
           end; try lia.
  - pose proof (Z.mul_div_le w' 10 ltac:(lia)).
    assert (w' / 10 <= w') by (apply Z.div_le_upper_bound; lia). lia.
  - pose proof (Z.mul_div_le w' 10 ltac:(lia)). lia.
  - assert (Hstep : w' / 10 <= w / 10 + (w' - w)).
    { pose proof (Z.mul_div_le w 10 ltac:(lia)).
      pose proof (Z.mul_succ_div_gt w' 10 ltac:(lia)).
      pose proof (Z.mul_div_le w' 10 ltac:(lia)).
      pose proof (Z.mul_succ_div_gt w 10 ltac:(lia)). lia. }
    lia.
Qed.

Lemma decrease_range_of_blocks_step_witness :
  decrease_range_of_blocks 2500 = 2250
  /\ decrease_range_of_blocks 9 = 8
  /\ decrease_range_of_blocks 0 = 1
  /\ decrease_range_of_blocks 9 <= decrease_range_of_blocks 10.
Proof.
  destruct (decrease_range_of_blocks_step 2500 ltac:(lia)) as (H1 & _).
  destruct (decrease_range_of_blocks_step 9 ltac:(lia)) as (_ & H2 & _ & H4).
  destruct (decrease_range_of_blocks_step 0 ltac:(lia)) as (_ & _ & H3 & _).
  split; [rewrite H1 by lia; reflexivity|].
  split; [rewrite H2 by lia; reflexivity|].
  split; [apply H3; lia | apply H4; lia].
Defined.

(** ** The first block of an era *)

Lemma midpoint_between (a b : Z) : a <= b -> a <= (a + b) / 2 <= b.
Proof.
  intros H. pose proof (Z.div_mod (a + b) 2 ltac:(lia)).
  pose proof (Z.mod_pos_bound (a + b) 2 ltac:(lia)). lia.
Qed.

Section EraSearch.
Variable relay : RelayChain.
Variable era_of : Z -> Z.
Variables era_id first_block current : Z.
Hypothesis answers :
  forall b, first_block <= b <= current -> active_era_at relay b = Answer (era_of b).
Hypothesis monotone :
  forall b b', first_block <= b -> b <= b' -> b' <= current -> era_of b <= era_of b'.

Lemma era_search_spec (fuel : nat) :
  forall (start end_ : Z) (probe : option (Z * Z)),
    first_block <= start -> end_ <= current -> start <= end_ + 1 ->
    end_ - start + 1 <= Z.of_nat fuel ->
    (forall b, first_block <= b < start -> era_of b < era_id) ->
    (forall b, end_ < b <= current -> era_id <= era_of b) ->
    (start <= end_
     \/ exists mid, probe = Some (mid, era_of mid)
                    /\ ((mid = start - 1 /\ era_of mid < era_id)
                        \/ (mid = start /\ era_id <= era_of mid))) ->
    exists mid found,
      era_search relay era_id fuel start end_ probe
      = Some (Answer (Some (mid, era_of mid)))
      /\ first_block <= found <= current + 1
      /\ (forall b, first_block <= b < found -> era_of b < era_id)
      /\ (forall b, found <= b <= current -> era_id <= era_of b)
      /\ ((mid = found - 1 /\ era_of mid < era_id)
          \/ (mid = found /\ era_id <= era_of mid)).
Proof.
  induction fuel as [|fuel IH]; intros start end_ probe Hs He Hse Hfuel Hlow Hhigh Hprobe.
  - cbn [era_search].
    destruct (start <=? end_) eqn:E; [apply Z.leb_le in E; lia|].
    apply Z.leb_gt in E. destruct Hprobe as [H|(mid & -> & Hmid)]; [lia|].
    exists mid, start. split; [reflexivity|]. split; [lia|].
    split; [exact Hlow|]. split; [|exact Hmid].
    intros b Hb. apply Hhigh. lia.
  - cbn [era_search].
    destruct (start <=? end_) eqn:E.
    + apply Z.leb_le in E.
      pose proof (midpoint_between start end_ E) as Hmid.
      set (mid := (start + end_) / 2) in *.
      rewrite (answers mid) by lia.
      destruct (era_of mid <? era_id) eqn:Elt.
      * apply Z.ltb_lt in Elt.
        apply IH; try lia.
        -- intros b Hb. destruct (Z.lt_ge_cases b start) as [H|H]; [apply Hlow; lia|].
           pose proof (monotone b mid ltac:(lia) ltac:(lia) ltac:(lia)). lia.
        -- exact Hhigh.
        -- right. exists mid. split; [reflexivity|]. left. split; [lia | exact Elt].
      * apply Z.ltb_ge in Elt.
        apply IH; try lia.
        -- exact Hlow.
        -- intros b Hb. destruct (Z.lt_ge_cases end_ b) as [H|H]; [apply Hhigh; lia|].
           pose proof (monotone mid b ltac:(lia) ltac:(lia) ltac:(lia)). lia.
        -- destruct (Z.le_gt_cases start (mid - 1)) as [H|H]; [left; exact H|].
           right. exists mid. split; [reflexivity|]. right. split; [lia | exact Elt].
    + apply Z.leb_gt in E. destruct Hprobe as [H|(mid & -> & Hmid)]; [lia|].
      exists mid, start. split; [reflexivity|]. split; [lia|].
      split; [exact Hlow|]. split; [|exact Hmid].
      intros b Hb. apply Hhigh. lia.
Qed.
End EraSearch.

(** X21.  The search for the first block of an era ends, and finds it: when
    the node answers, the era index does not decrease along the window of
    the last [era_duration_in_blocks] blocks up to the head, and some block
    of the window is of the era asked for, the block returned is of that
    era and every earlier block of the window is of an earlier era. *)
Theorem get_era_first_block_number_found (relay : RelayChain) (era_of : Z -> Z)
    (era_duration_in_blocks era_id current : Z) :
  relay_head relay = Answer current ->
  let first_block := search_start era_duration_in_blocks current in
  (forall b, first_block <= b <= current ->
             active_era_at relay b = Answer (era_of b)) ->
  (forall b b', first_block <= b -> b <= b' -> b' <= current ->
                era_of b <= era_of b') ->
  (exists b, first_block <= b <= current /\ era_of b = era_id) ->
  exists block_number,
    _get_era_first_block_number relay era_duration_in_blocks era_id
    = Some (Found block_number)
    /\ first_block <= block_number <= current
    /\ era_of block_number = era_id
    /\ forall b, first_block <= b < block_number -> era_of b < era_id.
Proof.
  intros Hhead first_block Hanswers Hmono (b0 & Hb0 & Hera).
  assert (Hfirst : first_block <= current) by lia.
  destruct (era_search_spec relay era_of era_id first_block current Hanswers Hmono
              (Z.to_nat (current - first_block + 1)) first_block current None)
    as (mid & found & Hsearch & Hfound & Hlow & Hhigh & Hmid);
    try lia; try (intros b Hb; lia).
  assert (Hle : found <= b0).
  { destruct (Z.le_gt_cases found b0) as [H|H]; [exact H|].
    pose proof (Hlow b0 ltac:(lia)). lia. }
  assert (Hfound_era : era_of found = era_id).
  { pose proof (Hhigh found ltac:(lia)).
    pose proof (Hmono found b0 ltac:(lia) Hle ltac:(lia)). lia. }
  exists found. unfold _get_era_first_block_number. rewrite Hhead.
  fold first_block. cbv zeta. rewrite Hsearch.
  split.
  - destruct Hmid as [[-> Hlt]|[-> Hge]].
    + destruct (era_of (found - 1) =? era_id) eqn:E;
        [apply Z.eqb_eq in E; lia|].
      f_equal. f_equal. lia.
    + rewrite Hfound_era, Z.eqb_refl. f_equal. f_equal. lia.
  - split; [lia|]. split; [exact Hfound_era | exact Hlow].
Qed.

Lemma get_era_first_block_number_found_witness :
  exists block_number,
    _get_era_first_block_number ten_block_eras 25 8 = Some (Found block_number)
    /\ search_start 25 99 <= block_number <= 99
    /\ block_number / 10 = 8
    /\ forall b, search_start 25 99 <= b < block_number -> b / 10 < 8.
Proof.
  apply (get_era_first_block_number_found ten_block_eras (fun b => b / 10) 25 8 99 eq_refl).
  - intros b _. reflexivity.
  - intros b b' _ Hle _. apply Z.div_le_mono; lia.
  - exists 85. split; [vm_compute; split; discriminate | reflexivity].
Defined.
